(** * Folder Creator: a model of [Create_folders.py] and its properties.

    The script is a Tk form: three text entries, a grid of check boxes bound
    to [IntVar]s, and one button whose command validates the entries and then
    creates a directory tree.  The model below follows the script function by
    function.  Python [str] is a list of Unicode code points; the [IntVar]s
    live in a store indexed by the variable; dialogs, console lines and
    [mkdir] calls are threaded through a small state monad whose second
    outcome is [sys.exit]. *)

From Stdlib Require Import List NArith ZArith Bool Lia String Ascii.
Import ListNotations.

(** ** Text *)

Module Text.

Local Open Scope N_scope.

(** A Python [str]: the sequence of its code points. *)
Definition str := list N.

(** The code points of an ASCII literal. *)
Fixpoint cps (s : string) : str :=
  match s with
  | EmptyString => []
  | String a r => N_of_ascii a :: cps r
  end.

Definition between (lo hi c : N) : bool := (lo <=? c) && (c <=? hi).

(** [str.isspace] on one code point, which is also the class [\s] of [re]
    on [str] patterns. *)
Definition isspace (c : N) : bool :=
  between 9 13 c || between 28 32 c || (c =? 133) || (c =? 160)
  || (c =? 5760) || between 8192 8202 c || (c =? 8232) || (c =? 8233)
  || (c =? 8239) || (c =? 8287) || (c =? 12288).

(** The code points of the digit zero of every decimal script (Unicode
    14, the tables of Python 3.11): the class [\d] of [re] on [str] patterns
    is the ten code points from each. *)
Definition decimal_zeros : list N :=
  [48; 1632; 1776; 1984; 2406; 2534; 2662; 2790; 2918; 3046; 3174; 3302;
   3430; 3558; 3664; 3792; 3872; 4160; 4240; 6112; 6160; 6470; 6608; 6784;
   6800; 6992; 7088; 7232; 7248; 42528; 43216; 43264; 43472; 43504; 43600;
   44016; 65296; 66720; 68912; 69734; 69872; 69942; 70096; 70384; 70736;
   70864; 71248; 71360; 71472; 71904; 72016; 72784; 73040; 73120; 92768;
   92864; 93008; 120782; 120792; 120802; 120812; 120822; 123200; 123632;
   125264; 130032].

Definition isdecimal (c : N) : bool :=
  existsb (fun z => between z (z + 9) c) decimal_zeros.

(** [[A-Za-z]] *)
Definition ascii_letter (c : N) : bool := between 65 90 c || between 97 122 c.

(** [[A-Za-z0-9]] *)
Definition ascii_alnum (c : N) : bool := ascii_letter c || between 48 57 c.

(** [[A-Za-z0-9\- _]] *)
Definition acronym_char (c : N) : bool :=
  ascii_alnum c || (c =? 45) || (c =? 32) || (c =? 95).

(** [[A-Za-zÀ-ÖØ-öø-ÿ]] *)
Definition person_letter (c : N) : bool :=
  ascii_letter c || between 192 214 c || between 216 246 c || between 248 255 c.

(** [[A-Za-zÀ-ÖØ-öø-ÿ\s\-\.\']] *)
Definition person_char (c : N) : bool :=
  person_letter c || isspace c || (c =? 45) || (c =? 46) || (c =? 39).

Fixpoint lstrip (s : str) : str :=
  match s with
  | c :: r => if isspace c then lstrip r else s
  | [] => []
  end.

Definition rstrip (s : str) : str := rev (lstrip (rev s)).

(** [str.strip()] with no argument. *)
Definition strip (s : str) : str := rstrip (lstrip s).

(** [str.upper()].  Both call sites pass one character that has matched
    [[A-Za-z]], where upper-casing is the ASCII shift. *)
Definition upper_cp (c : N) : N := if between 97 122 c then c - 32 else c.
Definition upper (s : str) : str := map upper_cp s.

(** [s[-2:]] *)
Definition last_two (s : str) : str := skipn (List.length s - 2) s.

(** [s[2:4]] *)
Definition slice_2_4 (s : str) : str := firstn 2 (skipn 2 s).

Definition str_eqb (a b : str) : bool :=
  if list_eq_dec N.eq_dec a b then true else false.

End Text.

(** ** The patterns of [_validate_inputs] *)

Module Pattern.
Import Text.
Local Open Scope N_scope.

(** The longest prefix whose characters are in the class, and what is left:
    a greedy [[...]*]. *)
Fixpoint span (p : N -> bool) (s : str) : str * str :=
  match s with
  | c :: r => if p c then let (a, b) := span p r in (c :: a, b) else ([], s)
  | [] => ([], [])
  end.

(** [$] without [re.MULTILINE]: at the end, or before a newline that ends
    the string. *)
Definition at_dollar (rest : str) : bool := str_eqb rest [] || str_eqb rest [10].

(** [re.match] of [name] against the pattern made of [^], group 1
    [[A-Za-z]], [\-], group 2 [[A-Za-z0-9]] then [[A-Za-z0-9\- _]] starred,
    and [$]: groups 1 and 2 of the match.  The class of the star has no
    newline, so the star stops where the class does and [$] decides. *)
Definition match_name (name : str) : option (str * str) :=
  match name with
  | c :: h :: f :: r =>
      if ascii_letter c && (h =? 45) && ascii_alnum f then
        let (body, rest) := span acronym_char r in
        if at_dollar rest then Some ([c], f :: body) else None
      else None
  | _ => None
  end.

(** [re.match] of [meta] against the pattern made of [^], group 1
    [\d{4}], [\-], group 2 [[A-Za-zÀ-ÖØ-öø-ÿ]] then
    [[A-Za-zÀ-ÖØ-öø-ÿ\s\-\.\']] starred, and [$]: groups 1 and 2.  Here
    the class of the star holds [\s], the newline with it, so the star runs
    to the end of the string or stops at a character that [$] refuses as
    well. *)
Definition match_meta (meta : str) : option (str * str) :=
  match meta with
  | d1 :: d2 :: d3 :: d4 :: h :: l :: r =>
      if isdecimal d1 && isdecimal d2 && isdecimal d3 && isdecimal d4
         && (h =? 45) && person_letter l && forallb person_char r
      then Some ([d1; d2; d3; d4], l :: r) else None
  | _ => None
  end.

(** [re.fullmatch] of [drive] against [^[A-Za-z]$] *)
Definition fullmatch_drive (drive : str) : bool :=
  match drive with
  | [c] => ascii_letter c
  | _ => false
  end.

End Pattern.

(** ** Paths *)

Module Paths.
Import Text.

(** A [pathlib] path: the text it was anchored at and the components
    joined to it since. *)
Record Path := mkPath { anchor : str; parts : list str }.

(** [Path(text)] for a drive root. *)
Definition Path_of (text : str) : Path := mkPath text [].

(** [p / name], for a [name] that is one component: the names the script
    joins hold no separator and no colon
    ([CreationFacts.joined_names_are_components]). *)
Definition joinpath (p : Path) (name : str) : Path :=
  mkPath (anchor p) (parts p ++ [name]).

Definition parent (p : Path) : Path := mkPath (anchor p) (removelast (parts p)).

(** The path as the user reads it, with [/] between components. *)
Fixpoint join_parts (l : list str) : str :=
  match l with
  | [] => []
  | [x] => x
  | x :: r => x ++ cps "/" ++ join_parts r
  end.

Definition as_posix (p : Path) : str := anchor p ++ join_parts (parts p).

Definition Path_eq_dec (p q : Path) : {p = q} + {p <> q}.
Proof. decide equality; apply (list_eq_dec (list_eq_dec N.eq_dec)) || apply (list_eq_dec N.eq_dec). Defined.

(** The characters [pathlib] gives a meaning to inside a component. *)
Definition separator (c : N) : bool := ((c =? 47) || (c =? 92) || (c =? 58))%N.

Definition no_separator (name : str) : bool := negb (existsb separator name).

(** [p.name]: the last component of a path. *)
Definition name (p : Path) : str := last (parts p) [].

End Paths.

(** ** The folder taxonomy *)

Module Taxonomy.

Local Open Scope string_scope.

(** [self.tree] *)
Definition tree : list (string * list string) :=
  [ ("Intro & Documentation",
      ["General Info"; "Project Proposal"; "Go-to Person"; "Fieldwork Site";
       "Sample list 4 Lab-Team"; "Material List";
       "Fieldwork Protocol-Planning-Permission"; "Images"; "Meetings"]);
    ("Lab Measurements",
      ["TOC"; "pH"; "CN"; "ICP-MS"; "CFA"; "Aqualog"; "Raw Data Preparation";
       "Misc-Lab Data"]);
    ("Field Measurements",
      ["Meteorology"; "Hydrology"; "Vegetation"; "Soil"]);
    ("Geodata",
      ["Coordinates"; "Maps"; "Satellite Images"]);
    ("Finance & Administration",
      ["Approvals & Guidelines"; "Expenditure Reports"; "Account Overview";
       "Bank Statements"; "Personnel-Assistants & Staff";
       "Contracts - Service & Transfer"; "Travel Expense Reports";
       "Reimbursement Claims"; "Purchase Orders"]);
    ("Outcome",
      ["Master Files"; "Presentations"; "Publications"; "Reports"; "Logo";
       "Other Outputs"]) ].

(** [self.sub_sub_map] *)
Definition sub_sub_map : list (string * list (string * list string)) :=
  [ ("Finance & Administration",
      [ ("Personnel-Assistants & Staff", ["Personnel-Assistants"; "Personnel-Staff"]);
        ("Contracts - Service & Transfer", ["Contracts-Service"; "Contracts-Transfer"]) ]);
    ("Field Measurements",
      [ ("Meteorology", ["Meteorology Manual"; "Meteorology Instrument"]);
        ("Hydrology", ["Hydrology Manual"; "Hydrology Instrument"]);
        ("Vegetation", ["Vegetation Manual"; "Vegetation Instrument"]);
        ("Soil", ["Soil Manual"; "Soil Instrument"]) ]) ].

(** [self.layout_order]: the section and the column it is drawn in. *)
Definition layout_order : list (string * nat) :=
  [ ("Intro & Documentation", 0); ("Lab Measurements", 1);
    ("Field Measurements", 0); ("Geodata", 0);
    ("Finance & Administration", 1); ("Outcome", 0) ].

(** [d.get(key, default)] on a dict written as its items. *)
Fixpoint dict_get {V} (d : list (string * V)) (key : string) (default : V) : V :=
  match d with
  | [] => default
  | (k, v) :: r => if String.eqb k key then v else dict_get r key default
  end.

(** [self.sub_sub_map.get(section, {}).get(sub, [])] *)
Definition extra_children (section sub : string) : list string :=
  dict_get (dict_get sub_sub_map section []) sub [].

End Taxonomy.

(** ** The form: entries, [IntVar]s and their write traces *)

Module Form.
Import Text Taxonomy.
Local Open Scope Z_scope.

(** The [IntVar]s that [_build_ui] creates: [self.section_vars[s]],
    [self.select_all_vars[s]] and the variable at position [i] of
    [self.sub_vars[s]]. *)
Inductive Var :=
  | SectionVar (s : string)
  | SelectAllVar (s : string)
  | SubVar (s : string) (i : nat).

Definition Var_eq_dec (x y : Var) : {x = y} + {x <> y}.
Proof. decide equality; apply string_dec || apply Nat.eq_dec. Defined.

Inductive Entry := EntryName | EntryMeta | EntryDrive.

(** What the script keeps between two events. *)
Record App := mkApp {
  entry_name : str;
  entry_meta : str;
  entry_drive : str;
  focus : option Entry;
  vars : Var -> Z;              (* the value of every IntVar *)
  widget_state : Var -> bool;   (* tk.NORMAL for the Checkbutton of a variable *)
  _bulk_update : bool;
  destroyed : bool              (* self.root.destroy() was called *)
}.

Definition with_vars (f : Var -> Z) (a : App) : App :=
  mkApp (entry_name a) (entry_meta a) (entry_drive a) (focus a) f
        (widget_state a) (_bulk_update a) (destroyed a).

Definition with_widget_state (f : Var -> bool) (a : App) : App :=
  mkApp (entry_name a) (entry_meta a) (entry_drive a) (focus a) (vars a)
        f (_bulk_update a) (destroyed a).

Definition with_bulk_update (b : bool) (a : App) : App :=
  mkApp (entry_name a) (entry_meta a) (entry_drive a) (focus a) (vars a)
        (widget_state a) b (destroyed a).

Definition with_focus (e : Entry) (a : App) : App :=
  mkApp (entry_name a) (entry_meta a) (entry_drive a) (Some e) (vars a)
        (widget_state a) (_bulk_update a) (destroyed a).

Definition with_entry_name (s : str) (a : App) : App :=
  mkApp s (entry_meta a) (entry_drive a) (focus a) (vars a)
        (widget_state a) (_bulk_update a) (destroyed a).

Definition with_entry_meta (s : str) (a : App) : App :=
  mkApp (entry_name a) s (entry_drive a) (focus a) (vars a)
        (widget_state a) (_bulk_update a) (destroyed a).

Definition with_entry_drive (s : str) (a : App) : App :=
  mkApp (entry_name a) (entry_meta a) s (focus a) (vars a)
        (widget_state a) (_bulk_update a) (destroyed a).

Definition destroy (a : App) : App :=
  mkApp (entry_name a) (entry_meta a) (entry_drive a) (focus a) (vars a)
        (widget_state a) (_bulk_update a) true.

Definition upd {V} (f : Var -> V) (x : Var) (v : V) : Var -> V :=
  fun y => if Var_eq_dec y x then v else f y.

(** The value reaches the variable and no trace runs: a write to a variable
    from inside its own write trace (Tcl turns the traces of a variable off
    while one of them runs). *)
Definition store (x : Var) (v : Z) (a : App) : App :=
  with_vars (upd (vars a) x v) a.

Fixpoint enumerate_from {V} (i : nat) (l : list V) : list (nat * V) :=
  match l with
  | [] => []
  | x :: r => (i, x) :: enumerate_from (S i) r
  end.

(** [self.sub_vars[sect]]: the subfolders of [self.tree[sect]] in order,
    each with its own variable. *)
Definition sub_vars (sect : string) : list (string * Var) :=
  map (fun ix => (snd ix, SubVar sect (fst ix)))
      (enumerate_from 0 (dict_get tree sect [])).

(** [self.section_vars.items()]: the sections in the order [_build_ui]
    inserted them, which is [self.layout_order]. *)
Definition section_vars : list (string * Var) :=
  map (fun sc => (fst sc, SectionVar (fst sc))) layout_order.

(** [self.select_all_vars.items()] *)
Definition select_all_vars : list (string * Var) :=
  map (fun sc => (fst sc, SelectAllVar (fst sc))) layout_order.

(** [self.sub_vars.items()] *)
Definition sub_vars_items : list (string * list (string * Var)) :=
  map (fun sc => (fst sc, sub_vars (fst sc))) layout_order.

(** [set_children_enabled(enabled, sect)] *)
Definition set_children_enabled (enabled : bool) (sect : string) (a : App) : App :=
  let a := with_widget_state (upd (widget_state a) (SelectAllVar sect) enabled) a in
  fold_left (fun a sv => with_widget_state (upd (widget_state a) (snd sv) enabled) a)
            (sub_vars sect) a.

(** [update_select_all(sect)]; [set_select_all] is what
    [self.select_all_vars[sect].set] does where the call is made. *)
Definition update_select_all (set_select_all : Z -> App -> App)
    (sect : string) (a : App) : App :=
  if _bulk_update a then a
  else
    let all_on := forallb (fun sv => vars a (snd sv) =? 1) (sub_vars sect) in
    if negb (vars a (SelectAllVar sect) =? Z.b2z all_on) then
      let a := with_bulk_update true a in
      let a := set_select_all (Z.b2z all_on) a in
      with_bulk_update false a
    else a.

(** [toggle_all_children(to_value, sect)]; [set_sub v] is what [v.set] does
    where the call is made. *)
Definition toggle_all_children (set_sub : Var -> Z -> App -> App)
    (to_value : Z) (sect : string) (a : App) : App :=
  let a := with_bulk_update true a in
  let a := fold_left (fun a sv => set_sub (snd sv) to_value a) (sub_vars sect) a in
  with_bulk_update false a.

(** A write to a subfolder variable while the trace of the section's
    select-all variable runs: the trace of the subfolder variable is
    [update_select_all], and a write it makes to the select-all variable
    would run no trace. *)
Definition sub_set_nested (sect : string) (x : Var) (v : Z) (a : App) : App :=
  update_select_all (store (SelectAllVar sect)) sect (store x v a).

(** A write to [self.select_all_vars[sect]]; its trace is
    [toggle_all_children(self.select_all_vars[s].get(), sect=s)].
    [running] is the subfolder variable whose trace is making the write, if
    one is: its own trace stays off. *)
Definition select_all_set (running : option Var) (sect : string) (v : Z)
    (a : App) : App :=
  let a := store (SelectAllVar sect) v a in
  toggle_all_children
    (fun x v => match running with
                | Some y => if Var_eq_dec x y then store x v else sub_set_nested sect x v
                | None => sub_set_nested sect x v
                end)
    (vars a (SelectAllVar sect)) sect a.

(** A write to the variable at position [i] of [self.sub_vars[sect]]; its
    trace is [update_select_all(sect=s)]. *)
Definition sub_set (sect : string) (i : nat) (v : Z) (a : App) : App :=
  update_select_all (select_all_set (Some (SubVar sect i)) sect) sect
                    (store (SubVar sect i) v a).

(** A write to [self.section_vars[sect]]; its trace is
    [set_children_enabled(bool(sv.get()), sect=s)]. *)
Definition section_set (sect : string) (v : Z) (a : App) : App :=
  let a := store (SectionVar sect) v a in
  set_children_enabled (negb (vars a (SectionVar sect) =? 0)) sect a.

(** [x.set(v)] from outside every trace. *)
Definition IntVar_set (x : Var) (v : Z) (a : App) : App :=
  match x with
  | SectionVar s => section_set s v a
  | SelectAllVar s => select_all_set None s v a
  | SubVar s i => sub_set s i v a
  end.

(** The form after [_build_ui]: empty entries, every variable 0, the
    section boxes enabled and the boxes under them disabled. *)
Definition initial : App :=
  mkApp [] [] [] None (fun _ => 0)
        (fun x => match x with SectionVar _ => true | _ => false end)
        false false.

(** A click on the Checkbutton of [x]: a disabled box ignores it, an
    enabled one writes the value it does not show. *)
Definition click (x : Var) (a : App) : App :=
  if widget_state a x then IntVar_set x (if vars a x =? 1 then 0 else 1) a
  else a.

(** [reset_form()] *)
Definition reset_form (a : App) : App :=
  let a := with_entry_name [] a in
  let a := with_entry_meta [] a in
  let a := with_focus EntryName a in
  let a := fold_left (fun a sv => IntVar_set (snd sv) 0 a) section_vars a in
  let a := fold_left
             (fun a item => fold_left (fun a subv => IntVar_set (snd subv) 0 a)
                                      (snd item) a)
             sub_vars_items a in
  fold_left (fun a sv => IntVar_set (snd sv) 0 a) select_all_vars a.

End Form.

(** ** The disk under [Path.mkdir] *)

Module Disk.
Import Text Paths.

Inductive Node := Dir | ReadOnlyDir | File.

(** [OSError] and the subclasses [pathlib] tells apart; [OtherOSError] is
    an [OSError] that is none of them, by its [errno]. *)
Inductive OSError :=
  | FileExistsError
  | FileNotFoundError
  | NotADirectoryError
  | PermissionError
  | OtherOSError (errno : Z).

(** The disk: its entries, the newest first, and what the file system
    will not take.  [refuses p] is the error [os.mkdir(p)] raises whatever
    the entries are, if it raises one: a name that is too long or holds a
    character the file system does not allow, a volume that is full. *)
Record FS := mkFS {
  entries : list (Path * Node);
  refuses : Path -> option OSError
}.

Fixpoint find_entry (p : Path) (l : list (Path * Node)) : option Node :=
  match l with
  | [] => None
  | (q, n) :: r => if Path_eq_dec q p then Some n else find_entry p r
  end.

Definition lookup (p : Path) (fs : FS) : option Node := find_entry p (entries fs).

(** The disk with one more entry. *)
Definition add_entry (p : Path) (n : Node) (fs : FS) : FS :=
  mkFS ((p, n) :: entries fs) (refuses fs).

Definition is_dir (p : Path) (fs : FS) : bool :=
  match lookup p fs with
  | Some Dir | Some ReadOnlyDir => true
  | _ => false
  end.

(** [os.mkdir(p)]: one directory.  The file system may refuse the path
    for reasons of its own; otherwise the path must be new and its parent a
    directory that takes new entries.  A drive root is its own parent: one
    that is not there cannot be made. *)
Definition os_mkdir (p : Path) (fs : FS) : FS + OSError :=
  match refuses fs p with
  | Some e => inr e
  | None =>
      match lookup p fs with
      | Some _ => inr FileExistsError
      | None =>
          match lookup (parent p) fs with
          | None => inr FileNotFoundError
          | Some File => inr NotADirectoryError
          | Some ReadOnlyDir => inr PermissionError
          | Some Dir => inl (add_entry p Dir fs)
          end
      end
  end.

(** [p.mkdir(parents=False, exist_ok=True)] *)
Definition mkdir_exist_ok (p : Path) (fs : FS) : FS * option OSError :=
  match os_mkdir p fs with
  | inl fs' => (fs', None)
  | inr FileNotFoundError => (fs, Some FileNotFoundError)
  | inr e => if is_dir p fs then (fs, None) else (fs, Some e)
  end.

(** [p.mkdir(parents=True, exist_ok=True)] as [pathlib] writes it: try the
    directory itself; if its parent is missing make the parent the same way
    and try once more; any other error is forgiven when the directory is
    there.  The components come last first, so that the parent is the
    tail. *)
Fixpoint mkdir_from (anc : str) (rparts : list str) (fs : FS) : FS * option OSError :=
  let p := mkPath anc (rev rparts) in
  match os_mkdir p fs with
  | inl fs' => (fs', None)
  | inr FileNotFoundError =>
      match rparts with
      | [] => (fs, Some FileNotFoundError)
      | _ :: up =>
          match mkdir_from anc up fs with
          | (fs1, None) => mkdir_exist_ok p fs1
          | (fs1, Some e) => (fs1, Some e)
          end
      end
  | inr e => if is_dir p fs then (fs, None) else (fs, Some e)
  end.

Definition mkdir (p : Path) (fs : FS) : FS * option OSError :=
  mkdir_from (anchor p) (rev (parts p)) fs.

(** Everything on the first disk is on the second, as it was. *)
Definition extends (fs fs' : FS) : Prop :=
  forall q n, lookup q fs = Some n -> lookup q fs' = Some n.

End Disk.

(** ** Running the script: dialogs, console, disk and [sys.exit] *)

Module Run.
Import Text Paths Disk Form.

(** The message boxes of the script, by the call that opens them. *)
Inductive Dialog :=
  | IncompleteForm (missing : list string)   (* askyesno, "Incomplete form" *)
  | InvalidName                              (* showerror, "Invalid Name" *)
  | InvalidFormat                            (* showerror, "Invalid format" *)
  | InvalidDrive                             (* showerror, "Invalid Drive" *)
  | Confirmation (main_folder : Path)        (* askyesno, "Confirmation" *)
  | ErrorCreating (path : Path) (e : OSError)(* askyesno, "Error" *)
  | Success (main_folder : Path)             (* showinfo, "Success" *)
  | ContinueOrExit.                          (* askyesno, "Continue?" *)

(** The lines [create_folder] prints. *)
Inductive Line :=
  | FolderCreated (path : Path)
  | ErrorCreatingFolder (path : Path) (e : OSError).

Inductive Output :=
  | Printed (l : Line)
  | Shown (d : Dialog)
  | Asked (d : Dialog) (answer : bool).

(** The script and what is around it.  [user n] is the answer the user
    gives to the yes/no box number [n]; [out] is everything printed and
    shown so far, the oldest first. *)
Record World := mkWorld {
  app : App;
  disk : FS;
  user : nat -> bool;
  asked : nat;
  out : list Output
}.

Inductive Outcome (A : Type) :=
  | Ret (a : A)
  | SysExit (code : Z).
Arguments Ret {A} a.
Arguments SysExit {A} code.

Definition M (A : Type) := World -> Outcome A * World.

Definition ret {A} (a : A) : M A := fun w => (Ret a, w).

Definition bind {A B} (m : M A) (k : A -> M B) : M B :=
  fun w => match m w with
           | (Ret a, w') => k a w'
           | (SysExit c, w') => (SysExit c, w')
           end.

Declare Scope run_scope.
Delimit Scope run_scope with run.
Notation "x <- m ;; k" := (bind m (fun x => k))
  (at level 61, m at next level, right associativity) : run_scope.
Notation "m ;; k" := (bind m (fun _ => k))
  (at level 61, right associativity) : run_scope.
Local Open Scope run_scope.

Definition sys_exit {A} (code : Z) : M A := fun w => (SysExit code, w).

Definition emit (o : Output) : M unit :=
  fun w => (Ret tt, mkWorld (app w) (disk w) (user w) (asked w) (out w ++ [o])).

Definition print (l : Line) : M unit := emit (Printed l).
Definition showinfo (d : Dialog) : M unit := emit (Shown d).
Definition showerror (d : Dialog) : M unit := emit (Shown d).

Definition askyesno (d : Dialog) : M bool :=
  fun w => let answer := user w (asked w) in
           (Ret answer,
            mkWorld (app w) (disk w) (user w) (S (asked w)) (out w ++ [Asked d answer])).

Definition get_app : M App := fun w => (Ret (app w), w).

Definition modify_app (f : App -> App) : M unit :=
  fun w => (Ret tt, mkWorld (f (app w)) (disk w) (user w) (asked w) (out w)).

(** [v.get()] *)
Definition IntVar_get (x : Var) : M Z := fun w => (Ret (vars (app w) x), w).

Definition Path_mkdir (p : Path) : M (option OSError) :=
  fun w => let (fs', r) := mkdir p (disk w) in
           (Ret r, mkWorld (app w) fs' (user w) (asked w) (out w)).

(** [for x in l: body(x)] *)
Fixpoint for_each {X} (l : list X) (body : X -> M unit) : M unit :=
  match l with
  | [] => ret tt
  | x :: r => body x ;; for_each r body
  end.

End Run.

(** ** The script's functions *)

Module Controller.
Import Text Pattern Paths Taxonomy Disk Form Run.
Local Open Scope run_scope.

(** [create_folder(path)] *)
Definition create_folder (path : Path) : M unit :=
  r <- Path_mkdir path ;;
  match r with
  | None => print (FolderCreated path)
  | Some e =>
      print (ErrorCreatingFolder path e) ;;
      proceed <- askyesno (ErrorCreating path e) ;;
      if negb proceed then sys_exit 1%Z else ret tt
  end.

Definition is_empty (s : str) : bool :=
  match s with [] => true | _ => false end.

(** The list [missing] of [_validate_inputs]. *)
Definition missing_fields (name meta drive : str) : list string :=
  (if is_empty name then ["Code & Project Acronym"%string] else [])
  ++ (if is_empty meta then ["Start Year & Person"%string] else [])
  ++ (if is_empty drive then ["Drive/Path"%string] else []).

Definition mem (x : string) (l : list string) : bool :=
  existsb (String.eqb x) l.

(** [f"{project_code}-{acronym}-{year}-{person}"] *)
Definition main_folder_name (project_code acronym year person : str) : str :=
  project_code ++ cps "-" ++ acronym ++ cps "-" ++ year ++ cps "-" ++ person.

(** [_validate_inputs()]: [None], or the triple [project_code, acronym,
    main]. *)
Definition _validate_inputs : M (option (str * str * Path)) :=
  a <- get_app ;;
  let name := strip (entry_name a) in
  let meta := strip (entry_meta a) in
  let drive := strip (entry_drive a) in
  let missing := missing_fields name meta drive in
  if negb (match missing with [] => true | _ => false end) then
    keep_editing <- askyesno (IncompleteForm missing) ;;
    if keep_editing then
      (if mem "Code & Project Acronym" missing then modify_app (with_focus EntryName)
       else if mem "Start Year & Person" missing then modify_app (with_focus EntryMeta)
       else modify_app (with_focus EntryDrive)) ;;
      ret None
    else
      modify_app destroy ;;
      ret None
  else
    match match_name name with
    | None =>
        showerror InvalidName ;;
        modify_app (with_focus EntryName) ;;
        ret None
    | Some (g1, acronym) =>
        let code := upper g1 in
        match match_meta meta with
        | None =>
            showerror InvalidFormat ;;
            modify_app (with_focus EntryMeta) ;;
            ret None
        | Some (year, g2) =>
            let person := strip g2 in
            if negb (fullmatch_drive drive) then
              showerror InvalidDrive ;;
              modify_app (with_focus EntryDrive) ;;
              ret None
            else
              let base := Path_of (upper drive ++ cps ":/") in
              let yy := last_two year in
              let project_code := code ++ yy in
              let main := joinpath base (main_folder_name project_code acronym year person) in
              ret (Some (project_code, acronym, main))
        end
    end.

(** [f"{project_code}-{acronym} {label}"], the name of a section folder, a
    subfolder and an extra child alike. *)
Definition folder_name (project_code acronym : str) (label : string) : str :=
  project_code ++ cps "-" ++ acronym ++ cps " " ++ cps label.

(** The loops of [create_folders] over the ticked sections. *)
Definition create_sections (project_code acronym : str) (main_folder : Path) : M unit :=
  for_each section_vars (fun sv =>
    let (section, svar) := sv : string * Var in
    s <- IntVar_get svar ;;
    if (s =? 0)%Z then ret tt
    else
      let section_path := joinpath main_folder (folder_name project_code acronym section) in
      create_folder section_path ;;
      for_each (sub_vars section) (fun subv =>
        let (sub, v) := subv : string * Var in
        x <- IntVar_get v ;;
        if (x =? 0)%Z then ret tt
        else
          let sub_path := joinpath section_path (folder_name project_code acronym sub) in
          create_folder sub_path ;;
          for_each (extra_children section sub) (fun child =>
            create_folder (joinpath sub_path (folder_name project_code acronym child))))).

(** [create_folders()], the command of the button. *)
Definition create_folders : M unit :=
  validated <- _validate_inputs ;;
  match validated with
  | None => ret tt
  | Some (project_code, acronym, main_folder) =>
      ok <- askyesno (Confirmation main_folder) ;;
      if negb ok then ret tt
      else
        create_folder main_folder ;;
        create_sections project_code acronym main_folder ;;
        showinfo (Success main_folder) ;;
        do_more <- askyesno ContinueOrExit ;;
        if do_more then modify_app reset_form else modify_app destroy
  end.

End Controller.

(** ** The validation rules as the specification words them *)

Module Spec.
Import Text Paths Form.
Local Open Scope N_scope.

Inductive ValidationError :=
  | MissingFieldError (fields : list Entry)
  | InvalidCodeAcronymError
  | InvalidYearPersonError
  | InvalidDriveError.

Record ValidatedIdentity := mkIdentity {
  code : str;
  acronym : str;
  year : str;
  person : str;
  drivePathRoot : Path;
  projectCode : str
}.

(** One letter, a hyphen, then the acronym: a letter or digit first, then
    letters, digits, hyphens, underscores and spaces.  The letter and the
    acronym. *)
Definition code_acronym (s : str) : option (N * str) :=
  match s with
  | c :: h :: first :: rest =>
      if ascii_letter c && (h =? 45) && ascii_alnum first
         && forallb acronym_char rest
      then Some (c, first :: rest) else None
  | _ => None
  end.

(** Exactly four digits, a hyphen, then the person: a letter first, then
    letters, white space, hyphens, periods and apostrophes.  The year and
    the person. *)
Definition year_person (s : str) : option (str * str) :=
  let y := firstn 4 s in
  match skipn 4 s with
  | h :: p =>
      if (List.length y =? 4)%nat && forallb isdecimal y && (h =? 45)
         && match p with
            | first :: rest => person_letter first && forallb person_char rest
            | [] => false
            end
      then Some (y, p) else None
  | [] => None
  end.

Definition text_of (codeAcronymText yearPersonText driveText : str) (e : Entry) : str :=
  match e with
  | EntryName => codeAcronymText
  | EntryMeta => yearPersonText
  | EntryDrive => driveText
  end.

Definition is_blank (s : str) : bool :=
  match strip s with [] => true | _ => false end.

(** [validate]: the rules in their order, each failing fast. *)
Definition validate (codeAcronymText yearPersonText driveText : str)
  : ValidatedIdentity + ValidationError :=
  let blank :=
    filter (fun e => is_blank (text_of codeAcronymText yearPersonText driveText e))
           [EntryName; EntryMeta; EntryDrive] in
  match blank with
  | _ :: _ => inr (MissingFieldError blank)
  | [] =>
      match code_acronym (strip codeAcronymText) with
      | None => inr InvalidCodeAcronymError
      | Some (c, acr) =>
          match year_person (strip yearPersonText) with
          | None => inr InvalidYearPersonError
          | Some (y, p) =>
              match strip driveText with
              | [d] =>
                  if ascii_letter d then
                    inl (mkIdentity [upper_cp c] acr y p
                           (Path_of ([upper_cp d] ++ cps ":/"))
                           ([upper_cp c] ++ slice_2_4 y))
                  else inr InvalidDriveError
              | _ => inr InvalidDriveError
              end
          end
      end
  end.

(** The name a field goes by in the message about empty fields. *)
Definition field_label (e : Entry) : string :=
  match e with
  | EntryName => "Code & Project Acronym"
  | EntryMeta => "Start Year & Person"
  | EntryDrive => "Drive/Path"
  end.

End Spec.

(** ** The plan of the specification and the loops of [create_folders] *)

Module Plan.
Import Text Paths Taxonomy Disk Form Run Controller.
Local Open Scope run_scope.

(** A box is ticked. *)
Definition selected (a : App) (x : Var) : bool := negb (vars a x =? 0)%Z.

(** The paths one subfolder of a section contributes: its own and those of
    its extra children, or none when it is not selected. *)
Definition subfolder_paths (project_code acronym : str) (section_path : Path)
    (section : string) (a : App) (entry : nat * string) : list Path :=
  let (i, sub) := entry in
  if selected a (SubVar section i) then
    let sub_path := joinpath section_path (folder_name project_code acronym sub) in
    sub_path
    :: map (fun child => joinpath sub_path (folder_name project_code acronym child))
           (extra_children section sub)
  else [].

(** The paths one section of the taxonomy contributes. *)
Definition section_paths (project_code acronym : str) (main_folder : Path)
    (a : App) (entry : string * list string) : list Path :=
  let (section, subs) := entry in
  if selected a (SectionVar section) then
    let section_path := joinpath main_folder (folder_name project_code acronym section) in
    section_path
    :: flat_map (subfolder_paths project_code acronym section_path section a)
                (enumerate_from 0 subs)
  else [].

(** [planCreationPaths]: the main folder, then the sections of the
    taxonomy in the order it declares them. *)
Definition planCreationPaths (project_code acronym : str) (main_folder : Path)
    (a : App) : list Path :=
  main_folder :: flat_map (section_paths project_code acronym main_folder a) tree.

(** [createAll]: the paths in turn, each through [create_folder]. *)
Definition createAll (paths : list Path) : M unit := for_each paths create_folder.

(** The paths that reached [create_folder], read off what was printed. *)
Definition attempts (o : list Output) : list Path :=
  flat_map (fun e => match e with
                     | Printed (FolderCreated p) => [p]
                     | Printed (ErrorCreatingFolder p _) => [p]
                     | _ => []
                     end) o.

(** What [create_folder] leaves in the output, path by path: the line of a
    success, or the line of a failure with the question about it and the
    answer right after. *)
Inductive CreationLog : list Path -> list Output -> Prop :=
  | log_done : CreationLog [] []
  | log_created p ps o :
      CreationLog ps o ->
      CreationLog (p :: ps) (Printed (FolderCreated p) :: o)
  | log_failed p e answer ps o :
      CreationLog ps o ->
      CreationLog (p :: ps)
        (Printed (ErrorCreatingFolder p e) :: Asked (ErrorCreating p e) answer :: o).

(** The labels of the taxonomy: sections, subfolders, extra children. *)
Definition labels : list string :=
  flat_map (fun entry =>
              fst entry
              :: flat_map (fun sub => sub :: extra_children (fst entry) sub) (snd entry))
           tree.

(** The paths the loops of [create_folders] reach for one entry of
    [self.section_vars.items()], in the order of the loops. *)
Definition loop_paths (project_code acronym : str) (main_folder : Path) (a : App)
    (sv : string * Var) : list Path :=
  let (section, svar) := sv in
  if (vars a svar =? 0)%Z then []
  else
    let section_path := joinpath main_folder (folder_name project_code acronym section) in
    section_path
    :: flat_map (fun subv : string * Var =>
                   let (sub, v) := subv in
                   if (vars a v =? 0)%Z then []
                   else
                     let sub_path :=
                       joinpath section_path (folder_name project_code acronym sub) in
                     sub_path
                     :: map (fun child =>
                               joinpath sub_path (folder_name project_code acronym child))
                            (extra_children section sub))
                (sub_vars section).

(** The world after the question that opens the creation. *)
Definition confirmed (main_folder : Path) (w : World) : World :=
  mkWorld (app w) (disk w) (user w) (S (asked w))
          (out w ++ [Asked (Confirmation main_folder) (user w (asked w))]).

(** The end of [create_folders], after the folders. *)
Definition finish (main_folder : Path) : M unit :=
  showinfo (Success main_folder) ;;
  do_more <- askyesno ContinueOrExit ;;
  if do_more then modify_app reset_form else modify_app destroy.

(** The paths whose creation went through, read off what was printed. *)
Definition created (o : list Output) : list Path :=
  flat_map (fun e => match e with
                     | Printed (FolderCreated p) => [p]
                     | _ => []
                     end) o.

(** The lines of a run in which every creation went through. *)
Definition all_created (paths : list Path) : list Output :=
  map (fun p => Printed (FolderCreated p)) paths.

(** The outcome of each path, as the specification asks [createAll] for
    it: what [mkdir] answers for the path on the disk the paths before it
    have left. *)
Fixpoint outcomes (paths : list Path) (fs : FS) : list (Path * option OSError) :=
  match paths with
  | [] => []
  | p :: rest => (p, snd (mkdir p fs)) :: outcomes rest (fst (mkdir p fs))
  end.

(** The disk after [mkdir] on each of the paths in turn. *)
Fixpoint disk_after (paths : list Path) (fs : FS) : FS :=
  match paths with
  | [] => fs
  | p :: rest => disk_after rest (fst (mkdir p fs))
  end.

(** What the user gets to see of one outcome: the line of a success; for a
    failure the line of the error and the question about it, with the
    answer given. *)
Definition report (answer : bool) (outcome : Path * option OSError) : list Output :=
  match outcome with
  | (p, None) => [Printed (FolderCreated p)]
  | (p, Some e) => [Printed (ErrorCreatingFolder p e); Asked (ErrorCreating p e) answer]
  end.

(** The folders below the main folder, each by what it stands for: a
    section, a subfolder of a section, an extra child of a subfolder. *)
Inductive Folder :=
  | SectionFolder (section : string)
  | SubFolder (section sub : string)
  | ChildFolder (section sub child : string).

(** The label of the taxonomy a folder is named after: its own. *)
Definition label_of (f : Folder) : string :=
  match f with
  | SectionFolder section => section
  | SubFolder _ sub => sub
  | ChildFolder _ _ child => child
  end.

(** [buildSectionFolderName]: the project code, a hyphen, the acronym, one
    space, the label. *)
Definition buildSectionFolderName (projectCode acronym : str) (label : string) : str :=
  projectCode ++ cps "-" ++ acronym ++ cps " " ++ cps label.

(** Where a folder goes: a section in the main folder, a subfolder in the
    folder of its section, an extra child in the folder of its subfolder,
    each under the name built from its own label. *)
Definition folder_path (projectCode acronym : str) (main_folder : Path) (f : Folder) : Path :=
  match f with
  | SectionFolder section =>
      joinpath main_folder (buildSectionFolderName projectCode acronym section)
  | SubFolder section sub =>
      joinpath (joinpath main_folder (buildSectionFolderName projectCode acronym section))
               (buildSectionFolderName projectCode acronym sub)
  | ChildFolder section sub child =>
      joinpath
        (joinpath (joinpath main_folder (buildSectionFolderName projectCode acronym section))
                  (buildSectionFolderName projectCode acronym sub))
        (buildSectionFolderName projectCode acronym child)
  end.

(** The folders of the ticked boxes, in the order of the taxonomy: each
    ticked section, then each ticked subfolder of it with its extra
    children. *)
Definition ticked_folders (a : App) : list Folder :=
  flat_map
    (fun entry : string * list string =>
       let (section, subs) := entry in
       if selected a (SectionVar section) then
         SectionFolder section
         :: flat_map
              (fun ix : nat * string =>
                 let (i, sub) := ix in
                 if selected a (SubVar section i) then
                   SubFolder section sub
                   :: map (ChildFolder section sub) (extra_children section sub)
                 else [])
              (enumerate_from 0 subs)
       else [])
    tree.

End Plan.

(** ** Notions the properties are stated with *)

Module FormNotions.
Import Text Taxonomy Form.
Local Open Scope Z_scope.

(** One value written to a list of variables, no trace running. *)
Definition store_all (xs : list Var) (v : Z) (a : App) : App :=
  fold_left (fun a x => store x v a) xs a.

(** The text fields, which no write to a variable touches. *)
Definition same_texts (a a' : App) : Prop :=
  entry_name a' = entry_name a /\ entry_meta a' = entry_meta a
  /\ entry_drive a' = entry_drive a.

Definition is_section_var (x : Var) : bool :=
  match x with SectionVar _ => true | _ => false end.

(** The three loops of [reset_form], one after the other. *)
Definition reset_sections (a : App) : App :=
  fold_left (fun a sv => IntVar_set (snd sv) 0 a) section_vars a.

Definition reset_subs (a : App) : App :=
  fold_left
    (fun a item => fold_left (fun a subv => IntVar_set (snd subv) 0 a)
                             (snd item) a)
    sub_vars_items a.

Definition reset_select_all (a : App) : App :=
  fold_left (fun a sv => IntVar_set (snd sv) 0 a) select_all_vars a.

(** The subfolder variables of a section, as [update_select_all] reads
    them. *)
Definition all_on (sect : string) (a : App) : bool :=
  forallb (fun sv => vars a (snd sv) =? 1) (sub_vars sect).

End FormNotions.

(** ** The forms, disks and users of the examples *)

Module Scenario.
Import Text Paths Disk Form Run.

(** A form with the three texts typed in and the boxes clicked in turn. *)
Definition filled (name meta drive : string) (clicks : list Var) : App :=
  fold_left (fun a x => click x a) clicks
    (with_entry_drive (cps drive)
       (with_entry_meta (cps meta) (with_entry_name (cps name) initial))).

(** The form of the example: A-CABCAR, 2026-Peter, drive D. *)
Definition cabcar (clicks : list Var) : App :=
  filled "A-CABCAR" "2026-Peter" "D" clicks.

(** A file system that takes every name. *)
Definition refuses_nothing : Path -> option OSError := fun _ => None.

(** A file system that takes no component of more than 255 characters:
    [ENAMETOOLONG]. *)
Definition refuses_long_names : Path -> option OSError :=
  fun p => if existsb (fun x => (255 <? List.length x)%nat) (parts p)
           then Some (OtherOSError 36) else None.

(** A disk with the root of drive D and nothing under it. *)
Definition drive_D : FS := mkFS [(Path_of (cps "D:/"), Dir)] refuses_nothing.

(** A disk where a file has the name of the main folder. *)
Definition drive_D_with_file : FS :=
  mkFS [(mkPath (cps "D:/") [cps "A26-CABCAR-2026-Peter"], File);
        (Path_of (cps "D:/"), Dir)]
       refuses_nothing.

(** Drive D with nothing under its root and no room for long names. *)
Definition drive_D_short_names : FS :=
  mkFS [(Path_of (cps "D:/"), Dir)] refuses_long_names.

Definition nested : Path := mkPath (cps "D:/") [cps "a"; cps "b"; cps "c"].

(** The start of a run: nothing asked, nothing shown. *)
Definition start (a : App) (fs : FS) (user : nat -> bool) : World :=
  mkWorld a fs user 0 [].

Definition yes : nat -> bool := fun _ => true.

(** A user who agrees to the creation and says no to the question that
    follows. *)
Definition yes_then_no : nat -> bool := fun n => Nat.eqb n 0.

End Scenario.

(** ** Notions for the properties beyond the validation and the plan *)

Module Events.
Import Text Pattern Paths Disk Form Run Controller.
Local Open Scope N_scope.

(** What [_validate_inputs] returns for three trimmed texts. *)
Definition answer (name meta drive : str) : option (str * str * Path) :=
  match missing_fields name meta drive with
  | _ :: _ => None
  | [] =>
      match match_name name with
      | None => None
      | Some (g1, acronym) =>
          match match_meta meta with
          | None => None
          | Some (year, g2) =>
              if fullmatch_drive drive then
                let project_code := upper g1 ++ last_two year in
                Some (project_code, acronym,
                      joinpath (Path_of (upper drive ++ cps ":/"))
                        (main_folder_name project_code acronym year (strip g2)))
              else None
          end
      end
  end.

(** The form with every entry holding its own trimmed text. *)
Definition trimmed (a : App) : App :=
  with_entry_drive (strip (entry_drive a))
    (with_entry_meta (strip (entry_meta a))
       (with_entry_name (strip (entry_name a)) a)).

(** The world with another form in it. *)
Definition with_app (a : App) (w : World) : World :=
  mkWorld a (disk w) (user w) (asked w) (out w).

(** Two texts that differ at most in the case of their first letter. *)
Definition same_but_first_case (s t : str) : Prop :=
  match s, t with
  | [], [] => True
  | c :: r, c' :: r' => upper_cp c = upper_cp c' /\ r = r'
  | _, _ => False
  end.

End Events.

Module DiskNotions.
Import Text Paths Disk.

(** Every entry of the disk is a directory that takes new entries. *)
Definition all_dirs (fs : FS) : Prop :=
  forall q n, lookup q fs = Some n -> n = Dir.

(** The second disk is the first with directories added. *)
Definition only_adds_dirs (fs fs' : FS) : Prop :=
  extends fs fs'
  /\ forall q n, lookup q fs' = Some n -> lookup q fs = Some n \/ n = Dir.

(** What [mkdir] has done to the disk when it is back with [r]: all that
    was there is kept, the file system refuses what it refused, and when
    nothing was raised the path is a directory, one the file system does
    not answer "not found" for. *)
Definition made (p : Path) (fs fs' : FS) (r : option OSError) : Prop :=
  extends fs fs' /\ refuses fs' = refuses fs
  /\ (r = None -> is_dir p fs' = true /\ refuses fs p <> Some FileNotFoundError).


(** The path is the folder or lies below it. *)
Definition under (folder p : Path) : Prop :=
  anchor p = anchor folder /\ exists rest, parts p = parts folder ++ rest.

(** Each path of the list is a child of a known path or of a path before
    it in the list. *)
Fixpoint top_down (known : list Path) (l : list Path) : Prop :=
  match l with
  | [] => True
  | p :: r => parts p <> [] /\ In (parent p) known /\ top_down (p :: known) r
  end.

End DiskNotions.

(** ** The forms the script can reach *)

Module Reach.
Import Text Paths Taxonomy Disk Form Run Controller FormNotions.
Local Open Scope Z_scope.

(** The sections that have boxes. *)
Definition sections : list string := map fst layout_order.

(** The forms the user can bring about: clicks on check boxes, edits of
    the entries, and the button, whatever the disk and the answers. *)
Inductive reachable : App -> Prop :=
  | reach_initial : reachable initial
  | reach_click a x : reachable a -> reachable (click x a)
  | reach_name a s : reachable a -> reachable (with_entry_name s a)
  | reach_meta a s : reachable a -> reachable (with_entry_meta s a)
  | reach_drive a s : reachable a -> reachable (with_entry_drive s a)
  | reach_button w : reachable (app w) -> reachable (app (snd (create_folders w))).

(** The select-all variable of every section says whether all the
    subfolder variables of the section are 1. *)
Definition select_all_consistent (a : App) : Prop :=
  forall s, In s sections -> vars a (SelectAllVar s) = Z.b2z (all_on s a).

(** The boxes under a section are enabled when the section variable is
    not 0, and only then. *)
Definition enabled_iff_ticked (a : App) : Prop :=
  forall s, In s sections ->
    let ticked := negb (vars a (SectionVar s) =? 0) in
    widget_state a (SelectAllVar s) = ticked
    /\ Forall (fun sv => widget_state a (snd sv) = ticked) (sub_vars s).

Definition zero_or_one (a : App) : Prop :=
  forall x, vars a x = 0 \/ vars a x = 1.

(** What every reachable form satisfies. *)
Definition invariant (a : App) : Prop :=
  _bulk_update a = false /\ select_all_consistent a
  /\ enabled_iff_ticked a /\ zero_or_one a.

End Reach.

(** ** The widgets of the window *)

Module Widgets.
Import Taxonomy Form.

(** A widget as [_find_widget_for_var] reads it: whether it is a
    [Checkbutton], the variable that [cget] names for the option
    variable ([None] where Tk raises, the widget having no such option),
    and [winfo_children()], the widgets made in it, oldest first. *)
Unset Elimination Schemes.
Inductive Widget := mkWidget {
  is_Checkbutton : bool;
  cget_variable : option Var;
  winfo_children : list Widget
}.
Set Elimination Schemes.




(** The widgets [_build_ui] makes in [main], in the order it makes them. *)
Definition Button : Widget := mkWidget false None [].
Definition Label : Widget := mkWidget false None [].
Definition Entry : Widget := mkWidget false None [].
Definition Checkbutton (variable : Var) : Widget := mkWidget true (Some variable) [].

Definition section_boxes (section : string) : list Widget :=
  Checkbutton (SectionVar section)
  :: Checkbutton (SelectAllVar section)
  :: map (fun sv => Checkbutton (snd sv)) (sub_vars section).

Definition main : Widget :=
  mkWidget false None
    ([Button; Button; Button; Label; Entry; Label; Entry; Label; Entry]
     ++ flat_map (fun sc => section_boxes (fst sc)) layout_order
     ++ [Button]).




End Widgets.

(** * Properties *)

(** ** Writes to the check-box variables *)

Module FormFacts.
Import Text Taxonomy Form FormNotions.
Local Open Scope Z_scope.

Lemma upd_same {V} (f : Var -> V) x v : upd f x v x = v.
Proof. unfold upd. destruct (Var_eq_dec x x); congruence. Qed.

Lemma upd_other {V} (f : Var -> V) x v y : y <> x -> upd f x v y = f y.
Proof. unfold upd. destruct (Var_eq_dec y x); congruence. Qed.

Lemma store_all_vars xs v a y :
  vars (store_all xs v a) y = if in_dec Var_eq_dec y xs then v else vars a y.
Proof.
  revert a. induction xs as [|x xs IH]; intros a; simpl; [reflexivity|].
  unfold store_all in *. simpl. rewrite IH. simpl.
  destruct (Var_eq_dec x y) as [->|Hne].
  - destruct (in_dec Var_eq_dec y xs); [reflexivity | apply upd_same].
  - destruct (in_dec Var_eq_dec y xs); [reflexivity | apply upd_other; congruence].
Qed.

Lemma store_all_shape xs v a :
  store_all xs v a = with_vars (vars (store_all xs v a)) a.
Proof.
  revert a. induction xs as [|x xs IH]; intros a.
  - destruct a; reflexivity.
  - unfold store_all in *. simpl. rewrite IH. destruct a; reflexivity.
Qed.

Lemma store_all_bulk xs v a : _bulk_update (store_all xs v a) = _bulk_update a.
Proof. rewrite store_all_shape. reflexivity. Qed.

(** While [_bulk_update] is set, the trace of a subfolder variable returns
    at once. *)
Lemma sub_set_nested_bulk sect x v a :
  _bulk_update a = true -> sub_set_nested sect x v a = store x v a.
Proof.
  intros H. unfold sub_set_nested, update_select_all.
  change (_bulk_update (store x v a)) with (_bulk_update a). now rewrite H.
Qed.

Lemma fold_set_sub (set_sub : Var -> Z -> App -> App) v :
  (forall x a, _bulk_update a = true -> set_sub x v a = store x v a) ->
  forall (l : list (string * Var)) a, _bulk_update a = true ->
  fold_left (fun a sv => set_sub (snd sv) v a) l a = store_all (map snd l) v a.
Proof.
  intros H l. induction l as [|sv l IH]; intros a Ha; [reflexivity|].
  simpl. rewrite H by assumption. unfold store_all. simpl.
  apply IH. exact Ha.
Qed.

Lemma toggle_all_children_eq (set_sub : Var -> Z -> App -> App) v sect a :
  (forall x a, _bulk_update a = true -> set_sub x v a = store x v a) ->
  toggle_all_children set_sub v sect a
  = with_bulk_update false
      (store_all (map snd (sub_vars sect)) v (with_bulk_update true a)).
Proof.
  intros H. unfold toggle_all_children. f_equal.
  apply fold_set_sub; [exact H | reflexivity].
Qed.

(** What a write to a select-all variable comes to, whoever makes it: the
    value goes to the variable and to every subfolder variable of the
    section. *)
Lemma select_all_set_eq running sect v a :
  select_all_set running sect v a
  = with_bulk_update false
      (store_all (map snd (sub_vars sect)) v
         (with_bulk_update true (store (SelectAllVar sect) v a))).
Proof.
  unfold select_all_set.
  replace (vars (store (SelectAllVar sect) v a) (SelectAllVar sect)) with v
    by (symmetry; apply upd_same).
  apply toggle_all_children_eq. intros x b Hb.
  destruct running as [y|].
  - destruct (Var_eq_dec x y); [reflexivity | now apply sub_set_nested_bulk].
  - now apply sub_set_nested_bulk.
Qed.

Lemma select_all_set_vars running sect v a y :
  vars (select_all_set running sect v a) y
  = if in_dec Var_eq_dec y (map snd (sub_vars sect)) then v
    else if Var_eq_dec y (SelectAllVar sect) then v else vars a y.
Proof.
  rewrite select_all_set_eq. cbn [vars with_bulk_update].
  rewrite store_all_vars. reflexivity.
Qed.

Lemma select_all_set_bulk running sect v a :
  _bulk_update (select_all_set running sect v a) = false.
Proof. rewrite select_all_set_eq. reflexivity. Qed.

Lemma sub_vars_are_sub sect y :
  In y (map snd (sub_vars sect)) -> exists i, y = SubVar sect i.
Proof.
  unfold sub_vars. rewrite map_map. cbn [snd].
  intros H. apply in_map_iff in H. destruct H as [[i n] [<- _]]. now exists i.
Qed.

Lemma same_texts_refl a : same_texts a a.
Proof. repeat split. Qed.

Lemma same_texts_trans a b c : same_texts a b -> same_texts b c -> same_texts a c.
Proof. unfold same_texts. intuition congruence. Qed.

Lemma with_widget_state_twice f g a :
  with_widget_state f (with_widget_state g a) = with_widget_state f a.
Proof. reflexivity. Qed.

Lemma fold_widget_state_shape enabled (l : list (string * Var)) a b :
  b = with_widget_state (widget_state b) a ->
  let b' := fold_left
              (fun a sv => with_widget_state (upd (widget_state a) (snd sv) enabled) a)
              l b in
  b' = with_widget_state (widget_state b') a.
Proof.
  revert b. induction l as [|sv l IH]; intros b Hb; simpl; [exact Hb|].
  apply IH. remember (upd (widget_state b) (snd sv) enabled) as f.
  rewrite Hb. apply with_widget_state_twice.
Qed.

Lemma set_children_enabled_shape enabled sect a :
  set_children_enabled enabled sect a
  = with_widget_state (widget_state (set_children_enabled enabled sect a)) a.
Proof.
  unfold set_children_enabled. apply fold_widget_state_shape. reflexivity.
Qed.

Lemma section_set_vars sect v a y :
  vars (section_set sect v a) y = upd (vars a) (SectionVar sect) v y.
Proof. unfold section_set. rewrite set_children_enabled_shape. reflexivity. Qed.

Lemma section_set_texts sect v a : same_texts a (section_set sect v a).
Proof.
  unfold section_set. rewrite set_children_enabled_shape. repeat split.
Qed.

Lemma select_all_set_texts running sect v a :
  same_texts a (select_all_set running sect v a).
Proof. rewrite select_all_set_eq, store_all_shape. repeat split. Qed.

Lemma sub_set_texts sect i v a : same_texts a (sub_set sect i v a).
Proof.
  unfold sub_set, update_select_all.
  change (_bulk_update (store (SubVar sect i) v a)) with (_bulk_update a).
  destruct (_bulk_update a); [repeat split|].
  match goal with |- context [if ?c then _ else _] => destruct c end;
    [|repeat split].
  rewrite select_all_set_eq, store_all_shape. repeat split.
Qed.

Lemma IntVar_set_texts x v a : same_texts a (IntVar_set x v a).
Proof.
  destruct x; unfold IntVar_set;
    [apply section_set_texts | apply select_all_set_texts | apply sub_set_texts].
Qed.

(** A write to a select-all or subfolder variable leaves the section
    variables alone. *)
Lemma select_all_set_section running sect v a t :
  vars (select_all_set running sect v a) (SectionVar t) = vars a (SectionVar t).
Proof.
  rewrite select_all_set_vars.
  destruct (in_dec Var_eq_dec (SectionVar t) (map snd (sub_vars sect))) as [Hin|_].
  - apply sub_vars_are_sub in Hin. destruct Hin as [i Hi]. discriminate.
  - destruct (Var_eq_dec (SectionVar t) (SelectAllVar sect)); [discriminate | reflexivity].
Qed.

Lemma sub_set_section sect i v a t :
  vars (sub_set sect i v a) (SectionVar t) = vars a (SectionVar t).
Proof.
  unfold sub_set, update_select_all.
  change (_bulk_update (store (SubVar sect i) v a)) with (_bulk_update a).
  assert (Hs : vars (store (SubVar sect i) v a) (SectionVar t) = vars a (SectionVar t))
    by (apply upd_other; discriminate).
  destruct (_bulk_update a); [exact Hs|].
  match goal with |- context [if ?c then _ else _] => destruct c end; [|exact Hs].
  cbn [vars with_bulk_update]. rewrite select_all_set_section. exact Hs.
Qed.

Lemma IntVar_set_section x v a t :
  is_section_var x = false ->
  vars (IntVar_set x v a) (SectionVar t) = vars a (SectionVar t).
Proof.
  destruct x; intros H; try discriminate; unfold IntVar_set;
    [apply select_all_set_section | apply sub_set_section].
Qed.

(** Folding a step that keeps a property of the form. *)
Lemma fold_left_keeps {X} (P : App -> Prop) (step : App -> X -> App) l :
  (forall a x, In x l -> P a -> P (step a x)) ->
  forall a, P a -> P (fold_left step l a).
Proof.
  induction l as [|x0 l IH]; simpl; intros H a Ha; [exact Ha|].
  apply IH; [intros; apply H; auto | apply H; auto].
Qed.

(** Folding a step that writes 0 to its own targets and keeps every 0. *)
Lemma fold_left_zero {X} (step : App -> X -> App) (target : X -> Var -> Prop) l :
  (forall a x y, In x l -> target x y -> vars (step a x) y = 0) ->
  (forall a x y, In x l -> vars a y = 0 -> vars (step a x) y = 0) ->
  forall a x y, In x l -> target x y -> vars (fold_left step l a) y = 0.
Proof.
  induction l as [|x0 l IH]; intros Hset Hkeep a x y Hin Ht; [destruct Hin|].
  simpl. destruct Hin as [->|Hin].
  - apply (fold_left_keeps (fun a => vars a y = 0)).
    + intros; apply Hkeep; simpl; auto.
    + apply Hset; simpl; auto.
  - apply IH with (x := x); auto; intros; [apply Hset | apply Hkeep]; simpl; auto.
Qed.

Lemma in_section_vars sv :
  In sv section_vars -> snd sv = SectionVar (fst sv).
Proof.
  unfold section_vars. intros H. apply in_map_iff in H.
  destruct H as [sc [<- _]]. reflexivity.
Qed.

Lemma in_select_all_vars sv :
  In sv select_all_vars -> snd sv = SelectAllVar (fst sv).
Proof.
  unfold select_all_vars. intros H. apply in_map_iff in H.
  destruct H as [sc [<- _]]. reflexivity.
Qed.

Lemma in_sub_vars sect subv :
  In subv (sub_vars sect) -> is_section_var (snd subv) = false.
Proof.
  intros H. destruct (sub_vars_are_sub sect (snd subv)) as [i ->]; [|reflexivity].
  now apply in_map.
Qed.

Lemma in_sub_vars_items item :
  In item sub_vars_items -> snd item = sub_vars (fst item).
Proof.
  unfold sub_vars_items. intros H. apply in_map_iff in H.
  destruct H as [sc [<- _]]. reflexivity.
Qed.

Lemma reset_form_phases a :
  reset_form a
  = reset_select_all (reset_subs (reset_sections
      (with_focus EntryName (with_entry_meta [] (with_entry_name [] a))))).
Proof.
  unfold reset_form, reset_select_all, reset_subs, reset_sections.
  cbv zeta. reflexivity.
Qed.

Lemma reset_sections_texts a : same_texts a (reset_sections a).
Proof.
  apply (fold_left_keeps (same_texts a)); [|apply same_texts_refl].
  intros b x _ Hb. eapply same_texts_trans; [exact Hb | apply IntVar_set_texts].
Qed.

Lemma reset_subs_texts a : same_texts a (reset_subs a).
Proof.
  apply (fold_left_keeps (same_texts a)); [|apply same_texts_refl].
  intros b x _ Hb. apply (fold_left_keeps (same_texts a)); [|exact Hb].
  intros c y _ Hc. eapply same_texts_trans; [exact Hc | apply IntVar_set_texts].
Qed.

Lemma reset_select_all_texts a : same_texts a (reset_select_all a).
Proof.
  apply (fold_left_keeps (same_texts a)); [|apply same_texts_refl].
  intros b x _ Hb. eapply same_texts_trans; [exact Hb | apply IntVar_set_texts].
Qed.

Lemma reset_sections_zero a sv :
  In sv section_vars -> vars (reset_sections a) (snd sv) = 0.
Proof.
  intros Hin. unfold reset_sections.
  apply fold_left_zero with (target := fun x y => y = snd x) (x := sv); auto.
  - intros b x y Hx ->. rewrite (in_section_vars _ Hx). unfold IntVar_set.
    rewrite section_set_vars. apply upd_same.
  - intros b x y Hx Hy. rewrite (in_section_vars _ Hx). unfold IntVar_set.
    rewrite section_set_vars. unfold upd. destruct (Var_eq_dec _ _); auto.
Qed.

Lemma reset_subs_section a t :
  vars (reset_subs a) (SectionVar t) = vars a (SectionVar t).
Proof.
  apply (fold_left_keeps (fun b => vars b (SectionVar t) = vars a (SectionVar t)));
    [|reflexivity].
  intros b x Hx Hb.
  apply (fold_left_keeps (fun b => vars b (SectionVar t) = vars a (SectionVar t)));
    [|exact Hb].
  intros c y Hy Hc. rewrite (in_sub_vars_items _ Hx) in Hy.
  rewrite IntVar_set_section; [exact Hc | eapply in_sub_vars; eauto].
Qed.

Lemma reset_select_all_section a t :
  vars (reset_select_all a) (SectionVar t) = vars a (SectionVar t).
Proof.
  apply (fold_left_keeps (fun b => vars b (SectionVar t) = vars a (SectionVar t)));
    [|reflexivity].
  intros b x Hx Hb. rewrite IntVar_set_section; [exact Hb|].
  rewrite (in_select_all_vars _ Hx). reflexivity.
Qed.

Lemma reset_select_all_zero a sv y :
  In sv select_all_vars ->
  y = snd sv \/ In y (map snd (sub_vars (fst sv))) ->
  vars (reset_select_all a) y = 0.
Proof.
  intros Hin Hy. unfold reset_select_all.
  apply fold_left_zero
    with (target := fun x y => y = snd x \/ In y (map snd (sub_vars (fst x))))
         (x := sv); auto.
  - intros b x z Hx Hz. rewrite (in_select_all_vars _ Hx) in *. unfold IntVar_set.
    rewrite select_all_set_vars.
    destruct (in_dec Var_eq_dec z (map snd (sub_vars (fst x)))); [reflexivity|].
    destruct (Var_eq_dec z (SelectAllVar (fst x))); [reflexivity|]. tauto.
  - intros b x z Hx Hz. rewrite (in_select_all_vars _ Hx). unfold IntVar_set.
    rewrite select_all_set_vars.
    destruct (in_dec Var_eq_dec z _); [reflexivity|].
    destruct (Var_eq_dec z _); [reflexivity | exact Hz].
Qed.

(** C9.  [reset_form] empties the two entries of the identity (code and
    acronym, year and person), leaves the text of the drive entry as it
    was, and leaves at 0 every section variable, every subfolder variable
    and every select-all variable. *)
Theorem reset_form_clears_all_but_drive (a : App) :
  let a' := reset_form a in
  entry_name a' = [] /\ entry_meta a' = [] /\ entry_drive a' = entry_drive a
  /\ Forall (fun sv => vars a' (snd sv) = 0) section_vars
  /\ Forall (fun item => Forall (fun subv => vars a' (snd subv) = 0) (snd item))
            sub_vars_items
  /\ Forall (fun sv => vars a' (snd sv) = 0) select_all_vars.
Proof.
  intros a'. subst a'. rewrite reset_form_phases.
  set (a1 := with_focus EntryName (with_entry_meta [] (with_entry_name [] a))).
  assert (Ht : same_texts a1 (reset_select_all (reset_subs (reset_sections a1)))).
  { eapply same_texts_trans; [apply reset_sections_texts|].
    eapply same_texts_trans; [apply reset_subs_texts | apply reset_select_all_texts]. }
  destruct Ht as (Hn & Hm & Hd).
  split; [exact Hn|]. split; [exact Hm|]. split; [exact Hd|].
  split; [|split]; apply Forall_forall.
  - intros sv Hin. rewrite (in_section_vars _ Hin).
    rewrite reset_select_all_section, reset_subs_section.
    rewrite <- (in_section_vars _ Hin). now apply reset_sections_zero.
  - intros item Hin. apply Forall_forall. intros subv Hsub.
    rewrite (in_sub_vars_items _ Hin) in Hsub.
    apply reset_select_all_zero
      with (sv := (fst item, SelectAllVar (fst item))).
    + unfold select_all_vars, sub_vars_items in *. apply in_map_iff in Hin.
      destruct Hin as [sc [<- Hsc]]. apply in_map_iff.
      exists sc. split; [reflexivity | exact Hsc].
    + right. cbn [fst]. now apply in_map.
  - intros sv Hin. eapply reset_select_all_zero; eauto.
Qed.

(** *** The select-all box and the boxes under it *)

Lemma select_all_not_sub sect :
  ~ In (SelectAllVar sect) (map snd (sub_vars sect)).
Proof. intros H. apply sub_vars_are_sub in H. destruct H; discriminate. Qed.

(** Ticking or clearing the select-all box of a section writes the same
    value to every subfolder variable of the section. *)
Lemma select_all_sets_children sect v a :
  let a' := IntVar_set (SelectAllVar sect) v a in
  vars a' (SelectAllVar sect) = v
  /\ Forall (fun sv => vars a' (snd sv) = v) (sub_vars sect).
Proof.
  cbv zeta. unfold IntVar_set. split.
  - rewrite select_all_set_vars.
    destruct (in_dec Var_eq_dec _ _); [reflexivity|].
    destruct (Var_eq_dec _ _); congruence.
  - apply Forall_forall. intros sv Hin. rewrite select_all_set_vars.
    destruct (in_dec Var_eq_dec _ _) as [|Hn]; [reflexivity|].
    exfalso. apply Hn. now apply in_map.
Qed.

Lemma forallb_const (l : list (string * Var)) (f : Var -> Z) (v : Z) :
  l <> [] -> (forall sv, In sv l -> f (snd sv) = v) ->
  forallb (fun sv => f (snd sv) =? 1) l = (v =? 1).
Proof.
  intros Hne H. destruct l as [|sv l]; [congruence|]. clear Hne.
  assert (Hall : forall l' : list (string * Var),
                 (forall sv', In sv' l' -> f (snd sv') = v) ->
                 forallb (fun sv => f (snd sv) =? 1) l' = true \/ (v =? 1) = false).
  { induction l' as [|x l' IH]; intros Hl; simpl; [now left|].
    rewrite (Hl x) by (simpl; auto). destruct (v =? 1); [|now right].
    simpl. apply IH. intros; apply Hl; simpl; auto. }
  simpl. rewrite (H sv) by (simpl; auto).
  destruct (Hall l) as [-> | Hv].
  - intros; apply H; simpl; auto.
  - apply andb_true_r.
  - rewrite Hv. reflexivity.
Qed.

(** After a write to a subfolder variable the select-all variable of the
    section says whether every subfolder variable of the section is 1. *)
Lemma sub_set_select_all_consistent sect i v a :
  _bulk_update a = false ->
  let a' := IntVar_set (SubVar sect i) v a in
  vars a' (SelectAllVar sect) = Z.b2z (all_on sect a').
Proof.
  intros Hb. cbv zeta. unfold IntVar_set, sub_set, update_select_all.
  change (_bulk_update (store (SubVar sect i) v a)) with (_bulk_update a).
  rewrite Hb. set (a1 := store (SubVar sect i) v a).
  fold (all_on sect a1).
  destruct (vars a1 (SelectAllVar sect) =? Z.b2z (all_on sect a1)) eqn:E; cbn [negb].
  - now apply Z.eqb_eq in E.
  - cbn [vars with_bulk_update]. rewrite select_all_set_vars.
    destruct (in_dec Var_eq_dec _ _) as [Hin|_]; [now apply select_all_not_sub in Hin|].
    destruct (Var_eq_dec _ _); [|congruence].
    f_equal. unfold all_on at 2.
    destruct (sub_vars sect) as [|sv l] eqn:El.
    + unfold all_on. rewrite El. reflexivity.
    + rewrite <- El. rewrite forallb_const with (v := Z.b2z (all_on sect a1)).
      * destruct (all_on sect a1); reflexivity.
      * rewrite El; discriminate.
      * intros sv' Hin. cbn [vars with_bulk_update]. rewrite select_all_set_vars.
        destruct (in_dec Var_eq_dec _ _) as [|Hn]; [reflexivity|].
        exfalso. apply Hn. now apply in_map.
Qed.

(** Where a write to a subfolder variable leaves the rest of the form
    alone: when it ends with every subfolder variable of the section at 1,
    or finds the select-all variable at 0. *)
Lemma sub_set_keeps_the_others sect i v a y :
  _bulk_update a = false ->
  all_on sect (store (SubVar sect i) v a) = true \/ vars a (SelectAllVar sect) = 0 ->
  y <> SubVar sect i -> y <> SelectAllVar sect ->
  vars (IntVar_set (SubVar sect i) v a) y = vars a y.
Proof.
  intros Hb Hcase Hy Hsa. unfold IntVar_set, sub_set, update_select_all.
  change (_bulk_update (store (SubVar sect i) v a)) with (_bulk_update a).
  rewrite Hb. set (a1 := store (SubVar sect i) v a) in *.
  fold (all_on sect a1).
  assert (Hy1 : vars a1 y = vars a y) by (now apply upd_other).
  assert (Hsa1 : vars a1 (SelectAllVar sect) = vars a (SelectAllVar sect))
    by (apply upd_other; discriminate).
  destruct (vars a1 (SelectAllVar sect) =? Z.b2z (all_on sect a1)) eqn:E;
    cbn [negb]; [exact Hy1|].
  assert (Hon : all_on sect a1 = true).
  { destruct Hcase as [H|H]; [exact H|].
    destruct (all_on sect a1); [reflexivity|].
    rewrite Hsa1, H in E. discriminate. }
  cbn [vars with_bulk_update]. rewrite select_all_set_vars, Hon.
  destruct (in_dec Var_eq_dec y (map snd (sub_vars sect))) as [Hin|_].
  - apply in_map_iff in Hin. destruct Hin as (sv & <- & Hsv).
    unfold all_on in Hon. rewrite forallb_forall in Hon.
    specialize (Hon sv Hsv). apply Z.eqb_eq in Hon. cbn [Z.b2z]. congruence.
  - destruct (Var_eq_dec y (SelectAllVar sect)); [contradiction | exact Hy1].
Qed.

(** What goes wrong: with the select-all variable at 1, a write of another
    value to one subfolder variable of the section ends with every subfolder
    variable of the section at 0, the ones that were not touched as well. *)
Lemma sub_set_clears_section sect sub i v a :
  _bulk_update a = false ->
  In (sub, SubVar sect i) (sub_vars sect) ->
  vars a (SelectAllVar sect) = 1 -> v <> 1 ->
  Forall (fun sv => vars (IntVar_set (SubVar sect i) v a) (snd sv) = 0)
         (sub_vars sect).
Proof.
  intros Hb Hin Hsa Hv. unfold IntVar_set, sub_set, update_select_all.
  change (_bulk_update (store (SubVar sect i) v a)) with (_bulk_update a).
  rewrite Hb. set (a1 := store (SubVar sect i) v a).
  assert (Hoff : forallb (fun sv => vars a1 (snd sv) =? 1) (sub_vars sect) = false).
  { apply not_true_is_false. intros Hall.
    rewrite forallb_forall in Hall. specialize (Hall _ Hin). cbn [snd] in Hall.
    apply Z.eqb_eq in Hall. unfold a1 in Hall. cbn [vars store with_vars] in Hall.
    rewrite upd_same in Hall. contradiction. }
  rewrite Hoff.
  assert (Hsa1 : vars a1 (SelectAllVar sect) = 1).
  { unfold a1. cbn [vars store with_vars]. rewrite upd_other; [exact Hsa | discriminate]. }
  rewrite Hsa1. cbn [Z.b2z Z.eqb Pos.eqb negb].
  apply Forall_forall. intros sv Hsv. cbn [vars with_bulk_update].
  rewrite select_all_set_vars.
  destruct (in_dec Var_eq_dec _ _) as [|Hn]; [reflexivity|].
  exfalso. apply Hn. now apply in_map.
Qed.


End FormFacts.

(** ** Trimming *)

Module StripFacts.
Import Text.
Local Open Scope N_scope.

Lemma str_eqb_eq a b : str_eqb a b = true <-> a = b.
Proof. unfold str_eqb. destruct (list_eq_dec N.eq_dec a b); split; congruence. Qed.

Lemma lstrip_head s c r : lstrip s = c :: r -> isspace c = false.
Proof.
  induction s as [|x s IH]; simpl; [discriminate|].
  destruct (isspace x) eqn:E; [exact IH|].
  intros H. injection H as -> _. exact E.
Qed.

Lemma lstrip_suffix s : exists p, s = p ++ lstrip s.
Proof.
  induction s as [|x s [p Hp]]; simpl; [now exists []|].
  destruct (isspace x).
  - exists (x :: p). simpl. now f_equal.
  - now exists [].
Qed.

Lemma lstrip_fixed c r : isspace c = false -> lstrip (c :: r) = c :: r.
Proof. intros H. simpl. now rewrite H. Qed.

(** The last character of a trimmed text is no white space. *)
Lemma strip_last s l c : strip s = l ++ [c] -> isspace c = false.
Proof.
  unfold strip, rstrip. intros H.
  apply (f_equal (@rev N)) in H. rewrite rev_involutive, rev_app_distr in H.
  simpl in H. eapply lstrip_head; eauto.
Qed.

(** Nor is the first. *)
Lemma strip_head s c r : strip s = c :: r -> isspace c = false.
Proof.
  unfold strip, rstrip. intros H.
  destruct (lstrip_suffix (rev (lstrip s))) as [p Hp].
  apply (f_equal (@rev N)) in Hp. rewrite rev_involutive, rev_app_distr, H in Hp.
  simpl in Hp. eapply lstrip_head; eauto.
Qed.

(** A text that neither starts nor ends with white space is its own
    trimming. *)
Lemma strip_fixed s :
  (forall c r, s = c :: r -> isspace c = false) ->
  (forall l c, s = l ++ [c] -> isspace c = false) ->
  strip s = s.
Proof.
  intros Hh Hl. unfold strip, rstrip.
  assert (E1 : lstrip s = s).
  { destruct s as [|c r]; [reflexivity|]. apply lstrip_fixed. eapply Hh; eauto. }
  rewrite E1.
  assert (E2 : lstrip (rev s) = rev s).
  { destruct (rev s) as [|c r] eqn:E; [reflexivity|]. apply lstrip_fixed.
    apply (Hl (rev r) c). rewrite <- (rev_involutive s), E. reflexivity. }
  rewrite E2. apply rev_involutive.
Qed.

Lemma strip_strip s : strip (strip s) = strip s.
Proof.
  apply strip_fixed; intros; [eapply strip_head | eapply strip_last]; eauto.
Qed.

End StripFacts.

(** ** Validation *)

Module ValidationFacts.
Import Text Pattern Paths Taxonomy Disk Form Run Controller Spec Scenario.
Import StripFacts.
Local Open Scope N_scope.

Lemma span_all p s : forallb p s = true -> span p s = (s, []).
Proof.
  induction s as [|c s IH]; simpl; [reflexivity|].
  intros H. apply andb_true_iff in H. destruct H as [Hc Hs].
  rewrite Hc, (IH Hs). reflexivity.
Qed.

Lemma span_app p s : s = fst (span p s) ++ snd (span p s).
Proof.
  induction s as [|c s IH]; simpl; [reflexivity|].
  destruct (p c); [|reflexivity].
  destruct (span p s) as [a b]. simpl in *. now f_equal.
Qed.

Lemma span_rest p s : snd (span p s) = [] -> forallb p s = true.
Proof.
  induction s as [|c s IH]; simpl; [reflexivity|].
  destruct (p c) eqn:E; [|discriminate].
  destruct (span p s) as [a b]. simpl in *. auto.
Qed.

Lemma at_dollar_cases rest : at_dollar rest = true -> rest = [] \/ rest = [10].
Proof.
  unfold at_dollar. intros H. apply orb_true_iff in H.
  destruct H as [H|H]; apply str_eqb_eq in H; auto.
Qed.

(** On a text that does not end with white space the pattern of the name
    accepts what the grammar of the specification accepts, with the same
    groups. *)
Lemma match_name_code_acronym s :
  (forall l c, s = l ++ [c] -> isspace c = false) ->
  match_name s
  = match code_acronym s with
    | Some (c, acr) => Some ([c], acr)
    | None => None
    end.
Proof.
  intros Hlast. destruct s as [|c [|h [|f r]]]; try reflexivity.
  unfold match_name, code_acronym.
  destruct (ascii_letter c && (h =? 45) && ascii_alnum f); [|reflexivity].
  cbn [andb].
  destruct (forallb acronym_char r) eqn:Eall.
  - rewrite (span_all _ _ Eall). reflexivity.
  - pose proof (span_app acronym_char r) as Happ.
    pose proof (span_rest acronym_char r) as Hrest.
    destruct (span acronym_char r) as [body rest]. cbn [fst snd] in *.
    destruct (at_dollar rest) eqn:Ed; [|reflexivity].
    apply at_dollar_cases in Ed. destruct Ed as [-> | ->].
    + rewrite Hrest in Eall by reflexivity. discriminate.
    + specialize (Hlast (c :: h :: f :: body) 10).
      rewrite Happ in Hlast. specialize (Hlast eq_refl). discriminate.
Qed.

Lemma match_meta_year_person s : match_meta s = year_person s.
Proof.
  destruct s as [|d1 [|d2 [|d3 [|d4 [|h [|l r]]]]]]; try reflexivity.
  - unfold year_person. cbn. rewrite !andb_false_r. reflexivity.
  - unfold match_meta, year_person. cbn [firstn skipn List.length Nat.eqb forallb].
    rewrite !andb_true_r, !andb_assoc. reflexivity.
Qed.

Lemma last_two_slice y : List.length y = 4%nat -> last_two y = slice_2_4 y.
Proof.
  destruct y as [|a [|b [|c [|d [|e y]]]]]; try discriminate. reflexivity.
Qed.

Lemma match_meta_year s y p : match_meta s = Some (y, p) -> List.length y = 4%nat.
Proof.
  destruct s as [|d1 [|d2 [|d3 [|d4 [|h [|l r]]]]]]; try discriminate.
  unfold match_meta. destruct (_ && _); [|discriminate].
  intros H. injection H as <- _. reflexivity.
Qed.

(** The second group of the pattern of the year and person runs to the
    end of the text. *)
Lemma match_meta_shape s y p :
  match_meta s = Some (y, p) ->
  s = y ++ cps "-" ++ p
  /\ exists l r, p = l :: r /\ person_letter l = true.
Proof.
  destruct s as [|d1 [|d2 [|d3 [|d4 [|h [|l r]]]]]]; try discriminate.
  unfold match_meta.
  destruct (_ && _) eqn:E; [|discriminate].
  intros H. injection H as <- <-.
  repeat (apply andb_true_iff in E; destruct E as [E ?]).
  match goal with H : (h =? 45) = true |- _ => apply N.eqb_eq in H; subst h end.
  split; [reflexivity|]. eauto.
Qed.

Lemma person_letter_not_space c : person_letter c = true -> isspace c = false.
Proof.
  unfold person_letter, ascii_letter, isspace, between. intros H.
  repeat (apply orb_true_iff in H; destruct H as [H|H]);
    apply andb_true_iff in H; destruct H as [H1 H2];
    apply N.leb_le in H1; apply N.leb_le in H2;
    repeat (apply orb_false_iff; split);
    try (apply andb_false_iff; (left; apply N.leb_gt; lia) || (right; apply N.leb_gt; lia));
    try (apply N.eqb_neq; lia).
Qed.

(** On a trimmed text the person is already trimmed: [strip] finds nothing
    to take off the second group. *)
Lemma person_already_stripped s y p :
  match_meta (strip s) = Some (y, p) -> strip p = p.
Proof.
  intros H. destruct (match_meta_shape _ _ _ H) as [Hs (l & r & -> & Hl)].
  apply strip_fixed.
  - intros c r' E. injection E as <- _. now apply person_letter_not_space.
  - intros l' c E. apply (strip_last s (y ++ cps "-" ++ l') c).
    rewrite Hs, E, !app_assoc. reflexivity.
Qed.

(** [_validate_inputs] with the monad unfolded: what it returns and the
    world it leaves. *)
Lemma validate_inputs_unfold w :
  _validate_inputs w =
  let a := app w in
  let name := strip (entry_name a) in
  let meta := strip (entry_meta a) in
  let drive := strip (entry_drive a) in
  let missing := missing_fields name meta drive in
  match missing with
  | _ :: _ =>
      let answer := user w (asked w) in
      let w1 := mkWorld a (disk w) (user w) (S (asked w))
                        (out w ++ [Asked (IncompleteForm missing) answer]) in
      (Ret None,
       mkWorld (if answer
                then if mem "Code & Project Acronym" missing then with_focus EntryName a
                     else if mem "Start Year & Person" missing then with_focus EntryMeta a
                     else with_focus EntryDrive a
                else destroy a)
               (disk w) (user w) (S (asked w)) (out w1))
  | [] =>
      match match_name name with
      | None => (Ret None, mkWorld (with_focus EntryName a) (disk w) (user w) (asked w)
                                   (out w ++ [Shown InvalidName]))
      | Some (g1, acronym) =>
          match match_meta meta with
          | None => (Ret None, mkWorld (with_focus EntryMeta a) (disk w) (user w) (asked w)
                                       (out w ++ [Shown InvalidFormat]))
          | Some (year, g2) =>
              if fullmatch_drive drive then
                (Ret (Some (upper g1 ++ last_two year, acronym,
                            joinpath (Path_of (upper drive ++ cps ":/"))
                              (main_folder_name (upper g1 ++ last_two year) acronym year (strip g2)))),
                 w)
              else (Ret None, mkWorld (with_focus EntryDrive a) (disk w) (user w) (asked w)
                                      (out w ++ [Shown InvalidDrive]))
          end
      end
  end.
Proof.
  unfold _validate_inputs, bind, get_app. cbv zeta.
  destruct (missing_fields _ _ _) as [|x l] eqn:E; cbn [negb].
  - destruct (match_name _) as [[g1 acr]|]; [|reflexivity].
    destruct (match_meta _) as [[y g2]|]; [|reflexivity].
    destruct (fullmatch_drive _); [|reflexivity].
    cbn [negb]. unfold ret. destruct w; reflexivity.
  - unfold askyesno. cbn.
    destruct (user w (asked w)); [|reflexivity].
    repeat match goal with |- context [if ?c then _ else _] => destruct c end; reflexivity.
Qed.

Lemma missing_fields_blank n m d :
  missing_fields (strip n) (strip m) (strip d)
  = map field_label
        (filter (fun e => is_blank (text_of n m d e)) [EntryName; EntryMeta; EntryDrive]).
Proof.
  unfold missing_fields, is_blank, is_empty. cbn [filter text_of].
  destruct (strip n), (strip m), (strip d); reflexivity.
Qed.

Lemma upper_one c : upper [c] = [upper_cp c].
Proof. reflexivity. Qed.

Lemma fullmatch_drive_cases drive :
  fullmatch_drive drive = true -> exists d, drive = [d] /\ ascii_letter d = true.
Proof.
  destruct drive as [|d [|]]; try discriminate. intros H. now exists d.
Qed.

(** C5.  [_validate_inputs] applies the rules of [validate] in their
    order, on the trimmed texts, and each failure has its own message: a
    trimmed field that is empty gives the question about the incomplete
    form, which names the empty fields; then the pattern of code and
    acronym, the pattern of year and person and the one-letter drive are
    tried, each with its own error box; and only when all four pass does it
    return the project code, which is the code followed by [year[2:4]], and
    the main folder under the root [upper(drive) + ":/"], showing
    nothing. *)
Theorem validate_inputs_follows_the_rules (w : World) :
  let a := app w in
  let run := _validate_inputs w in
  match validate (entry_name a) (entry_meta a) (entry_drive a) with
  | inr (MissingFieldError fields) =>
      fst run = Ret None
      /\ out (snd run)
         = out w ++ [Asked (IncompleteForm (map field_label fields)) (user w (asked w))]
  | inr InvalidCodeAcronymError =>
      fst run = Ret None /\ out (snd run) = out w ++ [Shown InvalidName]
  | inr InvalidYearPersonError =>
      fst run = Ret None /\ out (snd run) = out w ++ [Shown InvalidFormat]
  | inr InvalidDriveError =>
      fst run = Ret None /\ out (snd run) = out w ++ [Shown InvalidDrive]
  | inl v =>
      fst run
      = Ret (Some (projectCode v, acronym v,
                   joinpath (drivePathRoot v)
                     (main_folder_name (projectCode v) (acronym v) (year v) (person v))))
      /\ snd run = w
      /\ projectCode v = code v ++ slice_2_4 (year v)
      /\ drivePathRoot v = Path_of (upper (strip (entry_drive a)) ++ cps ":/")
  end.
Proof.
  cbv zeta. rewrite validate_inputs_unfold. cbv zeta. unfold validate.
  rewrite missing_fields_blank.
  destruct (filter _ _) as [|e l]; cbn [map].
  - rewrite match_name_code_acronym by (intros; eapply strip_last; eauto).
    destruct (code_acronym (strip (entry_name (app w)))) as [[c acr]|];
      [|split; reflexivity].
    destruct (match_meta (strip (entry_meta (app w)))) as [[y g2]|] eqn:Em;
      rewrite <- match_meta_year_person, Em; [|split; reflexivity].
    destruct (strip (entry_drive (app w))) as [|d [|d' r]] eqn:Ed;
      cbn [fullmatch_drive]; try (split; reflexivity).
    destruct (ascii_letter d); [|split; reflexivity].
    cbn [projectCode Spec.acronym drivePathRoot year person code fst snd].
    rewrite (person_already_stripped _ _ _ Em), (last_two_slice _ (match_meta_year _ _ _ Em)).
    repeat split.
  - split; reflexivity.
Qed.

(** One form for each outcome of [validate]. *)
Example validate_outcomes :
  validate (cps "A-CABCAR") (cps " ") (cps "")
  = inr (MissingFieldError [EntryMeta; EntryDrive])
  /\ validate (cps "12-Foo") (cps "2026-Peter") (cps "D") = inr InvalidCodeAcronymError
  /\ validate (cps "A-CABCAR") (cps "26-Peter") (cps "D") = inr InvalidYearPersonError
  /\ validate (cps "A-CABCAR") (cps "2026-Peter") (cps "D:") = inr InvalidDriveError
  /\ validate (cps "a-CABCAR") (cps "2026-Peter") (cps " d ")
     = inl (mkIdentity (cps "A") (cps "CABCAR") (cps "2026") (cps "Peter")
                       (Path_of (cps "D:/")) (cps "A26")).
Proof. vm_compute. repeat split. Qed.

(** What an accepted form is made of. *)
Lemma validate_inputs_accepts w project_code acronym main :
  fst (_validate_inputs w) = Ret (Some (project_code, acronym, main)) ->
  exists c year g2 d,
    match_name (strip (entry_name (app w))) = Some ([c], acronym)
    /\ match_meta (strip (entry_meta (app w))) = Some (year, g2)
    /\ strip (entry_drive (app w)) = [d] /\ ascii_letter d = true
    /\ project_code = upper_cp c :: last_two year
    /\ main = joinpath (Path_of (upper_cp d :: cps ":/"))
                       (main_folder_name project_code acronym year (strip g2)).
Proof.
  rewrite validate_inputs_unfold. cbv zeta.
  destruct (missing_fields _ _ _); [|discriminate].
  destruct (match_name _) as [[g1 acr]|] eqn:En; [|discriminate].
  destruct (match_meta _) as [[y g2]|] eqn:Em; [|discriminate].
  destruct (fullmatch_drive _) eqn:Ed; [|discriminate].
  cbn [fst]. intros H. injection H as <- <- <-.
  apply fullmatch_drive_cases in Ed. destruct Ed as (d & Ed & Hd).
  assert (Hg1 : exists c, g1 = [c]).
  { destruct (strip (entry_name (app w))) as [|c [|h [|f r]]]; try discriminate.
    unfold match_name in En. destruct (_ && _); [|discriminate].
    destruct (span _ _). destruct (at_dollar _); [|discriminate].
    injection En as <- _. now exists c. }
  destruct Hg1 as [c ->].
  exists c, y, g2, d. rewrite Ed. repeat split; assumption.
Qed.

Lemma match_name_shape s c acr :
  match_name s = Some ([c], acr) ->
  ascii_letter c = true
  /\ exists tail, s = c :: cps "-" ++ acr ++ tail /\ at_dollar tail = true.
Proof.
  destruct s as [|c0 [|h [|f r]]]; try discriminate.
  unfold match_name. destruct (_ && _) eqn:E; [|discriminate].
  pose proof (span_app acronym_char r) as Happ.
  destruct (span acronym_char r) as [body rest]. cbn [fst snd] in Happ.
  destruct (at_dollar rest) eqn:Ed; [|discriminate].
  intros H. injection H as <- <-.
  apply andb_true_iff in E. destruct E as [E _].
  apply andb_true_iff in E. destruct E as [Ec Eh].
  apply N.eqb_eq in Eh. subst h. split; [exact Ec|].
  exists rest. split; [|exact Ed]. cbn. now rewrite Happ.
Qed.

Lemma match_name_shape_stripped t c acr :
  match_name (strip t) = Some ([c], acr) ->
  ascii_letter c = true /\ strip t = c :: cps "-" ++ acr.
Proof.
  intros H. destruct (match_name_shape _ _ _ H) as [Hc (tail & Hs & Hd)].
  split; [exact Hc|].
  apply at_dollar_cases in Hd. destruct Hd as [-> | ->].
  - rewrite Hs, app_nil_r. reflexivity.
  - assert (isspace 10 = false); [|discriminate].
    apply (strip_last t (c :: cps "-" ++ acr) 10). rewrite Hs. cbn.
    now rewrite <- ?app_assoc.
Qed.

Lemma upper_cp_upper c : ascii_letter c = true -> between 65 90 (upper_cp c) = true.
Proof.
  unfold ascii_letter, upper_cp, between. intros H.
  destruct ((97 <=? c) && (c <=? 122)) eqn:E.
  - apply andb_true_iff in E. destruct E as [E1 E2].
    apply N.leb_le in E1. apply N.leb_le in E2.
    apply andb_true_iff. split; apply N.leb_le; lia.
  - rewrite orb_false_r in H. exact H.
Qed.

(** C2.  When [_validate_inputs] accepts the form, the trimmed texts are a
    letter, a hyphen and the acronym; a year of four characters, a hyphen
    and the person; and one letter for the drive.  The project code is the
    letter in upper case followed by the last two characters of the year,
    the main folder is the one component
    [{project_code}-{acronym}-{year}-{person}], and its path starts at the
    drive letter in upper case followed by [:/]. *)
Theorem main_folder_name_format w project_code acronym main :
  fst (_validate_inputs w) = Ret (Some (project_code, acronym, main)) ->
  exists c year person d,
    strip (entry_name (app w)) = c :: cps "-" ++ acronym
    /\ strip (entry_meta (app w)) = year ++ cps "-" ++ person
    /\ strip (entry_drive (app w)) = [d]
    /\ ascii_letter c = true /\ ascii_letter d = true
    /\ List.length year = 4%nat
    /\ project_code = upper_cp c :: last_two year
    /\ between 65 90 (upper_cp c) = true
    /\ anchor main = upper_cp d :: cps ":/"
    /\ parts main
       = [project_code ++ cps "-" ++ acronym ++ cps "-" ++ year ++ cps "-" ++ person].
Proof.
  intros H.
  destruct (validate_inputs_accepts _ _ _ _ H)
    as (c & y & g2 & d & Hn & Hm & Hd & Hld & Hpc & Hmain).
  destruct (match_name_shape_stripped _ _ _ Hn) as [Hc Hname].
  destruct (match_meta_shape _ _ _ Hm) as [Hmeta _].
  exists c, y, g2, d.
  rewrite (person_already_stripped _ _ _ Hm) in Hmain. subst main.
  repeat split; try assumption.
  - eapply match_meta_year; eauto.
  - now apply upper_cp_upper.
Qed.

Lemma main_folder_name_format_witness :
  exists c year person d,
    strip (cps "A-CABCAR") = c :: cps "-" ++ cps "CABCAR"
    /\ strip (cps "2026-Peter") = year ++ cps "-" ++ person
    /\ strip (cps "D") = [d]
    /\ ascii_letter c = true /\ ascii_letter d = true
    /\ List.length year = 4%nat
    /\ cps "A26" = upper_cp c :: last_two year
    /\ between 65 90 (upper_cp c) = true
    /\ cps "D:/" = upper_cp d :: cps ":/"
    /\ [cps "A26-CABCAR-2026-Peter"]
       = [cps "A26" ++ cps "-" ++ cps "CABCAR" ++ cps "-" ++ year ++ cps "-" ++ person].
Proof.
  apply (main_folder_name_format
           (start (filled "A-CABCAR" "2026-Peter" "D" []) drive_D yes)
           (cps "A26") (cps "CABCAR")
           (mkPath (cps "D:/") [cps "A26-CABCAR-2026-Peter"])).
  vm_compute. reflexivity.
Defined.

(** The pattern of the year and person takes white space at the end of
    the person: what is matched can end with a space. *)
Example person_pattern_takes_trailing_space :
  match_meta (cps "2026-Peter ") = Some (cps "2026", cps "Peter ").
Proof. vm_compute. reflexivity. Qed.

(** C10.  When [_validate_inputs] accepts the form, the person that goes
    into the name of the main folder is the second group of the match with
    [strip] applied to it, and the name of the main folder ends with a
    character that is no white space. *)
Theorem person_is_stripped w project_code acronym main :
  fst (_validate_inputs w) = Ret (Some (project_code, acronym, main)) ->
  exists year g2,
    match_meta (strip (entry_meta (app w))) = Some (year, g2)
    /\ parts main = [main_folder_name project_code acronym year (strip g2)]
    /\ exists body c,
         main_folder_name project_code acronym year (strip g2) = body ++ [c]
         /\ isspace c = false.
Proof.
  intros H.
  destruct (validate_inputs_accepts _ _ _ _ H)
    as (c & y & g2 & d & Hn & Hm & Hd & Hld & Hpc & Hmain).
  exists y, g2. split; [exact Hm|]. split; [subst main; reflexivity|].
  destruct (match_meta_shape _ _ _ Hm) as [_ (l & r & Hg2 & _)].
  assert (Hne : strip g2 <> []).
  { rewrite (person_already_stripped _ _ _ Hm), Hg2. discriminate. }
  destruct (exists_last Hne) as (body & last & Hlast).
  exists (project_code ++ cps "-" ++ acronym ++ cps "-" ++ y ++ cps "-" ++ body), last.
  split.
  - unfold main_folder_name. rewrite Hlast, <- !app_assoc. reflexivity.
  - eapply strip_last; eauto.
Qed.

Lemma person_is_stripped_witness :
  exists year g2,
    match_meta (strip (cps "  2026-Peter  ")) = Some (year, g2)
    /\ [cps "A26-CABCAR-2026-Peter"]
       = [main_folder_name (cps "A26") (cps "CABCAR") year (strip g2)]
    /\ exists body c,
         main_folder_name (cps "A26") (cps "CABCAR") year (strip g2) = body ++ [c]
         /\ isspace c = false.
Proof.
  apply (person_is_stripped
           (start (filled "A-CABCAR" "  2026-Peter  " "D" []) drive_D yes)
           (cps "A26") (cps "CABCAR")
           (mkPath (cps "D:/") [cps "A26-CABCAR-2026-Peter"])).
  vm_compute. reflexivity.
Defined.

(** C6 as it is worded fails: with a space typed before it, the text of
    the first field is not empty and is not in the grammar, and the form is
    accepted all the same, because the pattern is tried on the trimmed
    text. *)
Lemma untrimmed_code_acronym_is_accepted :
  let w := start (filled " A-CABCAR" "2026-Peter" "D" []) drive_D yes in
  entry_name (app w) <> []
  /\ code_acronym (entry_name (app w)) = None
  /\ fst (_validate_inputs w)
     = Ret (Some (cps "A26", cps "CABCAR",
                  mkPath (cps "D:/") [cps "A26-CABCAR-2026-Peter"]))
  /\ out (snd (_validate_inputs w)) = [].
Proof. vm_compute. repeat split. discriminate. Qed.

(** C6, amended.  When none of the three trimmed texts is empty and the
    trimmed text of the first field is not in the grammar of code and
    acronym, [_validate_inputs] returns [None] and shows the error box about
    the name, and nothing else. *)
Theorem invalid_code_acronym_is_refused w :
  strip (entry_name (app w)) <> [] ->
  strip (entry_meta (app w)) <> [] ->
  strip (entry_drive (app w)) <> [] ->
  code_acronym (strip (entry_name (app w))) = None ->
  fst (_validate_inputs w) = Ret None
  /\ out (snd (_validate_inputs w)) = out w ++ [Shown InvalidName].
Proof.
  intros Hn Hm Hd Hg. rewrite validate_inputs_unfold. cbv zeta.
  unfold missing_fields, is_empty.
  destruct (strip (entry_name (app w))) as [|n0 n] eqn:En; [congruence|].
  destruct (strip (entry_meta (app w))) as [|m0 m]; [congruence|].
  destruct (strip (entry_drive (app w))) as [|d0 d]; [congruence|].
  cbn [app].
  rewrite match_name_code_acronym.
  - rewrite Hg. split; reflexivity.
  - intros l c E. apply (strip_last (entry_name (app w)) l c). congruence.
Qed.

Lemma invalid_code_acronym_is_refused_witness :
  let w := start (filled "12-Foo" "2026-Peter" "D" []) drive_D yes in
  fst (_validate_inputs w) = Ret None
  /\ out (snd (_validate_inputs w)) = out w ++ [Shown InvalidName].
Proof.
  apply (invalid_code_acronym_is_refused
           (start (filled "12-Foo" "2026-Peter" "D" []) drive_D yes));
    vm_compute; congruence.
Defined.

(** The three texts the specification gives as not in the grammar. *)
Example spec_examples_not_in_grammar :
  code_acronym (cps "12-Foo") = None
  /\ code_acronym (cps "A_Foo") = None
  /\ code_acronym (cps "A-") = None.
Proof. vm_compute. repeat split. Qed.

End ValidationFacts.

(** ** The loops of [create_folders] and the plan *)

Module PlanFacts.
Import Text Paths Taxonomy Disk Form Run Controller Plan.
Local Open Scope run_scope.

Lemma create_folder_app p w : app (snd (create_folder p w)) = app w.
Proof.
  unfold create_folder, bind, Path_mkdir.
  destruct (mkdir p (disk w)) as [fs' [e|]]; cbn; [|reflexivity].
  destruct (user w (asked w)); reflexivity.
Qed.

Lemma for_each_cons {X} (x : X) l (body : X -> M unit) w :
  for_each (x :: l) body w
  = match body x w with
    | (Ret _, w') => for_each l body w'
    | (SysExit c, w') => (SysExit c, w')
    end.
Proof. reflexivity. Qed.

Lemma for_each_app {X} (l1 l2 : list X) (body : X -> M unit) w :
  for_each (l1 ++ l2) body w
  = match for_each l1 body w with
    | (Ret _, w') => for_each l2 body w'
    | (SysExit c, w') => (SysExit c, w')
    end.
Proof.
  revert w. induction l1 as [|x l1 IH]; intros w; [reflexivity|].
  cbn [List.app]. rewrite !for_each_cons.
  destruct (body x w) as [[[]|c] w']; [apply IH | reflexivity].
Qed.

Lemma createAll_app_state paths w : app (snd (createAll paths w)) = app w.
Proof.
  revert w. induction paths as [|p l IH]; intros w; [reflexivity|].
  unfold createAll in *. rewrite for_each_cons.
  pose proof (create_folder_app p w) as Hp.
  destruct (create_folder p w) as [[[]|c] w']; cbn [snd] in *.
  - rewrite IH. exact Hp.
  - exact Hp.
Qed.

(** A loop whose body creates the folders of a list is the creation of the
    lists laid end to end. *)
Lemma for_each_flat_map {X} (l : list X) (body : X -> M unit)
    (expand : X -> list Path) (a : App) :
  (forall x w, In x l -> app w = a -> body x w = createAll (expand x) w) ->
  forall w, app w = a -> for_each l body w = createAll (flat_map expand l) w.
Proof.
  induction l as [|x l IH]; intros Hbody w Hw; [reflexivity|].
  cbn [flat_map]. unfold createAll. rewrite for_each_cons, for_each_app.
  rewrite Hbody by (simpl; auto). unfold createAll.
  pose proof (createAll_app_state (expand x) w) as Hx. unfold createAll in Hx.
  destruct (for_each (expand x) create_folder w) as [[[]|c] w']; [|reflexivity].
  cbn [snd] in Hx. apply IH; [|congruence].
  intros; apply Hbody; simpl; auto.
Qed.

Lemma for_each_map {X} (l : list X) (f : X -> Path) w :
  for_each l (fun x => create_folder (f x)) w = createAll (map f l) w.
Proof.
  revert w. induction l as [|x l IH]; intros w; [reflexivity|].
  unfold createAll in *. cbn [map]. rewrite !for_each_cons.
  destruct (create_folder (f x) w) as [[[]|c] w']; [apply IH | reflexivity].
Qed.

Lemma create_sections_loop project_code acronym main_folder w :
  create_sections project_code acronym main_folder w
  = createAll (flat_map (loop_paths project_code acronym main_folder (app w))
                        section_vars) w.
Proof.
  unfold create_sections.
  apply for_each_flat_map with (a := app w); [|reflexivity].
  intros [section svar] w1 _ Hw1. unfold loop_paths, bind at 1, IntVar_get.
  rewrite Hw1. destruct (vars (app w) svar =? 0)%Z; [reflexivity|].
  unfold createAll. rewrite for_each_cons. unfold bind at 1.
  pose proof (create_folder_app
                (joinpath main_folder (folder_name project_code acronym section)) w1) as Hs.
  destruct (create_folder _ w1) as [[[]|c] w2]; [|reflexivity]. cbn [snd] in Hs.
  apply for_each_flat_map with (a := app w); [|congruence].
  intros [sub v] w3 _ Hw3. unfold bind at 1, IntVar_get.
  rewrite Hw3. destruct (vars (app w) v =? 0)%Z; [reflexivity|].
  unfold createAll. rewrite for_each_cons. unfold bind at 1.
  destruct (create_folder _ w3) as [[[]|c] w4]; [|reflexivity].
  apply for_each_map.
Qed.

Lemma flat_map_map {X Y Z} (f : Y -> list Z) (g : X -> Y) l :
  flat_map f (map g l) = flat_map (fun x => f (g x)) l.
Proof. induction l as [|x l IH]; simpl; [reflexivity | now rewrite IH]. Qed.

Lemma flat_map_ext_in {X Y} (f g : X -> list Y) l :
  (forall x, In x l -> f x = g x) -> flat_map f l = flat_map g l.
Proof.
  induction l as [|x l IH]; intros H; simpl; [reflexivity|].
  rewrite H by (simpl; auto). rewrite IH; [reflexivity|].
  intros; apply H; simpl; auto.
Qed.

(** [self.section_vars] goes through the sections in the order of
    [self.layout_order], which is the order [self.tree] declares them in;
    and [self.tree[section]] is the list declared for the section. *)
Lemma section_vars_tree :
  section_vars = map (fun entry => (fst entry, SectionVar (fst entry))) tree.
Proof. reflexivity. Qed.

Lemma tree_lookup :
  Forall (fun entry => dict_get tree (fst entry) [] = snd entry) tree.
Proof. repeat constructor. Qed.

Lemma loop_paths_plan project_code acronym main_folder a :
  flat_map (loop_paths project_code acronym main_folder a) section_vars
  = flat_map (section_paths project_code acronym main_folder a) tree.
Proof.
  rewrite section_vars_tree, flat_map_map.
  apply flat_map_ext_in. intros [section subs] Hin.
  pose proof (proj1 (Forall_forall _ _) tree_lookup _ Hin) as Hsubs.
  cbn [fst snd] in *. unfold loop_paths, section_paths, selected.
  destruct (vars a (SectionVar section) =? 0)%Z; [reflexivity|]. cbn [negb].
  f_equal. unfold sub_vars. rewrite Hsubs, flat_map_map.
  apply flat_map_ext_in. intros [i sub] _. cbn [fst snd]. unfold subfolder_paths, selected.
  destruct (vars a (SubVar section i) =? 0)%Z; reflexivity.
Qed.

(** The creation step of [create_folders] is [createAll] on the plan. *)
Lemma creation_is_createAll_plan project_code acronym main_folder w :
  (create_folder main_folder ;; create_sections project_code acronym main_folder) w
  = createAll (planCreationPaths project_code acronym main_folder (app w)) w.
Proof.
  unfold planCreationPaths, createAll. rewrite for_each_cons. unfold bind.
  pose proof (create_folder_app main_folder w) as Hm.
  destruct (create_folder main_folder w) as [[[]|c] w1]; [|reflexivity].
  cbn [snd] in Hm. rewrite create_sections_loop, Hm, loop_paths_plan. reflexivity.
Qed.

(** *** What a run of [createAll] leaves behind *)

Lemma create_folder_unfold p w :
  create_folder p w
  = match mkdir p (disk w) with
    | (fs', None) =>
        (Ret tt, mkWorld (app w) fs' (user w) (asked w)
                         (out w ++ [Printed (FolderCreated p)]))
    | (fs', Some e) =>
        let answer := user w (asked w) in
        (if answer then Ret tt else SysExit 1%Z,
         mkWorld (app w) fs' (user w) (S (asked w))
                 ((out w ++ [Printed (ErrorCreatingFolder p e)])
                  ++ [Asked (ErrorCreating p e) answer]))
    end.
Proof.
  unfold create_folder, bind, Path_mkdir.
  destruct (mkdir p (disk w)) as [fs' [e|]]; cbn; [|reflexivity].
  destruct (user w (asked w)); reflexivity.
Qed.

Lemma create_folder_user p w : user (snd (create_folder p w)) = user w.
Proof.
  rewrite create_folder_unfold.
  destruct (mkdir p (disk w)) as [fs' [e|]]; reflexivity.
Qed.

Lemma attempts_app o1 o2 : attempts (o1 ++ o2) = attempts o1 ++ attempts o2.
Proof. unfold attempts. apply flat_map_app. Qed.

Lemma CreationLog_attempts done o : CreationLog done o -> attempts o = done.
Proof.
  induction 1; [reflexivity | |]; cbn; now f_equal.
Qed.

(** A run of [createAll] goes through a prefix of its paths and leaves the
    log of that prefix; it goes through all of them when it returns, and
    when it does not it has left through [sys.exit(1)] on a "no" to the
    question about the path it tried last. *)
Lemma createAll_log paths w :
  exists done rest o,
    paths = done ++ rest
    /\ out (snd (createAll paths w)) = out w ++ o
    /\ CreationLog done o
    /\ match fst (createAll paths w) with
       | Ret _ => rest = []
       | SysExit c =>
           c = 1%Z
           /\ exists before p e o',
                done = before ++ [p]
                /\ o = o' ++ [Printed (ErrorCreatingFolder p e);
                              Asked (ErrorCreating p e) false]
       end.
Proof.
  revert w. induction paths as [|p l IH]; intros w.
  - exists [], [], []. cbn. rewrite app_nil_r. repeat split. constructor.
  - unfold createAll in *. rewrite for_each_cons, create_folder_unfold.
    destruct (mkdir p (disk w)) as [fs' [e|]].
    + cbv zeta. destruct (user w (asked w)).
      * match goal with |- context [for_each l create_folder ?w1] =>
          destruct (IH w1) as (done & rest & o & Hp & Ho & Hlog & Hr);
          destruct (for_each l create_folder w1) as [r w2] end.
        cbn [fst snd out] in *.
        exists (p :: done), rest,
               (Printed (ErrorCreatingFolder p e) :: Asked (ErrorCreating p e) true :: o).
        split; [cbn; now f_equal|]. split; [rewrite Ho, <- !app_assoc; reflexivity|].
        split; [now constructor|].
        destruct r as [[]|c]; [exact Hr|].
        destruct Hr as [Hc (before & q & e' & o' & Hd & Ho')].
        split; [exact Hc|].
        exists (p :: before), q, e',
               (Printed (ErrorCreatingFolder p e) :: Asked (ErrorCreating p e) true :: o').
        split; [cbn; now f_equal | rewrite Ho'; reflexivity].
      * exists [p], l,
               [Printed (ErrorCreatingFolder p e); Asked (ErrorCreating p e) false].
        cbn [fst snd out]. split; [reflexivity|].
        split; [rewrite <- app_assoc; reflexivity|].
        split; [repeat constructor|]. split; [reflexivity|].
        exists [], p, e, []. split; reflexivity.
    + match goal with |- context [for_each l create_folder ?w1] =>
        destruct (IH w1) as (done & rest & o & Hp & Ho & Hlog & Hr);
        destruct (for_each l create_folder w1) as [r w2] end.
      cbn [fst snd out] in *.
      exists (p :: done), rest, (Printed (FolderCreated p) :: o).
      split; [cbn; now f_equal|]. split; [rewrite Ho, <- app_assoc; reflexivity|].
      split; [now constructor|].
      destruct r as [[]|c]; [exact Hr|].
      destruct Hr as [Hc (before & q & e' & o' & Hd & Ho')].
      split; [exact Hc|].
      exists (p :: before), q, e', (Printed (FolderCreated p) :: o').
      split; [cbn; now f_equal | rewrite Ho'; reflexivity].
Qed.

Lemma createAll_user paths w : user (snd (createAll paths w)) = user w.
Proof.
  revert w. induction paths as [|p l IH]; intros w; [reflexivity|].
  unfold createAll in *. rewrite for_each_cons.
  pose proof (create_folder_user p w) as Hp.
  destruct (create_folder p w) as [[[]|c] w']; cbn [snd] in *.
  - rewrite IH. exact Hp.
  - exact Hp.
Qed.

(** With a user who answers yes to every question, [createAll] returns. *)
Lemma createAll_all_yes paths w :
  (forall n, user w n = true) -> fst (createAll paths w) = Ret tt.
Proof.
  revert w. induction paths as [|p l IH]; intros w Hyes; [reflexivity|].
  unfold createAll in *. rewrite for_each_cons.
  pose proof (create_folder_user p w) as Hu.
  rewrite create_folder_unfold in *.
  destruct (mkdir p (disk w)) as [fs' [e|]]; cbv zeta in *.
  - rewrite Hyes in *. cbn [snd] in Hu. apply IH. cbn [user]. exact Hyes.
  - apply IH. cbn [user]. exact Hyes.
Qed.

End PlanFacts.

(** ** What [mkdir] does to the disk *)

Module MkdirFacts.
Import Text Paths Disk Form Run Controller Plan Scenario DiskNotions.
Import PlanFacts.

Lemma extends_refl fs : extends fs fs.
Proof. intros q n H. exact H. Qed.

Lemma extends_trans fs1 fs2 fs3 : extends fs1 fs2 -> extends fs2 fs3 -> extends fs1 fs3.
Proof. intros H1 H2 q n H. auto. Qed.

Lemma lookup_add_entry p n fs q :
  lookup q (add_entry p n fs) = if Path_eq_dec p q then Some n else lookup q fs.
Proof. reflexivity. Qed.

Lemma os_mkdir_inl p fs fs' :
  os_mkdir p fs = inl fs' ->
  fs' = add_entry p Dir fs /\ lookup p fs = None /\ refuses fs p = None
  /\ lookup (parent p) fs = Some Dir.
Proof.
  unfold os_mkdir. destruct (refuses fs p); [discriminate|].
  destruct (lookup p fs); [discriminate|].
  destruct (lookup (parent p) fs) as [[| |]|]; try discriminate.
  intros H. injection H as <-. repeat split.
Qed.

Lemma os_mkdir_extends p fs fs' : os_mkdir p fs = inl fs' -> extends fs fs'.
Proof.
  intros H. apply os_mkdir_inl in H. destruct H as (-> & Hnone & _).
  intros q n Hq. rewrite lookup_add_entry.
  destruct (Path_eq_dec p q) as [->|]; [congruence | exact Hq].
Qed.

Lemma os_mkdir_is_dir p fs fs' : os_mkdir p fs = inl fs' -> is_dir p fs' = true.
Proof.
  intros H. apply os_mkdir_inl in H. destruct H as (-> & _).
  unfold is_dir. rewrite lookup_add_entry. destruct (Path_eq_dec p p); congruence.
Qed.

Lemma os_mkdir_refuses p fs fs' : os_mkdir p fs = inl fs' -> refuses fs' = refuses fs.
Proof. intros H. apply os_mkdir_inl in H. destruct H as (-> & _). reflexivity. Qed.

(** What the file system refuses with "not found" is refused by [os.mkdir]
    with that error. *)
Lemma os_mkdir_not_found p fs :
  refuses fs p = Some FileNotFoundError -> os_mkdir p fs = inr FileNotFoundError.
Proof. unfold os_mkdir. now intros ->. Qed.

Lemma is_dir_extends p fs fs' : extends fs fs' -> is_dir p fs = true -> is_dir p fs' = true.
Proof.
  unfold is_dir. intros He H. destruct (lookup p fs) as [n|] eqn:E; [|discriminate].
  now rewrite (He _ _ E).
Qed.

Lemma made_os_mkdir p fs fs' : os_mkdir p fs = inl fs' -> made p fs fs' None.
Proof.
  intros H. split; [eapply os_mkdir_extends; eauto|].
  split; [eapply os_mkdir_refuses; eauto|]. intros _.
  split; [eapply os_mkdir_is_dir; eauto|].
  apply os_mkdir_inl in H. destruct H as (_ & _ & Hr & _). congruence.
Qed.

Lemma made_forgiven p fs e :
  os_mkdir p fs = inr e -> e <> FileNotFoundError ->
  made p fs fs (if is_dir p fs then None else Some e).
Proof.
  intros H He. split; [apply extends_refl|]. split; [reflexivity|].
  destruct (is_dir p fs) eqn:Ed; [|discriminate]. intros _. split; [reflexivity|].
  intros Hr. rewrite (os_mkdir_not_found _ _ Hr) in H. congruence.
Qed.

Lemma made_failed p fs e : made p fs fs (Some e).
Proof. split; [apply extends_refl|]. split; [reflexivity | discriminate]. Qed.

Lemma mkdir_exist_ok_spec p fs fs' r :
  mkdir_exist_ok p fs = (fs', r) -> made p fs fs' r.
Proof.
  unfold mkdir_exist_ok. destruct (os_mkdir p fs) as [fs1|e] eqn:E.
  - intros H. injection H as <- <-. now apply made_os_mkdir.
  - destruct e;
      try (intros H;
           match type of H with
           | (if _ then _ else _) = _ =>
               pose proof (made_forgiven p fs _ E) as Hm;
               destruct (is_dir p fs); injection H as <- <-; apply Hm; discriminate
           end).
    intros H. injection H as <- <-. apply made_failed.
Qed.

Lemma mkdir_from_spec anc rparts fs fs' r :
  mkdir_from anc rparts fs = (fs', r) -> made (mkPath anc (rev rparts)) fs fs' r.
Proof.
  revert fs fs' r. induction rparts as [|x up IH]; intros fs fs' r; cbn [mkdir_from];
    destruct (os_mkdir _ fs) as [fs1|e] eqn:E;
    try (intros H; injection H as <- <-; now apply made_os_mkdir);
    destruct e;
    try (intros H;
         match type of H with
         | (if _ then _ else _) = _ =>
             pose proof (made_forgiven _ fs _ E) as Hm;
             destruct (is_dir _ fs); injection H as <- <-; apply Hm; discriminate
         end).
  - intros H. injection H as <- <-. apply made_failed.
  - destruct (mkdir_from anc up fs) as [fs1 [e1|]] eqn:Eup.
    + intros H. injection H as <- <-.
      destruct (IH _ _ _ Eup) as (He & Hr & _).
      split; [exact He|]. split; [exact Hr | discriminate].
    + intros H. apply mkdir_exist_ok_spec in H.
      destruct (IH _ _ _ Eup) as (He1 & Hr1 & _). destruct H as (He & Hr & Hd).
      split; [eapply extends_trans; eauto|]. split; [congruence|].
      intros Hn. destruct (Hd Hn) as [Hdir Hnf]. split; [exact Hdir | congruence].
Qed.

Lemma mkdir_path p : mkPath (anchor p) (rev (rev (parts p))) = p.
Proof. destruct p. cbn. now rewrite rev_involutive. Qed.

(** [mkdir] only adds to the disk, and when it raises nothing the
    directory is there. *)
Lemma mkdir_spec p fs fs' r : mkdir p fs = (fs', r) -> made p fs fs' r.
Proof.
  unfold mkdir. intros H. apply mkdir_from_spec in H.
  now rewrite mkdir_path in H.
Qed.



Lemma createAll_extends paths w : extends (disk w) (disk (snd (createAll paths w))).
Proof.
  revert w. induction paths as [|p l IH]; intros w; [apply extends_refl|].
  unfold createAll in *. rewrite for_each_cons, create_folder_unfold.
  destruct (mkdir p (disk w)) as [fs' [e|]] eqn:Em;
    apply mkdir_spec in Em; destruct Em as [He _].
  - cbv zeta. destruct (user w (asked w)).
    + eapply extends_trans; [exact He|].
      match goal with |- context [for_each l create_folder ?w1] => apply (IH w1) end.
    + exact He.
  - eapply extends_trans; [exact He|].
    match goal with |- context [for_each l create_folder ?w1] => apply (IH w1) end.
Qed.

Lemma createAll_refuses paths w :
  refuses (disk (snd (createAll paths w))) = refuses (disk w).
Proof.
  revert w. induction paths as [|p l IH]; intros w; [reflexivity|].
  unfold createAll in *. rewrite for_each_cons, create_folder_unfold.
  destruct (mkdir p (disk w)) as [fs' [e|]] eqn:Em;
    apply mkdir_spec in Em; destruct Em as (_ & Hr & _).
  - cbv zeta. destruct (user w (asked w)); [|exact Hr].
    match goal with |- context [for_each l create_folder ?w1] => rewrite (IH w1) end.
    exact Hr.
  - match goal with |- context [for_each l create_folder ?w1] => rewrite (IH w1) end.
    exact Hr.
Qed.

Lemma createAll_out paths w : exists o, out (snd (createAll paths w)) = out w ++ o.
Proof.
  destruct (createAll_log paths w) as (done & rest & o & _ & Ho & _). now exists o.
Qed.

Lemma created_app o1 o2 : created (o1 ++ o2) = created o1 ++ created o2.
Proof. unfold created. apply flat_map_app. Qed.

(** Whatever [createAll] prints as created is a directory when it ends. *)
Lemma createAll_created paths w p :
  In p (created (out (snd (createAll paths w)))) ->
  In p (created (out w)) \/ is_dir p (disk (snd (createAll paths w))) = true.
Proof.
  revert w. induction paths as [|q l IH]; intros w; [now left|].
  pose proof (createAll_extends l) as Hext.
  unfold createAll in *. rewrite for_each_cons, create_folder_unfold.
  destruct (mkdir q (disk w)) as [fs' [e|]] eqn:Em; apply mkdir_spec in Em.
  - cbv zeta. destruct (user w (asked w)).
    + match goal with |- context [for_each l create_folder ?w1] =>
        intros H; destruct (IH w1 H) as [H1|H1]; [|now right] end.
      cbn [out] in H1. rewrite !created_app in H1. cbn in H1.
      rewrite !app_nil_r in H1. now left.
    + cbn [snd out]. rewrite !created_app. cbn. rewrite !app_nil_r. now left.
  - match goal with |- context [for_each l create_folder ?w1] =>
      intros H; destruct (IH w1 H) as [H1|H1]; [|now right];
      specialize (Hext w1) end.
    cbn [out disk] in *. rewrite created_app in H1. apply in_app_or in H1.
    destruct H1 as [H1|[<-|[]]]; [now left|]. right.
    destruct Em as (_ & _ & Hd). eapply is_dir_extends; [exact Hext | now apply Hd].
Qed.

(** A run that printed a line of success for every path returned, and
    left every path a directory that the file system does not answer "not
    found" for. *)
Lemma createAll_clean paths w :
  out (snd (createAll paths w)) = out w ++ all_created paths ->
  fst (createAll paths w) = Ret tt
  /\ Forall (fun p => is_dir p (disk (snd (createAll paths w))) = true
                      /\ refuses (disk (snd (createAll paths w))) p
                         <> Some FileNotFoundError) paths.
Proof.
  revert w. induction paths as [|p l IH]; intros w; [split; [reflexivity | constructor]|].
  pose proof (createAll_extends l) as Hext.
  pose proof (createAll_refuses l) as Href.
  pose proof (createAll_out l) as Hout.
  unfold createAll in *. rewrite for_each_cons, create_folder_unfold.
  destruct (mkdir p (disk w)) as [fs' [e|]] eqn:Em.
  - cbv zeta. intros H. exfalso.
    destruct (user w (asked w)).
    + match type of H with context [for_each l create_folder ?w1] =>
        destruct (Hout w1) as [o Ho] end.
      rewrite Ho in H. cbn [out] in H. rewrite <- !app_assoc in H.
      apply app_inv_head in H. discriminate.
    + cbn [snd out] in H. rewrite <- !app_assoc in H.
      apply app_inv_head in H. discriminate.
  - intros H.
    match type of H with context [for_each l create_folder ?w1] => set (w1' := w1) in * end.
    destruct (IH w1') as [Hret Hdirs].
    { rewrite H. unfold w1'. cbn [out all_created map]. now rewrite <- app_assoc. }
    split; [exact Hret|]. constructor; [|exact Hdirs].
    apply mkdir_spec in Em. destruct Em as (_ & Hr & Hd).
    destruct (Hd eq_refl) as [Hdir Hnf]. split.
    + eapply is_dir_extends; [apply (Hext w1') | exact Hdir].
    + rewrite (Href w1'). unfold w1'. cbn [disk]. congruence.
Qed.


(** *** Outcome by outcome *)

(** A run of [createAll] goes through a prefix of its paths, and what it
    leaves in the output is the report of the outcome of each: all of the
    paths with yes as the answer to every question when it returns;
    otherwise it has left through [sys.exit(1)] on a no to the question
    about the path it tried last. *)
Lemma createAll_outcomes paths w :
  exists done rest,
    paths = done ++ rest
    /\ disk (snd (createAll paths w)) = disk_after done (disk w)
    /\ match fst (createAll paths w) with
       | Ret _ =>
           rest = []
           /\ out (snd (createAll paths w))
              = out w ++ flat_map (report true) (outcomes done (disk w))
       | SysExit c =>
           c = 1%Z
           /\ exists before p e,
                done = before ++ [p]
                /\ snd (mkdir p (disk_after before (disk w))) = Some e
                /\ out (snd (createAll paths w))
                   = out w ++ flat_map (report true) (outcomes before (disk w))
                     ++ report false (p, Some e)
       end.
Proof.
  revert w. induction paths as [|p l IH]; intros w.
  - exists [], []. cbn. rewrite app_nil_r. repeat split.
  - unfold createAll in *. rewrite for_each_cons, create_folder_unfold.
    destruct (mkdir p (disk w)) as [fs' r] eqn:Em.
    assert (E1 : fst (mkdir p (disk w)) = fs') by now rewrite Em.
    assert (E2 : snd (mkdir p (disk w)) = r) by now rewrite Em.
    destruct r as [e|].
    + cbv zeta. destruct (user w (asked w)).
      * match goal with |- context [for_each l create_folder ?w1] =>
          destruct (IH w1) as (done & rest & Hp & Hd & Hr);
          destruct (for_each l create_folder w1) as [r w2] end.
        cbn [fst snd out disk] in *.
        exists (p :: done), rest. split; [cbn; now f_equal|].
        cbn [disk_after outcomes flat_map]. rewrite E1, E2.
        split; [exact Hd|].
        destruct r as [[]|c].
        -- destruct Hr as [Hrest Ho]. split; [exact Hrest|].
           rewrite Ho, <- !app_assoc. reflexivity.
        -- destruct Hr as [Hc (before & q & e' & Hdone & Hq & Ho)].
           split; [exact Hc|]. exists (p :: before), q, e'.
           split; [cbn; now f_equal|].
           cbn [disk_after outcomes flat_map]. rewrite E1, E2.
           split; [exact Hq|]. rewrite Ho, <- !app_assoc. reflexivity.
      * exists [p], l. cbn [fst snd out disk]. split; [reflexivity|].
        cbn [disk_after]. rewrite E1. split; [reflexivity|]. split; [reflexivity|].
        exists [], p, e. cbn [disk_after outcomes flat_map List.app].
        split; [reflexivity|]. split; [exact E2|].
        rewrite <- app_assoc. reflexivity.
    + match goal with |- context [for_each l create_folder ?w1] =>
        destruct (IH w1) as (done & rest & Hp & Hd & Hr);
        destruct (for_each l create_folder w1) as [r w2] end.
      cbn [fst snd out disk] in *.
      exists (p :: done), rest. split; [cbn; now f_equal|].
      cbn [disk_after outcomes flat_map]. rewrite E1, E2.
      split; [exact Hd|].
      destruct r as [[]|c].
      * destruct Hr as [Hrest Ho]. split; [exact Hrest|].
        rewrite Ho, <- !app_assoc. reflexivity.
      * destruct Hr as [Hc (before & q & e' & Hdone & Hq & Ho)].
        split; [exact Hc|]. exists (p :: before), q, e'.
        split; [cbn; now f_equal|].
        cbn [disk_after outcomes flat_map]. rewrite E1, E2.
        split; [exact Hq|]. rewrite Ho, <- !app_assoc. reflexivity.
Qed.

Lemma attempts_report answer l :
  attempts (flat_map (report answer) l) = map fst l.
Proof.
  induction l as [|[p [e|]] l IH]; [reflexivity| |];
    cbn [flat_map report map fst]; rewrite attempts_app, IH; reflexivity.
Qed.

Lemma outcomes_paths paths fs : map fst (outcomes paths fs) = paths.
Proof.
  revert fs. induction paths as [|p l IH]; intros fs; [reflexivity|].
  cbn [outcomes map fst]. now rewrite IH.
Qed.

(** *** Making the folders that are missing on the way *)




Lemma only_adds_dirs_refl fs : only_adds_dirs fs fs.
Proof. split; [apply extends_refl | auto]. Qed.

Lemma only_adds_dirs_trans fs1 fs2 fs3 :
  only_adds_dirs fs1 fs2 -> only_adds_dirs fs2 fs3 -> only_adds_dirs fs1 fs3.
Proof.
  intros [E1 N1] [E2 N2]. split; [eapply extends_trans; eauto|].
  intros q n H. destruct (N2 _ _ H) as [H2|]; auto.
Qed.

Lemma os_mkdir_only_adds p fs fs' : os_mkdir p fs = inl fs' -> only_adds_dirs fs fs'.
Proof.
  intros H. split; [eapply os_mkdir_extends; eauto|].
  apply os_mkdir_inl in H. destruct H as (-> & _). intros q n.
  rewrite lookup_add_entry.
  destruct (Path_eq_dec p q); [intros E; injection E as <-; now right | now left].
Qed.

Lemma mkdir_exist_ok_only_adds p fs fs' r :
  mkdir_exist_ok p fs = (fs', r) -> only_adds_dirs fs fs'.
Proof.
  unfold mkdir_exist_ok. destruct (os_mkdir p fs) as [fs1|e] eqn:E.
  - intros H. injection H as <- _. eapply os_mkdir_only_adds; eauto.
  - destruct e; try destruct (is_dir p fs);
      intros H; injection H as <- _; apply only_adds_dirs_refl.
Qed.

Lemma mkdir_from_only_adds anc rparts fs fs' r :
  mkdir_from anc rparts fs = (fs', r) -> only_adds_dirs fs fs'.
Proof.
  revert fs fs' r. induction rparts as [|x up IH]; intros fs fs' r; cbn [mkdir_from];
    destruct (os_mkdir _ fs) as [fs1|e] eqn:E;
    try (intros H; injection H as <- _; eapply os_mkdir_only_adds; eauto; fail);
    destruct e; try destruct (is_dir _ fs);
    try (intros H; injection H as <- _; apply only_adds_dirs_refl).
  destruct (mkdir_from anc up fs) as [fs1 [e1|]] eqn:Eup.
  - intros H. injection H as <- _. eapply IH; eauto.
  - intros H. eapply only_adds_dirs_trans;
      [eapply IH; eauto | eapply mkdir_exist_ok_only_adds; eauto].
Qed.



Lemma parent_joinpath p x : parent (joinpath p x) = p.
Proof.
  destruct p as [anc ps]. unfold parent, joinpath. cbn [anchor parts].
  now rewrite removelast_last.
Qed.


(** [mkdir] makes the missing directories above the one it is asked for. *)
Example mkdir_makes_the_parents :
  let fs := fst (mkdir nested drive_D) in
  snd (mkdir nested drive_D) = None
  /\ is_dir (mkPath (cps "D:/") [cps "a"]) fs = true
  /\ is_dir (mkPath (cps "D:/") [cps "a"; cps "b"]) fs = true
  /\ is_dir nested fs = true.
Proof. vm_compute. repeat split. Qed.

End MkdirFacts.

(** ** A run of [create_folders] *)

Module CreationFacts.
Import Text Pattern Paths Taxonomy Disk Form Run Controller Plan Scenario.
Import ValidationFacts PlanFacts MkdirFacts.
Local Open Scope run_scope.

Lemma bind_assoc {A B C} (m : M A) (k : A -> M B) (h : B -> M C) w :
  bind (bind m k) h w = bind m (fun a => bind (k a) h) w.
Proof.
  unfold bind. destruct (m w) as [[a|c] w1]; [|reflexivity]. reflexivity.
Qed.

(** An accepted form is left as it was. *)
Lemma validate_inputs_accepted_world w r :
  fst (_validate_inputs w) = Ret (Some r) -> _validate_inputs w = (Ret (Some r), w).
Proof.
  rewrite validate_inputs_unfold. cbv zeta.
  destruct (missing_fields _ _ _); [|discriminate].
  destruct (match_name _) as [[g1 acr]|]; [|discriminate].
  destruct (match_meta _) as [[y g2]|]; [|discriminate].
  destruct (fullmatch_drive _); [|discriminate].
  cbn [fst]. intros H. now rewrite H.
Qed.

Lemma create_folders_accepted w project_code acronym main_folder :
  fst (_validate_inputs w) = Ret (Some (project_code, acronym, main_folder)) ->
  create_folders w
  = if user w (asked w) then
      match createAll (planCreationPaths project_code acronym main_folder (app w))
                      (confirmed main_folder w) with
      | (Ret _, w2) => finish main_folder w2
      | (SysExit c, w2) => (SysExit c, w2)
      end
    else (Ret tt, confirmed main_folder w).
Proof.
  intros H. apply validate_inputs_accepted_world in H.
  unfold create_folders. unfold bind at 1. rewrite H.
  unfold bind at 1, askyesno. fold (confirmed main_folder w).
  destruct (user w (asked w)); [|reflexivity]. cbn [negb].
  rewrite <- (bind_assoc (create_folder main_folder)
                         (fun _ => create_sections project_code acronym main_folder)
                         (fun _ => finish main_folder)).
  unfold bind at 1. rewrite creation_is_createAll_plan. reflexivity.
Qed.

Lemma finish_unfold main_folder w :
  fst (finish main_folder w) = Ret tt
  /\ out (snd (finish main_folder w))
     = out w ++ [Shown (Success main_folder);
                 Asked ContinueOrExit (user w (asked w))].
Proof.
  unfold finish, bind, showinfo, emit, askyesno, modify_app.
  cbn -[reset_form destroy].
  destruct (user w (asked w)); cbn -[reset_form destroy];
    rewrite <- app_assoc; split; reflexivity.
Qed.

(** The paths a run of [create_folders] reaches are a prefix of the plan,
    and all of it when the user agrees to the creation and the run
    returns. *)
Lemma create_folders_attempts w project_code acronym main_folder :
  fst (_validate_inputs w) = Ret (Some (project_code, acronym, main_folder)) ->
  exists done rest,
    planCreationPaths project_code acronym main_folder (app w) = done ++ rest
    /\ attempts (out (snd (create_folders w))) = attempts (out w) ++ done
    /\ (user w (asked w) = true -> fst (create_folders w) = Ret tt -> rest = []).
Proof.
  intros H. rewrite (create_folders_accepted _ _ _ _ H).
  destruct (user w (asked w)) eqn:Eu.
  - destruct (createAll_log
                (planCreationPaths project_code acronym main_folder (app w))
                (confirmed main_folder w))
      as (done & rest & o & Hp & Ho & Hlog & Hr).
    exists done, rest. split; [exact Hp|].
    destruct (createAll _ _) as [[[]|c] w2]; cbn [fst snd] in *.
    + destruct (finish_unfold main_folder w2) as [Hf Hout].
      rewrite Hout, Ho. unfold confirmed. cbn [out].
      rewrite !attempts_app, (CreationLog_attempts _ _ Hlog). cbn.
      rewrite !app_nil_r. split; [reflexivity|]. intros _ _. exact Hr.
    + rewrite Ho. unfold confirmed. cbn [out].
      rewrite !attempts_app, (CreationLog_attempts _ _ Hlog). cbn.
      rewrite !app_nil_r. split; [reflexivity|]. intros _ Hx. discriminate.
  - exists [], (planCreationPaths project_code acronym main_folder (app w)).
    split; [reflexivity|]. unfold confirmed. cbn [snd out].
    rewrite attempts_app. cbn. split; [reflexivity|]. intros Hx. discriminate.
Qed.

Lemma in_enumerate_from {V} (l : list V) i j x :
  In (j, x) (enumerate_from i l) -> In x l.
Proof.
  revert i. induction l as [|y l IH]; intros i; simpl; [tauto|].
  intros [H|H]; [injection H as _ <-; auto | right; eapply IH; eauto].
Qed.

Lemma name_joinpath p x : name (joinpath p x) = x.
Proof. unfold name, joinpath. cbn [parts]. apply last_last. Qed.

(** Every path of the plan after the first is named by the project code,
    a hyphen, the acronym, one space and a label of the taxonomy. *)
Lemma plan_names project_code acronym main_folder a p :
  In p (planCreationPaths project_code acronym main_folder a) ->
  p = main_folder
  \/ exists label,
       In label labels
       /\ name p = project_code ++ cps "-" ++ acronym ++ cps " " ++ cps label.
Proof.
  unfold planCreationPaths. intros [H|H]; [left; congruence|]. right.
  apply in_flat_map in H. destruct H as ([section subs] & Hentry & H).
  unfold section_paths in H. destruct (selected a (SectionVar section)); [|destruct H].
  assert (Hsec : In section labels).
  { unfold labels. apply in_flat_map. exists (section, subs). split; [exact Hentry|].
    now left. }
  destruct H as [<-|H].
  - exists section. split; [exact Hsec | apply name_joinpath].
  - apply in_flat_map in H. destruct H as ([i sub] & Hsub & H).
    apply in_enumerate_from in Hsub.
    unfold subfolder_paths in H. destruct (selected a (SubVar section i)); [|destruct H].
    destruct H as [<-|H].
    + exists sub. split; [|apply name_joinpath].
      unfold labels. apply in_flat_map. exists (section, subs). split; [exact Hentry|].
      right. apply in_flat_map. exists sub. split; [exact Hsub | now left].
    + apply in_map_iff in H. destruct H as (child & <- & Hchild).
      exists child. split; [|apply name_joinpath].
      unfold labels. apply in_flat_map. exists (section, subs). split; [exact Hentry|].
      right. apply in_flat_map. exists sub. split; [exact Hsub | now right].
Qed.

(** *** Every name joined to a path is one component *)

Lemma separator_cases c : separator c = true -> c = 47%N \/ c = 92%N \/ c = 58%N.
Proof.
  unfold separator. intros H.
  repeat (apply orb_true_iff in H; destruct H as [H|H]);
    apply N.eqb_eq in H; auto.
Qed.

Lemma class_no_separator (class : N -> bool) :
  class 47%N = false -> class 92%N = false -> class 58%N = false ->
  forall s, forallb class s = true -> no_separator s = true.
Proof.
  intros H1 H2 H3 s Hs. unfold no_separator. apply negb_true_iff.
  apply not_true_is_false. intros Hex. apply existsb_exists in Hex.
  destruct Hex as (c & Hin & Hc).
  rewrite forallb_forall in Hs. specialize (Hs c Hin).
  destruct (separator_cases c Hc) as [-> | [-> | ->]]; congruence.
Qed.

Lemma no_separator_app a b :
  no_separator (a ++ b) = no_separator a && no_separator b.
Proof. unfold no_separator. now rewrite existsb_app, negb_orb. Qed.

Lemma match_name_chars s c acr :
  match_name s = Some ([c], acr) ->
  ascii_letter c = true /\ forallb acronym_char acr = true.
Proof.
  destruct s as [|c0 [|h [|f r]]]; try discriminate.
  unfold match_name. destruct (_ && _) eqn:E; [|discriminate].
  pose proof (span_app acronym_char r) as Happ.
  assert (Hbody : forallb acronym_char (fst (span acronym_char r)) = true).
  { clear. induction r as [|x r IH]; [reflexivity|]. cbn [span].
    destruct (acronym_char x) eqn:Ex; [|reflexivity].
    destruct (span acronym_char r). cbn in *. now rewrite Ex. }
  destruct (span acronym_char r) as [body rest]. cbn [fst snd] in *.
  destruct (at_dollar rest); [|discriminate].
  intros H. injection H as <- <-.
  apply andb_true_iff in E. destruct E as [E Ef].
  apply andb_true_iff in E. destruct E as [Ec _].
  split; [exact Ec|]. cbn [forallb]. rewrite Hbody, andb_true_r.
  unfold acronym_char. now rewrite Ef.
Qed.

Lemma match_meta_chars s y p :
  match_meta s = Some (y, p) ->
  forallb isdecimal y = true /\ forallb person_char p = true.
Proof.
  destruct s as [|d1 [|d2 [|d3 [|d4 [|h [|l r]]]]]]; try discriminate.
  unfold match_meta. destruct (_ && _) eqn:E; [|discriminate].
  intros H. injection H as <- <-.
  repeat (apply andb_true_iff in E; destruct E as [E ?]).
  cbn [forallb]. split.
  - repeat (apply andb_true_iff; split); auto.
  - apply andb_true_iff. split; [|assumption].
    unfold person_char. match goal with H : person_letter l = true |- _ => now rewrite H end.
Qed.

Lemma forallb_skipn (class : N -> bool) n s :
  forallb class s = true -> forallb class (skipn n s) = true.
Proof.
  revert s. induction n as [|n IH]; intros s H; [exact H|].
  destruct s as [|c s]; [reflexivity|]. cbn [skipn]. apply IH.
  cbn in H. apply andb_true_iff in H. tauto.
Qed.

(** The names [create_folders] joins to a path hold no [/], no backslash
    and no colon: each is one component, as [joinpath] takes it. *)
Lemma joined_names_are_components w project_code acronym main_folder :
  fst (_validate_inputs w) = Ret (Some (project_code, acronym, main_folder)) ->
  no_separator (name main_folder) = true
  /\ forall label, In label labels ->
     no_separator (folder_name project_code acronym label) = true.
Proof.
  intros H.
  destruct (validate_inputs_accepts _ _ _ _ H)
    as (c & y & g2 & d & Hn & Hm & Hd & Hld & Hpc & Hmain).
  destruct (match_name_chars _ _ _ Hn) as [Hc Hacr].
  destruct (match_meta_chars _ _ _ Hm) as [Hy Hp].
  rewrite (person_already_stripped _ _ _ Hm) in Hmain.
  assert (Hcode : no_separator project_code = true).
  { subst project_code. change (upper_cp c :: last_two y) with ([upper_cp c] ++ last_two y).
    rewrite no_separator_app. apply andb_true_iff. split.
    - apply (class_no_separator (between 65 90)); try reflexivity.
      cbn [forallb]. now rewrite upper_cp_upper.
    - apply (class_no_separator isdecimal); try reflexivity.
      unfold last_two. now apply forallb_skipn. }
  assert (Hacr' : no_separator acronym = true)
    by (apply (class_no_separator acronym_char); auto).
  split.
  - subst main_folder. rewrite name_joinpath. unfold main_folder_name.
    rewrite !no_separator_app, Hcode, Hacr'.
    assert (Hyear : no_separator y = true)
      by (apply (class_no_separator isdecimal); auto).
    assert (Hperson : no_separator g2 = true)
      by (apply (class_no_separator person_char); auto).
    rewrite Hyear, Hperson. reflexivity.
  - intros label Hl. unfold folder_name.
    rewrite !no_separator_app, Hcode, Hacr'. cbn [andb].
    assert (Hall : forallb (fun l => no_separator (cps l)) labels = true)
      by (vm_compute; reflexivity).
    rewrite forallb_forall in Hall. now apply Hall.
Qed.

(** *** The folders and their labels *)

Lemma map_flat_map {X Y Z} (f : Y -> Z) (g : X -> list Y) l :
  map f (flat_map g l) = flat_map (fun x => map f (g x)) l.
Proof.
  induction l as [|x l IH]; [reflexivity|]. cbn [flat_map]. now rewrite map_app, IH.
Qed.

(** The plan is the main folder and then the folder of every ticked box,
    each where [folder_path] puts it. *)
Lemma plan_folders project_code acronym main_folder a :
  planCreationPaths project_code acronym main_folder a
  = main_folder :: map (folder_path project_code acronym main_folder) (ticked_folders a).
Proof.
  unfold planCreationPaths, ticked_folders. f_equal. rewrite map_flat_map.
  apply flat_map_ext_in. intros [section subs] _. unfold section_paths.
  destruct (selected a (SectionVar section)); [|reflexivity].
  cbn [map]. f_equal. rewrite map_flat_map.
  apply flat_map_ext_in. intros [i sub] _. unfold subfolder_paths.
  destruct (selected a (SubVar section i)); [|reflexivity].
  cbn [map]. f_equal. now rewrite map_map.
Qed.

Lemma finish_disk main_folder w : disk (snd (finish main_folder w)) = disk w.
Proof.
  unfold finish, bind, showinfo, emit, askyesno, modify_app.
  cbn -[reset_form destroy]. destruct (user w (asked w)); reflexivity.
Qed.

(** Whatever a run of [create_folders] prints as created is a directory
    when the run ends. *)
Lemma create_folders_created w project_code acronym main_folder p :
  fst (_validate_inputs w) = Ret (Some (project_code, acronym, main_folder)) ->
  In p (created (out (snd (create_folders w)))) ->
  In p (created (out w)) \/ is_dir p (disk (snd (create_folders w))) = true.
Proof.
  intros Hv. rewrite (create_folders_accepted _ _ _ _ Hv).
  assert (Hco : created (out (confirmed main_folder w)) = created (out w)).
  { unfold confirmed. cbn [out]. rewrite created_app.
    change (created (out w) ++ [] = created (out w)). apply app_nil_r. }
  destruct (user w (asked w)).
  - pose proof (createAll_created
                  (planCreationPaths project_code acronym main_folder (app w))
                  (confirmed main_folder w) p) as Hc.
    rewrite Hco in Hc.
    destruct (createAll _ _) as [[[]|c] w2]; cbn [fst snd] in *; [|exact Hc].
    destruct (finish_unfold main_folder w2) as [_ Hout].
    rewrite Hout, created_app, finish_disk.
    change (In p (created (out w2) ++ []) ->
            In p (created (out w)) \/ is_dir p (disk w2) = true).
    rewrite app_nil_r. exact Hc.
  - cbn [snd]. rewrite Hco. now left.
Qed.

(** C3.  Below the main folder a run of [create_folders] passes to
    [create_folder] the folders of the ticked boxes, in the order of the
    taxonomy, each where [folder_path] puts it: a section in the main
    folder, a subfolder in the folder of its section, an extra child in the
    folder of its subfolder.  The name of each is the project code, a
    hyphen, the acronym, one space and the folder's own label.  Whatever the
    run prints as created is a directory on the disk when the run ends.
    With A-CABCAR, 2026-Peter and D typed in, the boxes Outcome and Reports
    ticked and a drive D with nothing on it, the folders tried and created
    are the three of the example, and they are what the run has added to
    the disk. *)
Theorem section_and_subfolder_names :
  (forall w project_code acronym main_folder,
     fst (_validate_inputs w) = Ret (Some (project_code, acronym, main_folder)) ->
     let w' := snd (create_folders w) in
     (exists done rest,
        main_folder
        :: map (folder_path project_code acronym main_folder) (ticked_folders (app w))
        = done ++ rest
        /\ attempts (out w') = attempts (out w) ++ done
        /\ (user w (asked w) = true -> fst (create_folders w) = Ret tt -> rest = []))
     /\ (forall p, In p (created (out w')) ->
                   In p (created (out w)) \/ is_dir p (disk w') = true))
  /\ (forall project_code acronym main_folder f,
        name (folder_path project_code acronym main_folder f)
        = project_code ++ cps "-" ++ acronym ++ cps " " ++ cps (label_of f)
        /\ parent (folder_path project_code acronym main_folder f)
           = match f with
             | SectionFolder _ => main_folder
             | SubFolder section _ =>
                 folder_path project_code acronym main_folder (SectionFolder section)
             | ChildFolder section sub _ =>
                 folder_path project_code acronym main_folder (SubFolder section sub)
             end)
  /\ (let w := start (cabcar [SectionVar "Outcome"; SubVar "Outcome" 3]) drive_D yes in
      let w' := snd (create_folders w) in
      map as_posix (created (out w'))
      = [cps "D:/A26-CABCAR-2026-Peter";
         cps "D:/A26-CABCAR-2026-Peter/A26-CABCAR Outcome";
         cps "D:/A26-CABCAR-2026-Peter/A26-CABCAR Outcome/A26-CABCAR Reports"]
      /\ attempts (out w') = created (out w')
      /\ map (fun entry => (as_posix (fst entry), snd entry)) (entries (disk w'))
         = [(cps "D:/A26-CABCAR-2026-Peter/A26-CABCAR Outcome/A26-CABCAR Reports", Dir);
            (cps "D:/A26-CABCAR-2026-Peter/A26-CABCAR Outcome", Dir);
            (cps "D:/A26-CABCAR-2026-Peter", Dir);
            (cps "D:/", Dir)]).
Proof.
  split; [|split].
  - intros w project_code acronym main_folder Hv w'. subst w'. split.
    + rewrite <- plan_folders. apply create_folders_attempts. exact Hv.
    + intros p. now apply (create_folders_created w project_code acronym main_folder).
  - intros project_code acronym main_folder f.
    destruct f; cbn [folder_path label_of]; rewrite name_joinpath, parent_joinpath;
      split; reflexivity.
  - vm_compute. repeat split.
Qed.

Lemma section_and_subfolder_names_witness :
  let w := start (cabcar [SectionVar "Outcome"; SubVar "Outcome" 3]) drive_D yes in
  let main_folder := mkPath (cps "D:/") [cps "A26-CABCAR-2026-Peter"] in
  let w' := snd (create_folders w) in
  (exists done rest,
     main_folder
     :: map (folder_path (cps "A26") (cps "CABCAR") main_folder) (ticked_folders (app w))
     = done ++ rest
     /\ attempts (out w') = attempts (out w) ++ done
     /\ (user w (asked w) = true -> fst (create_folders w) = Ret tt -> rest = []))
  /\ (forall p, In p (created (out w')) ->
                In p (created (out w)) \/ is_dir p (disk w') = true).
Proof.
  apply (proj1 section_and_subfolder_names
           (start (cabcar [SectionVar "Outcome"; SubVar "Outcome" 3]) drive_D yes)
           (cps "A26") (cps "CABCAR")
           (mkPath (cps "D:/") [cps "A26-CABCAR-2026-Peter"])).
  vm_compute. reflexivity.
Defined.

(** C4.  When the form is accepted, the user agrees to the creation and
    the run returns, the paths [create_folders] has passed to
    [create_folder] are, in this order, those of [planCreationPaths]: the
    main folder, then for each ticked section in the order of the taxonomy
    its folder and, for each ticked subfolder of it in order, the subfolder
    and its extra children.  With Field Measurements and Hydrology ticked
    these are the main folder, the section, Hydrology, Hydrology Manual and
    Hydrology Instrument. *)
Theorem creation_sequence_is_the_plan :
  (forall w project_code acronym main_folder,
     fst (_validate_inputs w) = Ret (Some (project_code, acronym, main_folder)) ->
     user w (asked w) = true ->
     fst (create_folders w) = Ret tt ->
     attempts (out (snd (create_folders w)))
     = attempts (out w) ++ planCreationPaths project_code acronym main_folder (app w))
  /\ (let w := start (cabcar [SectionVar "Field Measurements";
                              SubVar "Field Measurements" 1]) drive_D yes in
      map as_posix (attempts (out (snd (create_folders w))))
      = [cps "D:/A26-CABCAR-2026-Peter";
         cps "D:/A26-CABCAR-2026-Peter/A26-CABCAR Field Measurements";
         cps "D:/A26-CABCAR-2026-Peter/A26-CABCAR Field Measurements/A26-CABCAR Hydrology";
         cps "D:/A26-CABCAR-2026-Peter/A26-CABCAR Field Measurements/A26-CABCAR Hydrology/A26-CABCAR Hydrology Manual";
         cps "D:/A26-CABCAR-2026-Peter/A26-CABCAR Field Measurements/A26-CABCAR Hydrology/A26-CABCAR Hydrology Instrument"]).
Proof.
  split.
  - intros w project_code acronym main_folder Hv Hyes Hret.
    destruct (create_folders_attempts _ _ _ _ Hv) as (done & rest & Hplan & Hatt & Hall).
    rewrite Hatt, Hplan, (Hall Hyes Hret), app_nil_r. reflexivity.
  - vm_compute. reflexivity.
Qed.

Lemma creation_sequence_is_the_plan_witness :
  let w := start (cabcar [SectionVar "Geodata"; SubVar "Geodata" 1]) drive_D yes in
  attempts (out (snd (create_folders w)))
  = attempts (out w)
    ++ planCreationPaths (cps "A26") (cps "CABCAR")
         (mkPath (cps "D:/") [cps "A26-CABCAR-2026-Peter"]) (app w).
Proof.
  apply (proj1 creation_sequence_is_the_plan
           (start (cabcar [SectionVar "Geodata"; SubVar "Geodata" 1]) drive_D yes));
    vm_compute; reflexivity.
Defined.

(** C7 as it is worded fails.  A file has the name of the main folder, so
    the first creation fails; the user says no to the question about it;
    the run ends there with [sys.exit(1)] and the section folder and the
    subfolder of the plan are never tried. *)
Lemma creation_stops_when_the_user_says_no :
  let w := start (cabcar [SectionVar "Outcome"; SubVar "Outcome" 3])
                 drive_D_with_file yes_then_no in
  let main_folder := mkPath (cps "D:/") [cps "A26-CABCAR-2026-Peter"] in
  List.length (planCreationPaths (cps "A26") (cps "CABCAR") main_folder (app w)) = 3%nat
  /\ fst (create_folders w) = SysExit 1%Z
  /\ attempts (out (snd (create_folders w))) = [main_folder]
  /\ disk (snd (create_folders w)) = drive_D_with_file.
Proof. vm_compute. repeat split. Qed.

(** C7, amended.  [createAll] goes through its paths in order and stops
    only by [sys.exit(1)], on a "no" to the question about the path it has
    just failed to create; the paths after that one are not tried.  What
    the run leaves in the output is the report of the outcome [mkdir] gave
    for each path it tried, on the disk the paths before had left: the line
    of a success where [mkdir] raised nothing; where it raised, the line of
    the error followed at once by the question that names the path and the
    error, and never a line of success.  With a user who says yes each time
    every path is tried and the run returns. *)
Theorem creation_goes_on_while_the_user_agrees paths w :
  (exists done rest,
     paths = done ++ rest
     /\ disk (snd (createAll paths w)) = disk_after done (disk w)
     /\ match fst (createAll paths w) with
        | Ret _ =>
            rest = []
            /\ out (snd (createAll paths w))
               = out w ++ flat_map (report true) (outcomes done (disk w))
        | SysExit c =>
            c = 1%Z
            /\ exists before p e,
                 done = before ++ [p]
                 /\ snd (mkdir p (disk_after before (disk w))) = Some e
                 /\ out (snd (createAll paths w))
                    = out w ++ flat_map (report true) (outcomes before (disk w))
                      ++ report false (p, Some e)
        end)
  /\ ((forall n, user w n = true) ->
      fst (createAll paths w) = Ret tt
      /\ out (snd (createAll paths w))
         = out w ++ flat_map (report true) (outcomes paths (disk w))
      /\ attempts (out (snd (createAll paths w))) = attempts (out w) ++ paths).
Proof.
  split; [apply createAll_outcomes|].
  intros Hyes. pose proof (createAll_all_yes paths w Hyes) as Hret.
  split; [exact Hret|].
  destruct (createAll_outcomes paths w) as (done & rest & Hp & _ & Hr).
  rewrite Hret in Hr. destruct Hr as [-> Ho]. rewrite app_nil_r in Hp. subst done.
  split; [exact Ho|].
  rewrite Ho, attempts_app, attempts_report, outcomes_paths. reflexivity.
Qed.

Lemma creation_goes_on_while_the_user_agrees_witness :
  let paths := [mkPath (cps "D:/") [cps "A26-CABCAR-2026-Peter"];
                mkPath (cps "D:/") [cps "B26-CABCAR-2026-Peter"]] in
  let w := start initial drive_D_with_file yes in
  fst (createAll paths w) = Ret tt
  /\ out (snd (createAll paths w))
     = out w ++ flat_map (report true) (outcomes paths (disk w))
  /\ attempts (out (snd (createAll paths w))) = attempts (out w) ++ paths.
Proof.
  apply (proj2 (creation_goes_on_while_the_user_agrees
                  [mkPath (cps "D:/") [cps "A26-CABCAR-2026-Peter"];
                   mkPath (cps "D:/") [cps "B26-CABCAR-2026-Peter"]]
                  (start initial drive_D_with_file yes))).
  intros n. reflexivity.
Defined.

(** The run of the last example: the file in the way is reported and asked
    about, the second folder is made. *)
Example a_failure_is_reported_and_the_run_goes_on :
  let blocked := mkPath (cps "D:/") [cps "A26-CABCAR-2026-Peter"] in
  let free := mkPath (cps "D:/") [cps "B26-CABCAR-2026-Peter"] in
  let w' := snd (createAll [blocked; free] (start initial drive_D_with_file yes)) in
  out w'
  = [Printed (ErrorCreatingFolder blocked FileExistsError);
     Asked (ErrorCreating blocked FileExistsError) true;
     Printed (FolderCreated free)]
  /\ is_dir blocked (disk w') = false /\ is_dir free (disk w') = true.
Proof. vm_compute. repeat split. Qed.

(** A name the file system refuses is reported like any other failure. *)
Example a_refused_name_is_reported :
  let long := mkPath (cps "D:/") [List.repeat 65%N 300] in
  let w' := snd (createAll [long] (start initial drive_D_short_names yes)) in
  out w'
  = [Printed (ErrorCreatingFolder long (OtherOSError 36));
     Asked (ErrorCreating long (OtherOSError 36)) true]
  /\ disk w' = drive_D_short_names.
Proof. vm_compute. repeat split. Qed.

End CreationFacts.

(** ** Creating twice *)

Module DiskFacts.
Import Text Paths Disk Form Run Controller Plan Scenario DiskNotions.
Import PlanFacts MkdirFacts.




End DiskFacts.

(** ** More on validation *)

Module ValidationMore.
Import Text Pattern Paths Taxonomy Disk Form Run Controller Spec Scenario Events.
Import StripFacts ValidationFacts.
Local Open Scope N_scope.

(** X1.  [_validate_inputs] reads the entries through [strip] only: a form
    and the same form with the white space around its three texts taken
    off get the same answer, the same boxes and the same question. *)
Theorem validation_ignores_surrounding_space w :
  let w' := with_app (trimmed (app w)) w in
  fst (_validate_inputs w') = fst (_validate_inputs w)
  /\ out (snd (_validate_inputs w')) = out (snd (_validate_inputs w)).
Proof.
  cbv zeta. rewrite !validate_inputs_unfold. cbv zeta.
  cbn [app with_app trimmed entry_name entry_meta entry_drive
       with_entry_name with_entry_meta with_entry_drive disk user asked out].
  rewrite !strip_strip.
  destruct (missing_fields _ _ _); [|split; reflexivity].
  destruct (match_name _) as [[g1 acr]|]; [|split; reflexivity].
  destruct (match_meta _) as [[y g2]|]; [|split; reflexivity].
  destruct (fullmatch_drive _); split; reflexivity.
Qed.

(** X2.  After a refusal the focus is on the field at fault: the first of
    the empty fields in the order name, year and person, drive when the
    user goes on editing an incomplete form (when the user does not, the
    window is destroyed and the focus stays); the name for a bad code and
    acronym; the year and person for a bad year and person; the drive for a
    bad drive.  An accepted form is left as it is. *)
Theorem refusal_puts_the_focus_on_the_field_at_fault w :
  let a := app w in
  let a' := app (snd (_validate_inputs w)) in
  match validate (entry_name a) (entry_meta a) (entry_drive a) with
  | inl _ => a' = a
  | inr (MissingFieldError fields) =>
      if user w (asked w)
      then focus a' = hd_error fields /\ destroyed a' = destroyed a
      else focus a' = focus a /\ destroyed a' = true
  | inr InvalidCodeAcronymError => focus a' = Some EntryName
  | inr InvalidYearPersonError => focus a' = Some EntryMeta
  | inr InvalidDriveError => focus a' = Some EntryDrive
  end.
Proof.
  cbv zeta. rewrite validate_inputs_unfold. cbv zeta.
  unfold validate, is_blank, text_of, missing_fields, is_empty. cbn [filter].
  destruct (strip (entry_name (app w))) as [|n0 n] eqn:En;
    destruct (strip (entry_meta (app w))) as [|m0 m] eqn:Em;
    destruct (strip (entry_drive (app w))) as [|d0 d] eqn:Ed;
    try (cbn; destruct (user w (asked w)); split; reflexivity).
  cbn [List.app].
  rewrite match_name_code_acronym
    by (intros l c E; apply (strip_last (entry_name (app w)) l c); congruence).
  destruct (code_acronym (n0 :: n)) as [[c acr]|]; [|reflexivity].
  destruct (match_meta (m0 :: m)) as [[y g2]|] eqn:Emm;
    rewrite <- match_meta_year_person, Emm; [|reflexivity].
  destruct d as [|d1 d]; cbn [fullmatch_drive]; [|reflexivity].
  destruct (ascii_letter d0); reflexivity.
Qed.

(** X3.  [_validate_inputs] never leaves through [sys.exit], never writes
    to an entry, to a variable, to the state of a box or to the disk, and
    asks one question at most. *)
Theorem validation_keeps_the_form_and_the_disk w :
  let w' := snd (_validate_inputs w) in
  (exists r, fst (_validate_inputs w) = Ret r)
  /\ entry_name (app w') = entry_name (app w)
  /\ entry_meta (app w') = entry_meta (app w)
  /\ entry_drive (app w') = entry_drive (app w)
  /\ vars (app w') = vars (app w)
  /\ widget_state (app w') = widget_state (app w)
  /\ _bulk_update (app w') = _bulk_update (app w)
  /\ disk w' = disk w
  /\ (asked w' = asked w \/ asked w' = S (asked w)).
Proof.
  cbv zeta. rewrite validate_inputs_unfold. cbv zeta.
  destruct (missing_fields _ _ _) as [|x l].
  - destruct (match_name _) as [[g1 acr]|];
      [|repeat split; try (eexists; reflexivity); now left].
    destruct (match_meta _) as [[y g2]|];
      [|repeat split; try (eexists; reflexivity); now left].
    destruct (fullmatch_drive _);
      repeat split; try (eexists; reflexivity); now left.
  - cbn [fst snd app disk asked].
    destruct (user w (asked w));
      repeat match goal with |- context [if ?c then _ else _] => destruct c end;
      repeat split; try (eexists; reflexivity); now right.
Qed.

(** *** The letter case of the code and of the drive *)

Lemma validate_inputs_answer w :
  fst (_validate_inputs w)
  = Ret (answer (strip (entry_name (app w))) (strip (entry_meta (app w)))
                (strip (entry_drive (app w)))).
Proof.
  rewrite validate_inputs_unfold. cbv zeta. unfold answer.
  destruct (missing_fields _ _ _); [|reflexivity].
  destruct (match_name _) as [[g1 acr]|]; [|reflexivity].
  destruct (match_meta _) as [[y g2]|]; [|reflexivity].
  destruct (fullmatch_drive _); reflexivity.
Qed.

Lemma ascii_letter_upper c : ascii_letter (upper_cp c) = ascii_letter c.
Proof.
  unfold ascii_letter, upper_cp, between.
  destruct (N.leb_spec 97 c), (N.leb_spec c 122); cbn [andb];
    repeat match goal with |- context [(?a <=? ?b)%N] => destruct (N.leb_spec a b) end;
    cbn; try reflexivity; exfalso; lia.
Qed.

Lemma match_name_first_case c c' rest :
  upper_cp c = upper_cp c' ->
  match match_name (c :: rest) with
  | Some (g1, acr) => Some (upper g1, acr)
  | None => None
  end
  = match match_name (c' :: rest) with
    | Some (g1, acr) => Some (upper g1, acr)
    | None => None
    end.
Proof.
  intros H. destruct rest as [|h [|f r]]; try reflexivity.
  unfold match_name.
  rewrite <- (ascii_letter_upper c), <- (ascii_letter_upper c'), H.
  destruct (ascii_letter (upper_cp c') && (h =? 45) && ascii_alnum f); [|reflexivity].
  destruct (span acronym_char r) as [body tail].
  destruct (at_dollar tail); [|reflexivity].
  cbn [upper map]. now rewrite H.
Qed.

Lemma fullmatch_drive_upper d d' :
  upper d = upper d' -> fullmatch_drive d = fullmatch_drive d'.
Proof.
  destruct d as [|c [|c2 r]], d' as [|c' [|c2' r']]; try discriminate; try reflexivity.
  cbn. intros H. injection H as H.
  now rewrite <- (ascii_letter_upper c), <- (ascii_letter_upper c'), H.
Qed.

(** X4.  The case of the code letter and of the drive letter does not
    matter: two forms whose trimmed names differ at most in the case of the
    first character, whose trimmed years and persons are the same and whose
    trimmed drives are the same once in upper case get the same answer from
    [_validate_inputs]. *)
Theorem letter_case_does_not_matter w1 w2 :
  same_but_first_case (strip (entry_name (app w1))) (strip (entry_name (app w2))) ->
  strip (entry_meta (app w1)) = strip (entry_meta (app w2)) ->
  upper (strip (entry_drive (app w1))) = upper (strip (entry_drive (app w2))) ->
  fst (_validate_inputs w1) = fst (_validate_inputs w2).
Proof.
  rewrite !validate_inputs_answer. intros Hn Hm Hd. f_equal.
  rewrite <- Hm. unfold answer.
  set (m := strip (entry_meta (app w1))).
  rewrite <- (fullmatch_drive_upper _ _ Hd), <- Hd.
  set (d := strip (entry_drive (app w1))) in *.
  assert (Hde : is_empty (strip (entry_drive (app w2))) = is_empty d).
  { destruct d, (strip (entry_drive (app w2))); try discriminate; reflexivity. }
  unfold missing_fields. rewrite Hde.
  unfold same_but_first_case in Hn.
  destruct (strip (entry_name (app w1))) as [|c r],
           (strip (entry_name (app w2))) as [|c' r']; try contradiction;
    [reflexivity|].
  destruct Hn as [Hc <-]. cbn [is_empty].
  destruct (_ ++ _); [|reflexivity].
  pose proof (match_name_first_case c c' r Hc) as Hmatch.
  destruct (match_name (c :: r)) as [[g1 acr]|],
           (match_name (c' :: r)) as [[g1' acr']|]; try discriminate; [|reflexivity].
  injection Hmatch as -> ->. reflexivity.
Qed.

Lemma letter_case_does_not_matter_witness :
  fst (_validate_inputs (start (filled "a-CABCAR" "2026-Peter" "d" []) drive_D yes))
  = fst (_validate_inputs (start (filled "A-CABCAR" " 2026-Peter" "D " []) drive_D yes)).
Proof.
  apply (letter_case_does_not_matter
           (start (filled "a-CABCAR" "2026-Peter" "d" []) drive_D yes)
           (start (filled "A-CABCAR" " 2026-Peter" "D " []) drive_D yes));
    vm_compute; auto.
Defined.

(** *** From the main folder back to what was typed *)

(** No character of a person is a decimal digit. *)
Lemma person_char_not_decimal c : person_char c = true -> isdecimal c = false.
Proof.
  intros Hp. apply not_true_is_false. intros Hd.
  unfold isdecimal in Hd. apply existsb_exists in Hd. destruct Hd as (z & Hz & Hb).
  unfold between in Hb. apply andb_true_iff in Hb. destruct Hb as [Hlo Hhi].
  apply N.leb_le in Hlo. apply N.leb_le in Hhi.
  unfold person_char, person_letter, ascii_letter, isspace, between in Hp.
  repeat (apply orb_true_iff in Hp; destruct Hp as [Hp|Hp]);
    try (apply andb_true_iff in Hp; destruct Hp as [Hp1 Hp2];
         apply N.leb_le in Hp1; apply N.leb_le in Hp2);
    try apply N.eqb_eq in Hp;
    unfold decimal_zeros in Hz; cbn [In] in Hz;
    repeat (destruct Hz as [<-|Hz]; [lia|]); destruct Hz.
Qed.

(** A text is cut in one way only at its first character of a class. *)
Lemma first_of_class_unique (q : N -> bool) a d r a' d' r' :
  a ++ d :: r = a' ++ d' :: r' ->
  forallb (fun c => negb (q c)) a = true -> q d = true ->
  forallb (fun c => negb (q c)) a' = true -> q d' = true ->
  a = a' /\ d = d' /\ r = r'.
Proof.
  revert a'. induction a as [|x a IH]; intros [|x' a'] E Ha Hd Ha' Hd'; cbn in *.
  - injection E as -> ->. auto.
  - injection E as -> _. apply andb_true_iff in Ha'. destruct Ha' as [Hx _].
    rewrite Hd in Hx. discriminate.
  - injection E as -> _. apply andb_true_iff in Ha. destruct Ha as [Hx _].
    rewrite Hd' in Hx. discriminate.
  - injection E as -> E.
    apply andb_true_iff in Ha. apply andb_true_iff in Ha'.
    destruct (IH a' E) as (-> & -> & ->); tauto.
Qed.

Lemma forallb_rev (q : N -> bool) s : forallb q s = true -> forallb q (rev s) = true.
Proof.
  rewrite !forallb_forall. intros H c Hc. apply H. now apply in_rev.
Qed.

(** A text that ends with a year of four digits, a hyphen and a person is
    cut in one way only into what comes before, the year and the person. *)
Lemma year_person_suffix_unique x y p x' y' p' :
  x ++ y ++ 45 :: p = x' ++ y' ++ 45 :: p' ->
  List.length y = 4%nat -> List.length y' = 4%nat ->
  forallb isdecimal y = true -> forallb isdecimal y' = true ->
  forallb person_char p = true -> forallb person_char p' = true ->
  x = x' /\ y = y' /\ p = p'.
Proof.
  intros E Hl Hl' Hy Hy' Hp Hp'.
  destruct y as [|a [|b [|c [|d [|e y]]]]]; try discriminate.
  destruct y' as [|a' [|b' [|c' [|d' [|e' y']]]]]; try discriminate.
  apply (f_equal (@rev N)) in E.
  rewrite !rev_app_distr in E. cbn [rev List.app] in E.
  rewrite <- !app_assoc in E. cbn [List.app] in E.
  assert (Hnd : forall s, forallb person_char s = true ->
                forallb (fun c => negb (isdecimal c)) (rev s ++ [45]) = true).
  { intros s Hs. rewrite forallb_app. apply andb_true_iff. split; [|reflexivity].
    apply forallb_rev. rewrite forallb_forall in *. intros k Hk.
    now rewrite (person_char_not_decimal k (Hs k Hk)). }
  cbn [forallb] in Hy, Hy'.
  repeat (apply andb_true_iff in Hy; destruct Hy as [? Hy]).
  repeat (apply andb_true_iff in Hy'; destruct Hy' as [? Hy']).
  change (rev p ++ 45 :: d :: c :: b :: a :: rev x)
    with (rev p ++ [45] ++ d :: c :: b :: a :: rev x) in E.
  change (rev p' ++ 45 :: d' :: c' :: b' :: a' :: rev x')
    with (rev p' ++ [45] ++ d' :: c' :: b' :: a' :: rev x') in E.
  rewrite !app_assoc in E.
  destruct (first_of_class_unique isdecimal _ _ _ _ _ _ E) as (Ep & -> & Er); auto.
  injection Er as -> -> -> Ex.
  apply app_inv_tail in Ep.
  apply (f_equal (@rev N)) in Ep. apply (f_equal (@rev N)) in Ex.
  rewrite !rev_involutive in *. now subst.
Qed.

(** X5.  The main folder tells the project: two accepted forms with the
    same main folder have the same project code, acronym, year and person
    and drive letter; their trimmed texts differ at most in the case of the
    code letter and of the drive letter. *)
Theorem main_folder_identifies_the_project w1 w2 pc1 acr1 pc2 acr2 main :
  fst (_validate_inputs w1) = Ret (Some (pc1, acr1, main)) ->
  fst (_validate_inputs w2) = Ret (Some (pc2, acr2, main)) ->
  pc1 = pc2 /\ acr1 = acr2
  /\ same_but_first_case (strip (entry_name (app w1))) (strip (entry_name (app w2)))
  /\ strip (entry_meta (app w1)) = strip (entry_meta (app w2))
  /\ upper (strip (entry_drive (app w1))) = upper (strip (entry_drive (app w2))).
Proof.
  intros H1 H2.
  destruct (validate_inputs_accepts _ _ _ _ H1)
    as (c1 & y1 & g1 & d1 & Hn1 & Hm1 & Hd1 & _ & Hpc1 & Hmain1).
  destruct (validate_inputs_accepts _ _ _ _ H2)
    as (c2 & y2 & g2 & d2 & Hn2 & Hm2 & Hd2 & _ & Hpc2 & Hmain2).
  rewrite (person_already_stripped _ _ _ Hm1) in Hmain1.
  rewrite (person_already_stripped _ _ _ Hm2) in Hmain2.
  destruct (match_name_shape_stripped _ _ _ Hn1) as [_ Hname1].
  destruct (match_name_shape_stripped _ _ _ Hn2) as [_ Hname2].
  destruct (match_meta_shape _ _ _ Hm1) as [Hmeta1 _].
  destruct (match_meta_shape _ _ _ Hm2) as [Hmeta2 _].
  pose proof (match_meta_year _ _ _ Hm1) as Hl1.
  pose proof (match_meta_year _ _ _ Hm2) as Hl2.
  destruct (CreationFacts.match_meta_chars _ _ _ Hm1) as [Hy1 Hp1].
  destruct (CreationFacts.match_meta_chars _ _ _ Hm2) as [Hy2 Hp2].
  rewrite Hmain1 in Hmain2. unfold joinpath, Path_of in Hmain2. cbn in Hmain2.
  injection Hmain2 as Hd Hname.
  assert (Hshape : forall pc acr y g,
             main_folder_name pc acr y g
             = (pc ++ 45 :: acr ++ [45]) ++ y ++ 45 :: g).
  { intros. unfold main_folder_name. cbn.
    repeat (rewrite <- app_assoc; cbn). reflexivity. }
  rewrite !Hshape in Hname.
  destruct (year_person_suffix_unique _ _ _ _ _ _ Hname Hl1 Hl2 Hy1 Hy2 Hp1 Hp2)
    as (Hx & -> & ->).
  subst pc1 pc2. cbn [List.app] in Hx. injection Hx as Hc Hx.
  apply app_inv_head in Hx. injection Hx as Hx. apply app_inv_tail in Hx. subst acr2.
  rewrite Hc. split; [reflexivity|]. split; [reflexivity|].
  rewrite Hname1, Hname2, Hmeta1, Hmeta2, Hd1, Hd2.
  cbn. rewrite Hd. auto.
Qed.

Lemma main_folder_identifies_the_project_witness :
  cps "A26" = cps "A26" /\ cps "CABCAR" = cps "CABCAR"
  /\ same_but_first_case (strip (cps "a-CABCAR")) (strip (cps " A-CABCAR"))
  /\ strip (cps "2026-Peter") = strip (cps "2026-Peter ")
  /\ upper (strip (cps "d")) = upper (strip (cps "D")).
Proof.
  apply (main_folder_identifies_the_project
           (start (filled "a-CABCAR" "2026-Peter" "d" []) drive_D yes)
           (start (filled " A-CABCAR" "2026-Peter " "D" []) drive_D yes)
           (cps "A26") (cps "CABCAR") (cps "A26") (cps "CABCAR")
           (mkPath (cps "D:/") [cps "A26-CABCAR-2026-Peter"]));
    vm_compute; reflexivity.
Defined.

End ValidationMore.

(** ** More on the creation *)

Module CreationMore.
Import Text Pattern Paths Taxonomy Disk Form Run Controller Plan Scenario Events.
Import DiskNotions ValidationFacts PlanFacts MkdirFacts CreationFacts ValidationMore.

(** *** A refused form, a declined creation *)

Lemma create_folders_refused w :
  fst (_validate_inputs w) = Ret None ->
  create_folders w = (Ret tt, snd (_validate_inputs w)).
Proof.
  intros H. unfold create_folders, bind.
  destruct (_validate_inputs w) as [r w1]. cbn [fst snd] in *. subst r. reflexivity.
Qed.

Lemma validate_inputs_quiet w :
  disk (snd (_validate_inputs w)) = disk w
  /\ vars (app (snd (_validate_inputs w))) = vars (app w)
  /\ attempts (out (snd (_validate_inputs w))) = attempts (out w).
Proof.
  rewrite validate_inputs_unfold. cbv zeta.
  destruct (missing_fields _ _ _) as [|x l].
  - destruct (match_name _) as [[g1 acr]|];
      [|cbn [snd out disk app]; rewrite attempts_app, app_nil_r; repeat split].
    destruct (match_meta _) as [[y g2]|];
      [|cbn [snd out disk app]; rewrite attempts_app, app_nil_r; repeat split].
    destruct (fullmatch_drive _);
      [repeat split|cbn [snd out disk app]; rewrite attempts_app, app_nil_r; repeat split].
  - cbn [snd out disk app]. rewrite !attempts_app, !app_nil_r.
    destruct (user w (asked w));
      repeat match goal with |- context [if ?c then _ else _] => destruct c end;
      repeat split.
Qed.

(** X6.  Unless the form is accepted and the user says yes to the
    creation, [create_folders] returns without a call to [create_folder]:
    the disk and the variables are as they were. *)
Theorem nothing_is_created_without_acceptance_and_consent w :
  (forall r, fst (_validate_inputs w) = Ret (Some r) -> user w (asked w) = false) ->
  fst (create_folders w) = Ret tt
  /\ disk (snd (create_folders w)) = disk w
  /\ vars (app (snd (create_folders w))) = vars (app w)
  /\ attempts (out (snd (create_folders w))) = attempts (out w).
Proof.
  intros H. pose proof (validate_inputs_answer w) as Ha.
  destruct (answer _ _ _) as [[[pc acr] main]|].
  - rewrite (create_folders_accepted _ _ _ _ Ha), (H _ Ha).
    unfold confirmed. cbn [fst snd disk app out].
    rewrite attempts_app, app_nil_r. repeat split.
  - rewrite (create_folders_refused _ Ha). cbn [fst snd].
    destruct (validate_inputs_quiet w) as (Hd & Hv & Ho). repeat split; assumption.
Qed.

Lemma nothing_is_created_without_acceptance_and_consent_witness :
  let w := start (cabcar [SectionVar "Outcome"]) drive_D (fun _ => false) in
  fst (create_folders w) = Ret tt
  /\ disk (snd (create_folders w)) = disk w
  /\ vars (app (snd (create_folders w))) = vars (app w)
  /\ attempts (out (snd (create_folders w))) = attempts (out w).
Proof.
  apply (nothing_is_created_without_acceptance_and_consent
           (start (cabcar [SectionVar "Outcome"]) drive_D (fun _ => false))).
  intros r _. reflexivity.
Defined.

(** *** Where the folders go *)

Lemma under_refl p : under p p.
Proof. split; [reflexivity|]. exists []. now rewrite app_nil_r. Qed.

Lemma under_joinpath folder p x : under folder p -> under folder (joinpath p x).
Proof.
  intros [Ha [rest Hr]]. split; [exact Ha|].
  exists (rest ++ [x]). cbn [joinpath parts]. now rewrite Hr, app_assoc.
Qed.

Lemma plan_under project_code acronym main_folder a p :
  In p (planCreationPaths project_code acronym main_folder a) -> under main_folder p.
Proof.
  unfold planCreationPaths. intros [<-|H]; [apply under_refl|].
  apply in_flat_map in H. destruct H as ([section subs] & _ & H).
  unfold section_paths in H. destruct (selected a (SectionVar section)); [|destruct H].
  destruct H as [<-|H]; [apply under_joinpath, under_refl|].
  apply in_flat_map in H. destruct H as ([i sub] & _ & H).
  unfold subfolder_paths in H. destruct (selected a (SubVar section i)); [|destruct H].
  destruct H as [<-|H]; [do 2 apply under_joinpath; apply under_refl|].
  apply in_map_iff in H. destruct H as (child & <- & _).
  do 3 apply under_joinpath. apply under_refl.
Qed.

(** X7.  Whatever path a run of [create_folders] passes to
    [create_folder], it is the main folder or lies below it, and the main
    folder is one component below the root of the drive letter in upper
    case. *)
Theorem every_folder_is_under_the_main_folder w project_code acronym main_folder p :
  fst (_validate_inputs w) = Ret (Some (project_code, acronym, main_folder)) ->
  In p (attempts (out (snd (create_folders w)))) ->
  In p (attempts (out w))
  \/ (under main_folder p
      /\ anchor main_folder = upper (strip (entry_drive (app w))) ++ cps ":/"
      /\ List.length (parts main_folder) = 1%nat).
Proof.
  intros Hv Hin.
  destruct (create_folders_attempts _ _ _ _ Hv) as (done & rest & Hplan & Hatt & _).
  rewrite Hatt in Hin. apply in_app_or in Hin. destruct Hin as [Hin|Hin]; [now left|].
  right. split.
  - apply (plan_under project_code acronym main_folder (app w)).
    rewrite Hplan. apply in_or_app. now left.
  - destruct (validate_inputs_accepts _ _ _ _ Hv)
      as (c & y & g2 & d & _ & _ & Hd & _ & _ & ->).
    rewrite Hd. split; reflexivity.
Qed.

Lemma every_folder_is_under_the_main_folder_witness :
  let main_folder := mkPath (cps "D:/") [cps "A26-CABCAR-2026-Peter"] in
  let p := mkPath (cps "D:/") [cps "A26-CABCAR-2026-Peter"; cps "A26-CABCAR Geodata"] in
  In p (attempts [])
  \/ (under main_folder p
      /\ anchor main_folder = upper (strip (cps "D")) ++ cps ":/"
      /\ List.length (parts main_folder) = 1%nat).
Proof.
  apply (every_folder_is_under_the_main_folder
           (start (cabcar [SectionVar "Geodata"]) drive_D yes)
           (cps "A26") (cps "CABCAR")
           (mkPath (cps "D:/") [cps "A26-CABCAR-2026-Peter"])).
  - vm_compute. reflexivity.
  - vm_compute. right. left. reflexivity.
Defined.

(** *** What happens to the disk *)

Lemma createAll_only_adds paths w :
  only_adds_dirs (disk w) (disk (snd (createAll paths w))).
Proof.
  revert w. induction paths as [|p l IH]; intros w; [apply only_adds_dirs_refl|].
  unfold createAll in *. rewrite for_each_cons, create_folder_unfold.
  destruct (mkdir p (disk w)) as [fs' [e|]] eqn:Em;
    unfold mkdir in Em; apply mkdir_from_only_adds in Em.
  - cbv zeta. destruct (user w (asked w)); [|exact Em].
    eapply only_adds_dirs_trans; [exact Em|].
    match goal with |- context [for_each l create_folder ?w1] => apply (IH w1) end.
  - eapply only_adds_dirs_trans; [exact Em|].
    match goal with |- context [for_each l create_folder ?w1] => apply (IH w1) end.
Qed.

(** X8.  A run of [create_folders] never removes or replaces anything on
    the disk: what was there is there as it was, and what is new is a
    directory. *)
Theorem the_disk_only_gains_directories w :
  only_adds_dirs (disk w) (disk (snd (create_folders w))).
Proof.
  pose proof (validate_inputs_answer w) as Ha.
  destruct (answer _ _ _) as [[[pc acr] main]|].
  - rewrite (create_folders_accepted _ _ _ _ Ha).
    destruct (user w (asked w)); [|apply only_adds_dirs_refl].
    pose proof (createAll_only_adds (planCreationPaths pc acr main (app w))
                                    (confirmed main w)) as Hc.
    destruct (createAll _ _) as [[[]|c] w2]; cbn [snd] in *; [|exact Hc].
    now rewrite finish_disk.
  - rewrite (create_folders_refused _ Ha). cbn [snd].
    destruct (validate_inputs_quiet w) as (-> & _). apply only_adds_dirs_refl.
Qed.

(** *** On a disk of directories *)

Lemma parts_joinpath p x : parts (joinpath p x) <> [].
Proof. cbn [joinpath parts]. intros H. now apply app_eq_nil in H. Qed.

(** Below a directory, on a disk of directories, [mkdir] raises nothing
    for a path the file system does not refuse, and leaves a disk of
    directories. *)
Lemma mkdir_child p fs :
  all_dirs fs -> parts p <> [] -> lookup (parent p) fs = Some Dir ->
  refuses fs p = None ->
  exists fs',
    mkdir p fs = (fs', None) /\ all_dirs fs' /\ extends fs fs'
    /\ refuses fs' = refuses fs /\ lookup p fs' = Some Dir.
Proof.
  intros Hall Hne Hpar Href. unfold mkdir.
  destruct (rev (parts p)) as [|x up] eqn:Er.
  { exfalso. apply Hne. apply (f_equal (@rev str)) in Er.
    now rewrite rev_involutive in Er. }
  cbn [mkdir_from]. rewrite <- Er, mkdir_path.
  unfold os_mkdir. rewrite Href. destruct (lookup p fs) as [n|] eqn:El.
  - rewrite (Hall _ _ El) in El. unfold is_dir. rewrite El.
    exists fs. repeat split; auto using extends_refl.
  - rewrite Hpar. exists (add_entry p Dir fs). split; [reflexivity|].
    split; [|split; [|split; [reflexivity|]]].
    + intros q n. rewrite lookup_add_entry.
      destruct (Path_eq_dec p q); [congruence | apply Hall].
    + intros q n Hq. rewrite lookup_add_entry.
      destruct (Path_eq_dec p q); [congruence | exact Hq].
    + rewrite lookup_add_entry. destruct (Path_eq_dec p p); congruence.
Qed.

Lemma createAll_top_down l :
  forall known w,
    all_dirs (disk w) ->
    (forall q, In q known -> lookup q (disk w) = Some Dir) ->
    top_down known l ->
    Forall (fun p => refuses (disk w) p = None) l ->
    exists fs',
      createAll l w
      = (Ret tt, mkWorld (app w) fs' (user w) (asked w) (out w ++ all_created l))
      /\ all_dirs fs' /\ extends (disk w) fs'
      /\ Forall (fun p => lookup p fs' = Some Dir) l.
Proof.
  induction l as [|p l IH]; intros known w Hall Hknown Htd Href.
  - exists (disk w). cbn. rewrite app_nil_r. destruct w.
    repeat split; auto using extends_refl.
  - destruct Htd as (Hne & Hpar & Htd).
    inversion Href as [|? ? Hrp Hrl]; subst.
    destruct (mkdir_child p (disk w) Hall Hne (Hknown _ Hpar) Hrp)
      as (fs1 & Hm & Hall1 & He1 & Hr1 & Hp1).
    unfold createAll in *. rewrite for_each_cons, create_folder_unfold, Hm.
    match goal with |- context [for_each l create_folder ?w1] =>
      destruct (IH (p :: known) w1) as (fs2 & Hrun & Hall2 & He2 & Hdirs) end;
      [exact Hall1 | | exact Htd | cbn [disk]; now rewrite Hr1 |].
    { cbn [disk]. intros q [<-|Hq]; [exact Hp1 | apply He1; auto]. }
    exists fs2. rewrite Hrun. cbn [app disk user asked out all_created map] in *.
    rewrite <- app_assoc. split; [reflexivity|]. split; [exact Hall2|].
    split; [eapply extends_trans; eauto|].
    constructor; [apply He2; exact Hp1 | exact Hdirs].
Qed.

Lemma top_down_weaken l : forall known known',
  incl known known' -> top_down known l -> top_down known' l.
Proof.
  induction l as [|p l IH]; intros known known' Hi; [auto|].
  intros (Hne & Hpar & Htd). split; [exact Hne|]. split; [auto|].
  eapply IH; [|exact Htd]. intros q [<-|Hq]; [now left | right; auto].
Qed.

Lemma top_down_app l1 : forall known l2,
  top_down known l1 -> top_down known l2 -> top_down known (l1 ++ l2).
Proof.
  induction l1 as [|p l1 IH]; intros known l2 H1 H2; [exact H2|].
  destruct H1 as (Hne & Hpar & Htd). split; [exact Hne|]. split; [exact Hpar|].
  apply IH; [exact Htd|]. eapply top_down_weaken; [|exact H2].
  intros q Hq. now right.
Qed.

Lemma top_down_flat_map {X} (f : X -> list Path) l known :
  (forall x, In x l -> top_down known (f x)) -> top_down known (flat_map f l).
Proof.
  induction l as [|x l IH]; intros H; [exact I|].
  cbn [flat_map]. apply top_down_app; [apply H; now left|].
  apply IH. intros; apply H; now right.
Qed.

Lemma top_down_children (f : string -> str) q l known :
  In q known -> top_down known (map (fun child => joinpath q (f child)) l).
Proof.
  revert known. induction l as [|c l IH]; intros known Hq; [exact I|].
  cbn [map]. split; [apply parts_joinpath|].
  split; [rewrite parent_joinpath; exact Hq|]. apply IH. now right.
Qed.

Lemma plan_top_down project_code acronym root x a :
  top_down [root] (planCreationPaths project_code acronym (joinpath root x) a).
Proof.
  unfold planCreationPaths. split; [apply parts_joinpath|].
  split; [rewrite parent_joinpath; now left|].
  apply top_down_flat_map. intros [section subs] _.
  unfold section_paths. destruct (selected a (SectionVar section)); [|exact I].
  split; [apply parts_joinpath|]. split; [rewrite parent_joinpath; now left|].
  apply top_down_flat_map. intros [i sub] _.
  unfold subfolder_paths. destruct (selected a (SubVar section i)); [|exact I].
  split; [apply parts_joinpath|]. split; [rewrite parent_joinpath; now left|].
  apply top_down_children. now left.
Qed.

Lemma finish_asked main_folder w : asked (snd (finish main_folder w)) = S (asked w).
Proof.
  unfold finish, bind, showinfo, emit, askyesno, modify_app.
  cbn -[reset_form destroy]. destruct (user w (asked w)); reflexivity.
Qed.

Lemma finish_app main_folder w :
  app (snd (finish main_folder w))
  = if user w (asked w) then reset_form (app w) else destroy (app w).
Proof.
  unfold finish, bind, showinfo, emit, askyesno, modify_app.
  cbn -[reset_form destroy]. destruct (user w (asked w)); reflexivity.
Qed.

(** X9.  On a disk where every entry is a writable directory and the
    root of the drive is one of them, and whose file system refuses none of
    the paths of the plan, an accepted form whose creation the user agrees
    to is carried out without an error: every path of the plan is printed as
    created, the only questions are the one before and the one after, and
    afterwards every path of the plan is a directory. *)
Theorem creation_succeeds_on_a_disk_of_directories w project_code acronym main_folder :
  fst (_validate_inputs w) = Ret (Some (project_code, acronym, main_folder)) ->
  user w (asked w) = true ->
  all_dirs (disk w) ->
  lookup (parent main_folder) (disk w) = Some Dir ->
  Forall (fun p => refuses (disk w) p = None)
         (planCreationPaths project_code acronym main_folder (app w)) ->
  let plan := planCreationPaths project_code acronym main_folder (app w) in
  let w' := snd (create_folders w) in
  fst (create_folders w) = Ret tt
  /\ asked w' = S (S (asked w))
  /\ out w'
     = out w ++ [Asked (Confirmation main_folder) true] ++ all_created plan
       ++ [Shown (Success main_folder); Asked ContinueOrExit (user w (S (asked w)))]
  /\ Forall (fun p => lookup p (disk w') = Some Dir) plan.
Proof.
  intros Hv Hyes Hall Hroot Href plan w'. subst plan w'.
  rewrite (create_folders_accepted _ _ _ _ Hv), Hyes.
  destruct (validate_inputs_accepts _ _ _ _ Hv)
    as (c & y & g2 & d & _ & _ & _ & _ & _ & Hmain).
  assert (Htd : top_down [parent main_folder]
                  (planCreationPaths project_code acronym main_folder (app w))).
  { rewrite Hmain at 2. rewrite Hmain, parent_joinpath. apply plan_top_down. }
  destruct (createAll_top_down
              (planCreationPaths project_code acronym main_folder (app w))
              [parent main_folder] (confirmed main_folder w))
    as (fs' & Hrun & Hall' & _ & Hdirs); [exact Hall | | exact Htd | exact Href |].
  { intros q [<-|[]]. exact Hroot. }
  rewrite Hrun.
  match goal with |- context [finish main_folder ?w2] =>
    destruct (finish_unfold main_folder w2) as [Hf Hout];
    pose proof (finish_asked main_folder w2) as Hasked;
    pose proof (finish_disk main_folder w2) as Hdisk end.
  unfold confirmed in *. cbn [app disk user asked out] in *. rewrite Hyes in *.
  rewrite Hf, Hasked, Hout, Hdisk, <- !app_assoc. repeat split. exact Hdirs.
Qed.

Lemma creation_succeeds_on_a_disk_of_directories_witness :
  let w := start (cabcar [SectionVar "Geodata"; SubVar "Geodata" 1]) drive_D yes in
  let main_folder := mkPath (cps "D:/") [cps "A26-CABCAR-2026-Peter"] in
  let plan := planCreationPaths (cps "A26") (cps "CABCAR") main_folder (app w) in
  let w' := snd (create_folders w) in
  fst (create_folders w) = Ret tt
  /\ asked w' = S (S (asked w))
  /\ out w'
     = out w ++ [Asked (Confirmation main_folder) true] ++ all_created plan
       ++ [Shown (Success main_folder); Asked ContinueOrExit (user w (S (asked w)))]
  /\ Forall (fun p => lookup p (disk w') = Some Dir) plan.
Proof.
  apply (creation_succeeds_on_a_disk_of_directories
           (start (cabcar [SectionVar "Geodata"; SubVar "Geodata" 1]) drive_D yes)
           (cps "A26") (cps "CABCAR")
           (mkPath (cps "D:/") [cps "A26-CABCAR-2026-Peter"])).
  - vm_compute. reflexivity.
  - reflexivity.
  - intros q n. unfold start, drive_D, lookup. cbn [disk entries find_entry].
    destruct (Path_eq_dec _ q); [congruence | discriminate].
  - vm_compute. reflexivity.
  - apply Forall_forall. intros q _. reflexivity.
Defined.

(** *** A run without a question about an error *)

Lemma create_folder_asked_le p w : asked w <= asked (snd (create_folder p w)).
Proof.
  rewrite create_folder_unfold. destruct (mkdir p (disk w)) as [fs' [e|]]; cbn; lia.
Qed.

Lemma createAll_asked_le paths w : asked w <= asked (snd (createAll paths w)).
Proof.
  revert w. induction paths as [|p l IH]; intros w; [cbn; lia|].
  unfold createAll in *. rewrite for_each_cons.
  pose proof (create_folder_asked_le p w) as Hp.
  destruct (create_folder p w) as [[[]|c] w1]; cbn [snd] in *; [|exact Hp].
  specialize (IH w1). lia.
Qed.

(** A run of [createAll] that asked nothing printed a line of success for
    every path. *)
Lemma createAll_quiet paths w :
  asked (snd (createAll paths w)) = asked w ->
  out (snd (createAll paths w)) = out w ++ all_created paths.
Proof.
  revert w. induction paths as [|p l IH]; intros w; [cbn; now rewrite app_nil_r|].
  pose proof (createAll_asked_le l) as Hle.
  unfold createAll in *. rewrite for_each_cons, create_folder_unfold.
  destruct (mkdir p (disk w)) as [fs' [e|]].
  - cbv zeta. destruct (user w (asked w)).
    + match goal with |- context [for_each l create_folder ?w1] =>
        specialize (Hle w1) end.
      cbn [asked] in Hle. intros H. lia.
    + cbn [snd asked]. intros H. lia.
  - intros H.
    match goal with |- context [for_each l create_folder ?w1] =>
      rewrite (IH w1) by exact H end.
    cbn [out all_created map]. now rewrite <- app_assoc.
Qed.

(** X10.  A run of [create_folders] on an accepted form that returns
    having asked two questions only, the one before the creation and the one
    after it, has left every path of the plan a directory. *)
Theorem a_run_without_error_has_created_every_folder w project_code acronym main_folder :
  fst (_validate_inputs w) = Ret (Some (project_code, acronym, main_folder)) ->
  fst (create_folders w) = Ret tt ->
  asked (snd (create_folders w)) = S (S (asked w)) ->
  Forall (fun p => is_dir p (disk (snd (create_folders w))) = true)
         (planCreationPaths project_code acronym main_folder (app w)).
Proof.
  intros Hv. rewrite (create_folders_accepted _ _ _ _ Hv).
  destruct (user w (asked w)).
  - pose proof (createAll_quiet
                  (planCreationPaths project_code acronym main_folder (app w))
                  (confirmed main_folder w)) as Hq.
    pose proof (createAll_clean
                  (planCreationPaths project_code acronym main_folder (app w))
                  (confirmed main_folder w)) as Hc.
    destruct (createAll _ _) as [[[]|c] w2]; cbn [fst snd] in *; [|discriminate].
    intros _ Hasked. rewrite finish_asked in Hasked. rewrite finish_disk.
    destruct Hc as [_ Hdirs]; [apply Hq; unfold confirmed; cbn [asked]; congruence|].
    eapply Forall_impl; [|exact Hdirs]. intros p [Hp _]. exact Hp.
  - cbn [fst snd confirmed asked]. intros _ H. exfalso. clear -H.
    induction (asked w); [discriminate | injection H as H; auto].
Qed.

Lemma a_run_without_error_has_created_every_folder_witness :
  let w := start (cabcar [SectionVar "Geodata"; SubVar "Geodata" 1]) drive_D yes in
  Forall (fun p => is_dir p (disk (snd (create_folders w))) = true)
         (planCreationPaths (cps "A26") (cps "CABCAR")
            (mkPath (cps "D:/") [cps "A26-CABCAR-2026-Peter"]) (app w)).
Proof.
  apply (a_run_without_error_has_created_every_folder
           (start (cabcar [SectionVar "Geodata"; SubVar "Geodata" 1]) drive_D yes));
    vm_compute; reflexivity.
Defined.

(** *** The end of a run *)

(** X11.  When the creation has been agreed to and the run returns, it
    ends with the box that says the folders were created, whether or not a
    creation failed on the way, and with the question whether to go on; on
    yes the form is the one [reset_form] makes of the form the run started
    with, on no it is that form destroyed. *)
Theorem the_run_ends_with_success_and_reset_or_exit w project_code acronym main_folder :
  fst (_validate_inputs w) = Ret (Some (project_code, acronym, main_folder)) ->
  user w (asked w) = true ->
  fst (create_folders w) = Ret tt ->
  exists o answer,
    out (snd (create_folders w))
    = o ++ [Shown (Success main_folder); Asked ContinueOrExit answer]
    /\ app (snd (create_folders w))
       = if answer then reset_form (app w) else destroy (app w).
Proof.
  intros Hv Hyes. rewrite (create_folders_accepted _ _ _ _ Hv), Hyes.
  pose proof (createAll_app_state
                (planCreationPaths project_code acronym main_folder (app w))
                (confirmed main_folder w)) as Happ.
  destruct (createAll _ _) as [[[]|c] w2]; cbn [fst snd] in *; [|discriminate].
  intros _. exists (out w2), (user w2 (asked w2)).
  destruct (finish_unfold main_folder w2) as [_ Hout].
  rewrite Hout, finish_app, Happ. split; reflexivity.
Qed.

Lemma the_run_ends_with_success_and_reset_or_exit_witness :
  let w := start (cabcar [SectionVar "Geodata"]) drive_D_with_file yes in
  let main_folder := mkPath (cps "D:/") [cps "A26-CABCAR-2026-Peter"] in
  exists o answer,
    out (snd (create_folders w))
    = o ++ [Shown (Success main_folder); Asked ContinueOrExit answer]
    /\ app (snd (create_folders w))
       = if answer then reset_form (app w) else destroy (app w).
Proof.
  apply (the_run_ends_with_success_and_reset_or_exit
           (start (cabcar [SectionVar "Geodata"]) drive_D_with_file yes)
           (cps "A26") (cps "CABCAR")
           (mkPath (cps "D:/") [cps "A26-CABCAR-2026-Peter"]));
    vm_compute; reflexivity.
Defined.

(** The run of the last example did fail to create its two folders. *)
Example success_is_shown_after_failures :
  let w := start (cabcar [SectionVar "Geodata"]) drive_D_with_file yes in
  created (out (snd (create_folders w))) = []
  /\ List.length (attempts (out (snd (create_folders w)))) = 2%nat
  /\ In (Shown (Success (mkPath (cps "D:/") [cps "A26-CABCAR-2026-Peter"])))
        (out (snd (create_folders w))).
Proof. vm_compute. repeat split. right. right. right. right. right. now left. Qed.

End CreationMore.

(** ** The forms the script can reach *)

Module ReachFacts.
Import Text Pattern Paths Taxonomy Disk Form Run Controller Plan FormNotions Events Reach.
Import FormFacts ValidationFacts PlanFacts CreationFacts CreationMore.
Local Open Scope Z_scope.

(** *** What a write changes *)

Lemma select_all_set_widget running sect v a :
  widget_state (select_all_set running sect v a) = widget_state a.
Proof. rewrite select_all_set_eq, store_all_shape. reflexivity. Qed.

Lemma sub_set_widget sect i v a : widget_state (sub_set sect i v a) = widget_state a.
Proof.
  unfold sub_set, update_select_all.
  change (_bulk_update (store (SubVar sect i) v a)) with (_bulk_update a).
  destruct (_bulk_update a); [reflexivity|].
  match goal with |- context [if ?c then _ else _] => destruct c end; [|reflexivity].
  cbn [widget_state with_bulk_update]. now rewrite select_all_set_widget.
Qed.

Lemma sub_set_bulk sect i v a :
  _bulk_update a = false -> _bulk_update (sub_set sect i v a) = false.
Proof.
  intros Hb. unfold sub_set, update_select_all.
  change (_bulk_update (store (SubVar sect i) v a)) with (_bulk_update a).
  rewrite Hb. match goal with |- context [if ?c then _ else _] => destruct c end;
    [reflexivity | exact Hb].
Qed.

(** The variables a write to a subfolder variable can change are those of
    its section: the subfolder variables and the select-all variable. *)
Lemma sub_set_other sect i v a y :
  (forall j, y <> SubVar sect j) -> y <> SelectAllVar sect ->
  vars (sub_set sect i v a) y = vars a y.
Proof.
  intros Hsub Hsa. unfold sub_set, update_select_all.
  change (_bulk_update (store (SubVar sect i) v a)) with (_bulk_update a).
  assert (Hs : vars (store (SubVar sect i) v a) y = vars a y)
    by (apply upd_other; apply Hsub).
  destruct (_bulk_update a); [exact Hs|].
  match goal with |- context [if ?c then _ else _] => destruct c end; [|exact Hs].
  cbn [vars with_bulk_update]. rewrite select_all_set_vars.
  destruct (in_dec Var_eq_dec y (map snd (sub_vars sect))) as [Hin|_].
  - apply sub_vars_are_sub in Hin. destruct Hin as [j Hj]. now apply Hsub in Hj.
  - destruct (Var_eq_dec y (SelectAllVar sect)); [contradiction | exact Hs].
Qed.

Lemma select_all_set_other running sect v a y :
  (forall j, y <> SubVar sect j) -> y <> SelectAllVar sect ->
  vars (select_all_set running sect v a) y = vars a y.
Proof.
  intros Hsub Hsa. rewrite select_all_set_vars.
  destruct (in_dec Var_eq_dec y (map snd (sub_vars sect))) as [Hin|_].
  - apply sub_vars_are_sub in Hin. destruct Hin as [j Hj]. now apply Hsub in Hj.
  - destruct (Var_eq_dec y (SelectAllVar sect)); [contradiction | reflexivity].
Qed.

Lemma all_on_ext sect a b :
  (forall j, vars b (SubVar sect j) = vars a (SubVar sect j)) ->
  all_on sect b = all_on sect a.
Proof.
  intros H. unfold all_on.
  assert (Hl : forall l, (forall sv, In sv l -> exists j, snd sv = SubVar sect j) ->
               forallb (fun sv : string * Var => vars b (snd sv) =? 1) l
               = forallb (fun sv : string * Var => vars a (snd sv) =? 1) l).
  { induction l as [|sv l IH]; intros Hl; [reflexivity|]. cbn [forallb].
    destruct (Hl sv (or_introl eq_refl)) as [j ->]. rewrite H. f_equal.
    apply IH. intros; apply Hl; now right. }
  apply Hl. intros sv Hsv. apply sub_vars_are_sub. now apply in_map.
Qed.

Lemma fold_widget_state enabled (l : list (string * Var)) b y :
  widget_state
    (fold_left (fun a sv => with_widget_state (upd (widget_state a) (snd sv) enabled) a)
               l b) y
  = if in_dec Var_eq_dec y (map snd l) then enabled else widget_state b y.
Proof.
  revert b. induction l as [|sv l IH]; intros b; [reflexivity|].
  cbn [fold_left map]. rewrite IH. cbn [widget_state with_widget_state].
  destruct (in_dec Var_eq_dec y (map snd l)) as [Hin|Hn];
    destruct (in_dec Var_eq_dec y (snd sv :: map snd l)) as [Hin'|Hn'];
    try reflexivity.
  - exfalso. apply Hn'. now right.
  - destruct Hin' as [->|Hin']; [apply upd_same | contradiction].
  - apply upd_other. intros ->. apply Hn'. now left.
Qed.

Lemma set_children_enabled_widget enabled sect a y :
  widget_state (set_children_enabled enabled sect a) y
  = if in_dec Var_eq_dec y (map snd (sub_vars sect)) then enabled
    else if Var_eq_dec y (SelectAllVar sect) then enabled else widget_state a y.
Proof.
  unfold set_children_enabled. rewrite fold_widget_state.
  destruct (in_dec Var_eq_dec y (map snd (sub_vars sect))); [reflexivity|].
  cbn [widget_state with_widget_state]. unfold upd.
  destruct (Var_eq_dec y (SelectAllVar sect)); reflexivity.
Qed.

Lemma section_set_widget sect v a y :
  widget_state (section_set sect v a) y
  = if in_dec Var_eq_dec y (map snd (sub_vars sect)) then negb (v =? 0)
    else if Var_eq_dec y (SelectAllVar sect) then negb (v =? 0) else widget_state a y.
Proof.
  unfold section_set. rewrite set_children_enabled_widget.
  cbn [vars store with_vars widget_state]. now rewrite upd_same.
Qed.

Lemma section_set_bulk sect v a : _bulk_update (section_set sect v a) = _bulk_update a.
Proof. unfold section_set. rewrite set_children_enabled_shape. reflexivity. Qed.

Lemma sections_have_subfolders s : In s sections -> sub_vars s <> [].
Proof.
  unfold sections. cbn [map layout_order fst In].
  intros H. repeat (destruct H as [<-|H]; [discriminate|]). destruct H.
Qed.

(** *** The invariant, write by write *)

Lemma IntVar_set_bulk x v a :
  _bulk_update a = false -> _bulk_update (IntVar_set x v a) = false.
Proof.
  intros Hb. destruct x; unfold IntVar_set.
  - now rewrite section_set_bulk.
  - apply select_all_set_bulk.
  - now apply sub_set_bulk.
Qed.

Lemma IntVar_set_zero_or_one x v a :
  v = 0 \/ v = 1 -> zero_or_one a -> zero_or_one (IntVar_set x v a).
Proof.
  intros Hv Ha y. destruct x as [t|t|t i]; unfold IntVar_set.
  - rewrite section_set_vars. unfold upd. destruct (Var_eq_dec _ _); auto.
  - rewrite select_all_set_vars.
    destruct (in_dec Var_eq_dec _ _); [exact Hv|].
    destruct (Var_eq_dec _ _); auto.
  - unfold sub_set, update_select_all.
    change (_bulk_update (store (SubVar t i) v a)) with (_bulk_update a).
    assert (Hs : vars (store (SubVar t i) v a) y = 0 \/ vars (store (SubVar t i) v a) y = 1).
    { cbn [vars store with_vars]. unfold upd. destruct (Var_eq_dec _ _); auto. }
    destruct (_bulk_update a); [exact Hs|].
    match goal with |- context [if negb ?c then _ else _] => destruct c end;
      cbn [negb]; [exact Hs|].
    cbn [vars with_bulk_update]. rewrite select_all_set_vars.
    match goal with |- context [Z.b2z ?b] => destruct b end; cbn [Z.b2z];
      destruct (in_dec Var_eq_dec _ _); auto; destruct (Var_eq_dec _ _); auto.
Qed.

Lemma IntVar_set_consistent x v a :
  v = 0 \/ v = 1 -> _bulk_update a = false ->
  select_all_consistent a -> select_all_consistent (IntVar_set x v a).
Proof.
  intros Hv Hb Ha s Hs. destruct x as [t|t|t i]; unfold IntVar_set.
  - rewrite section_set_vars, upd_other by discriminate.
    rewrite (all_on_ext s a (section_set t v a)); [now apply Ha|].
    intros j. rewrite section_set_vars. apply upd_other. discriminate.
  - destruct (string_dec s t) as [->|Hne].
    + pose proof (select_all_sets_children t v a) as [Hsa Hsub].
      unfold IntVar_set in *. rewrite Hsa. unfold all_on.
      rewrite (forallb_const _ _ v).
      * destruct Hv as [->| ->]; reflexivity.
      * now apply sections_have_subfolders.
      * intros sv Hsv. rewrite Forall_forall in Hsub. now apply Hsub.
    + rewrite select_all_set_other; [|discriminate|congruence].
      rewrite (all_on_ext s a (select_all_set None t v a)); [now apply Ha|].
      intros j. apply select_all_set_other; [|discriminate]. congruence.
  - destruct (string_dec s t) as [->|Hne].
    + apply (sub_set_select_all_consistent t i v a Hb).
    + rewrite sub_set_other; [|discriminate|congruence].
      rewrite (all_on_ext s a (sub_set t i v a)); [now apply Ha|].
      intros j. apply sub_set_other; [|discriminate]. congruence.
Qed.

Lemma IntVar_set_enabled x v a :
  enabled_iff_ticked a -> enabled_iff_ticked (IntVar_set x v a).
Proof.
  intros Ha s Hs. specialize (Ha s Hs). cbv zeta in *. destruct Ha as [Hsa Hsub].
  destruct x as [t|t|t i]; unfold IntVar_set.
  - rewrite section_set_vars. destruct (string_dec s t) as [->|Hne].
    + rewrite upd_same. split.
      * rewrite section_set_widget.
        destruct (in_dec Var_eq_dec _ _); [reflexivity|].
        destruct (Var_eq_dec _ _); congruence.
      * apply Forall_forall. intros sv Hsv. rewrite section_set_widget.
        destruct (in_dec Var_eq_dec _ _) as [|Hn]; [reflexivity|].
        exfalso. apply Hn. now apply in_map.
    + rewrite upd_other by congruence. split.
      * rewrite section_set_widget.
        destruct (in_dec Var_eq_dec _ _) as [Hin|_].
        { apply sub_vars_are_sub in Hin. destruct Hin; discriminate. }
        destruct (Var_eq_dec _ _); [congruence | exact Hsa].
      * apply Forall_forall. intros sv Hsv. rewrite section_set_widget.
        destruct (sub_vars_are_sub s (snd sv) (in_map snd _ _ Hsv)) as [j Hj].
        destruct (in_dec Var_eq_dec _ _) as [Hin|_].
        { apply sub_vars_are_sub in Hin. destruct Hin as [j' Hj']. congruence. }
        destruct (Var_eq_dec _ _); [congruence|].
        rewrite Forall_forall in Hsub. now apply Hsub.
  - rewrite select_all_set_section, select_all_set_widget. now split.
  - rewrite sub_set_section, sub_set_widget. now split.
Qed.

Lemma IntVar_set_invariant x v a :
  v = 0 \/ v = 1 -> invariant a -> invariant (IntVar_set x v a).
Proof.
  intros Hv (Hb & Hc & He & Hz). split; [|split; [|split]].
  - now apply IntVar_set_bulk.
  - now apply IntVar_set_consistent.
  - now apply IntVar_set_enabled.
  - now apply IntVar_set_zero_or_one.
Qed.

(** The invariant looks at the variables, the states of the boxes and
    [_bulk_update] only. *)
Lemma invariant_ext a b :
  vars b = vars a -> widget_state b = widget_state a ->
  _bulk_update b = _bulk_update a -> invariant a -> invariant b.
Proof.
  intros Hv Hw Hb (Ib & Ic & Ie & Iz). split; [congruence|]. split; [|split].
  - intros s Hs. rewrite Hv. rewrite (all_on_ext s a b); [now apply Ic|].
    intros j. now rewrite Hv.
  - intros s Hs. rewrite Hv, Hw. now apply Ie.
  - intros x. rewrite Hv. apply Iz.
Qed.

Lemma invariant_initial : invariant initial.
Proof.
  split; [reflexivity|]. split; [|split].
  - intros s Hs. cbn [vars initial].
    pose proof (sections_have_subfolders s Hs) as Hne.
    unfold all_on. destruct (sub_vars s); [congruence | reflexivity].
  - intros s Hs. cbv zeta. cbn [vars widget_state initial Z.eqb negb]. split; [reflexivity|].
    apply Forall_forall. intros sv Hsv.
    destruct (sub_vars_are_sub s (snd sv) (in_map snd _ _ Hsv)) as [j ->]. reflexivity.
  - intros x. now left.
Qed.

Lemma click_invariant x a : invariant a -> invariant (click x a).
Proof.
  intros Ha. unfold click. destruct (widget_state a x); [|exact Ha].
  apply IntVar_set_invariant; [|exact Ha]. destruct (vars a x =? 1); auto.
Qed.

Lemma reset_form_invariant a : invariant a -> invariant (reset_form a).
Proof.
  intros Ha. rewrite reset_form_phases.
  set (a1 := with_focus EntryName (with_entry_meta [] (with_entry_name [] a))).
  assert (H1 : invariant a1) by (apply (invariant_ext a); auto).
  unfold reset_select_all, reset_subs, reset_sections.
  repeat (apply (fold_left_keeps invariant);
          [intros; repeat (apply (fold_left_keeps invariant); [intros|]);
           try (apply IntVar_set_invariant; [now left | assumption]); assumption|]).
  exact H1.
Qed.

(** What [create_folders] can do to the form. *)
Lemma create_folders_app w :
  let a' := app (snd (create_folders w)) in
  a' = app w \/ (exists e, a' = with_focus e (app w))
  \/ a' = destroy (app w) \/ a' = reset_form (app w).
Proof.
  cbv zeta. pose proof (ValidationMore.validate_inputs_answer w) as Ha.
  destruct (answer _ _ _) as [[[pc acr] main]|].
  - rewrite (create_folders_accepted _ _ _ _ Ha).
    destruct (user w (asked w)); [|now left].
    pose proof (createAll_app_state (planCreationPaths pc acr main (app w))
                                    (confirmed main w)) as Happ.
    destruct (createAll _ _) as [[[]|c] w2]; cbn [snd] in *; [|now left].
    rewrite finish_app, Happ. cbn [confirmed app].
    destruct (user w2 (asked w2)); auto.
  - rewrite (create_folders_refused _ Ha). cbn [snd].
    rewrite validate_inputs_unfold. cbv zeta.
    destruct (missing_fields _ _ _) as [|x l].
    + destruct (match_name _) as [[g1 acr]|]; [|right; left; eexists; reflexivity].
      destruct (match_meta _) as [[y g2]|]; [|right; left; eexists; reflexivity].
      destruct (fullmatch_drive _); [now left | right; left; eexists; reflexivity].
    + cbn [snd app]. destruct (user w (asked w)); [|auto].
      repeat match goal with |- context [if ?c then _ else _] => destruct c end;
        right; left; eexists; reflexivity.
Qed.

Lemma create_folders_invariant w :
  invariant (app w) -> invariant (app (snd (create_folders w))).
Proof.
  intros Ha. destruct (create_folders_app w) as [->|[[e ->]|[->| ->]]].
  - exact Ha.
  - apply (invariant_ext (app w)); auto.
  - apply (invariant_ext (app w)); auto.
  - now apply reset_form_invariant.
Qed.

Lemma reachable_invariant a : reachable a -> invariant a.
Proof.
  induction 1.
  - apply invariant_initial.
  - now apply click_invariant.
  - apply (invariant_ext a); auto.
  - apply (invariant_ext a); auto.
  - apply (invariant_ext a); auto.
  - now apply create_folders_invariant.
Qed.

(** X12.  In every form the user can reach, by clicks, edits and the
    button, the select-all variable of each section is 1 exactly when all
    the subfolder variables of the section are 1, and [_bulk_update] is
    down. *)
Theorem select_all_always_tells_whether_all_are_on a :
  reachable a -> _bulk_update a = false /\ select_all_consistent a.
Proof.
  intros H. destruct (reachable_invariant a H) as (Hb & Hc & _). now split.
Qed.

Lemma select_all_always_tells_whether_all_are_on_witness :
  let a := click (SubVar "Geodata" 1) (click (SectionVar "Geodata") initial) in
  _bulk_update a = false /\ select_all_consistent a.
Proof.
  apply (select_all_always_tells_whether_all_are_on
           (click (SubVar "Geodata" 1) (click (SectionVar "Geodata") initial))).
  apply reach_click, reach_click, reach_initial.
Defined.



(** X14.  In every form the user can reach, every check-box variable is
    0 or 1: the test [v.get() == 1] of [update_select_all] and the test
    [not v.get()] of [create_folders] agree on what is ticked. *)
Theorem every_variable_is_zero_or_one a :
  reachable a ->
  forall x, (vars a x =? 1) = negb (vars a x =? 0) /\ (vars a x = 0 \/ vars a x = 1).
Proof.
  intros H x. destruct (reachable_invariant a H) as (_ & _ & _ & Hz).
  destruct (Hz x) as [E|E]; rewrite E; auto.
Qed.

Lemma every_variable_is_zero_or_one_witness :
  let a := click (SelectAllVar "Geodata") (click (SectionVar "Geodata") initial) in
  let x := SubVar "Geodata" 2 in
  (vars a x =? 1) = negb (vars a x =? 0) /\ (vars a x = 0 \/ vars a x = 1).
Proof.
  apply (every_variable_is_zero_or_one
           (click (SelectAllVar "Geodata") (click (SectionVar "Geodata") initial))).
  apply reach_click, reach_click, reach_initial.
Defined.

(** *** What a write never touches *)

Lemma section_set_shape sect v a :
  section_set sect v a
  = with_widget_state (widget_state (section_set sect v a))
                      (store (SectionVar sect) v a).
Proof. unfold section_set. cbv zeta. now rewrite set_children_enabled_shape at 1. Qed.

Lemma IntVar_set_focus x v a : focus (IntVar_set x v a) = focus a.
Proof.
  destruct x as [s|s|s i]; unfold IntVar_set.
  - rewrite section_set_shape. reflexivity.
  - rewrite select_all_set_eq, store_all_shape. reflexivity.
  - unfold sub_set, update_select_all.
    change (_bulk_update (store (SubVar s i) v a)) with (_bulk_update a).
    destruct (_bulk_update a); [reflexivity|].
    match goal with |- context [if ?c then _ else _] => destruct c end; [|reflexivity].
    rewrite select_all_set_eq, store_all_shape. reflexivity.
Qed.

(** No write enables or disables the box of a section. *)
Lemma IntVar_set_section_widget x v a t :
  widget_state (IntVar_set x v a) (SectionVar t) = widget_state a (SectionVar t).
Proof.
  destruct x as [s|s|s i]; unfold IntVar_set.
  - rewrite section_set_widget.
    destruct (in_dec Var_eq_dec (SectionVar t) (map snd (sub_vars s))) as [Hin|_].
    + apply sub_vars_are_sub in Hin. destruct Hin as [j Hj]. discriminate.
    + destruct (Var_eq_dec (SectionVar t) (SelectAllVar s)); [discriminate | reflexivity].
  - now rewrite select_all_set_widget.
  - now rewrite sub_set_widget.
Qed.

(** A write to a subfolder or select-all variable enables and disables
    nothing. *)
Lemma IntVar_set_widget x v a :
  is_section_var x = false -> widget_state (IntVar_set x v a) = widget_state a.
Proof.
  destruct x as [s|s|s i]; intros H; try discriminate; unfold IntVar_set;
    [apply select_all_set_widget | apply sub_set_widget].
Qed.

(** Folding a step that brings its own targets to a state and keeps
    whatever is in that state. *)
Lemma fold_left_sets {X} (Q : Var -> App -> Prop) (step : App -> X -> App)
    (target : X -> Var -> Prop) l :
  (forall a x y, In x l -> target x y -> Q y (step a x)) ->
  (forall a x y, In x l -> Q y a -> Q y (step a x)) ->
  forall a x y, In x l -> target x y -> Q y (fold_left step l a).
Proof.
  induction l as [|x0 l IH]; intros Hset Hkeep a x y Hin Ht; [destruct Hin|].
  simpl. destruct Hin as [->|Hin].
  - apply (fold_left_keeps (Q y)).
    + intros; apply Hkeep; simpl; auto.
    + apply Hset; simpl; auto.
  - apply IH with (x := x); auto; intros; [apply Hset | apply Hkeep]; simpl; auto.
Qed.

(** *** The form after a reset *)

Lemma reset_sections_disables a s y :
  In s sections -> y = SelectAllVar s \/ In y (map snd (sub_vars s)) ->
  widget_state (reset_sections a) y = false.
Proof.
  intros Hs Hy. unfold reset_sections.
  apply (fold_left_sets (fun y a => widget_state a y = false)
           (fun a (sv : string * Var) => IntVar_set (snd sv) 0 a)
           (fun sv y => y = SelectAllVar (fst sv) \/ In y (map snd (sub_vars (fst sv))))
           section_vars) with (x := (s, SectionVar s)).
  - intros b sv z Hin Hz. rewrite (in_section_vars sv Hin). unfold IntVar_set.
    rewrite section_set_widget.
    destruct (in_dec Var_eq_dec z (map snd (sub_vars (fst sv)))) as [|Hn]; [reflexivity|].
    destruct (Var_eq_dec z (SelectAllVar (fst sv))) as [|Hne]; [reflexivity|].
    destruct Hz; contradiction.
  - intros b sv z Hin Hz. rewrite (in_section_vars sv Hin). unfold IntVar_set.
    rewrite section_set_widget.
    destruct (in_dec Var_eq_dec z (map snd (sub_vars (fst sv)))); [reflexivity|].
    destruct (Var_eq_dec z (SelectAllVar (fst sv))); [reflexivity | exact Hz].
  - unfold sections in Hs. apply in_map_iff in Hs. destruct Hs as [sc [<- Hsc]].
    unfold section_vars. apply in_map_iff. exists sc. split; [reflexivity | exact Hsc].
  - exact Hy.
Qed.

Lemma reset_subs_widget a : widget_state (reset_subs a) = widget_state a.
Proof.
  unfold reset_subs.
  apply (fold_left_keeps (fun b => widget_state b = widget_state a)); [|reflexivity].
  intros b item Hitem Hb.
  apply (fold_left_keeps (fun b => widget_state b = widget_state a)); [|exact Hb].
  intros c subv Hsubv Hc. rewrite IntVar_set_widget; [exact Hc|].
  rewrite (in_sub_vars_items item Hitem) in Hsubv. now apply (in_sub_vars (fst item)).
Qed.

Lemma reset_select_all_widget a : widget_state (reset_select_all a) = widget_state a.
Proof.
  unfold reset_select_all.
  apply (fold_left_keeps (fun b => widget_state b = widget_state a)); [|reflexivity].
  intros b sv Hsv Hb. rewrite IntVar_set_widget; [exact Hb|].
  now rewrite (in_select_all_vars sv Hsv).
Qed.

Lemma reset_select_all_bulk a : _bulk_update (reset_select_all a) = false.
Proof.
  unfold reset_select_all, select_all_vars.
  cbn [map layout_order fold_left fst snd]. unfold IntVar_set at 1.
  apply select_all_set_bulk.
Qed.

Lemma reset_form_focus a : focus (reset_form a) = Some EntryName.
Proof.
  rewrite reset_form_phases. unfold reset_select_all, reset_subs, reset_sections.
  repeat (apply (fold_left_keeps (fun b => focus b = Some EntryName));
          [intros; repeat (apply (fold_left_keeps (fun b => focus b = Some EntryName));
                           [intros|]);
           try (rewrite IntVar_set_focus); assumption|]).
  reflexivity.
Qed.

Lemma reset_form_section_widget a t :
  widget_state (reset_form a) (SectionVar t) = widget_state a (SectionVar t).
Proof.
  rewrite reset_form_phases. unfold reset_select_all, reset_subs, reset_sections.
  repeat (apply (fold_left_keeps
                   (fun b => widget_state b (SectionVar t) = widget_state a (SectionVar t)));
          [intros;
           repeat (apply (fold_left_keeps
                     (fun b => widget_state b (SectionVar t) = widget_state a (SectionVar t)));
                   [intros|]);
           try (rewrite IntVar_set_section_widget); assumption|]).
  reflexivity.
Qed.

(** X15.  Whatever the form was, after [reset_form] the focus is in the
    entry of the code and acronym, [_bulk_update] is down, the select-all
    box and the subfolder boxes of every section are disabled, and the box
    of every section is enabled or not as it was. *)
Theorem reset_form_disables_the_boxes_under_the_sections (a : App) :
  let a' := reset_form a in
  focus a' = Some EntryName /\ _bulk_update a' = false
  /\ Forall (fun sv => widget_state a' (snd sv) = false) select_all_vars
  /\ Forall (fun item => Forall (fun subv => widget_state a' (snd subv) = false) (snd item))
            sub_vars_items
  /\ Forall (fun sv => widget_state a' (snd sv) = widget_state a (snd sv)) section_vars.
Proof.
  cbv zeta. split; [apply reset_form_focus|].
  split; [rewrite reset_form_phases; apply reset_select_all_bulk|].
  assert (Hw : forall s y, In s sections ->
                 y = SelectAllVar s \/ In y (map snd (sub_vars s)) ->
                 widget_state (reset_form a) y = false).
  { intros s y Hs Hy. rewrite reset_form_phases, reset_select_all_widget, reset_subs_widget.
    now apply (reset_sections_disables _ s). }
  split; [|split].
  - apply Forall_forall. intros sv Hsv. rewrite (in_select_all_vars sv Hsv).
    apply (Hw (fst sv)); [|now left].
    unfold select_all_vars in Hsv. apply in_map_iff in Hsv.
    destruct Hsv as [sc [<- Hsc]]. cbn [fst]. unfold sections. now apply in_map.
  - apply Forall_forall. intros item Hitem. apply Forall_forall. intros subv Hsubv.
    rewrite (in_sub_vars_items item Hitem) in Hsubv.
    apply (Hw (fst item)); [|right; now apply in_map].
    unfold sub_vars_items in Hitem. apply in_map_iff in Hitem.
    destruct Hitem as [sc [<- Hsc]]. cbn [fst]. unfold sections. now apply in_map.
  - apply Forall_forall. intros sv Hsv. rewrite (in_section_vars sv Hsv).
    apply reset_form_section_widget.
Qed.

(** *** Clicks in a form the user can reach *)

(** X16.  In a form the user can reach, a click on the select-all box of
    a ticked section toggles the whole section: when every subfolder of
    the section is ticked the click unticks them all, otherwise it ticks
    them all; the select-all variable follows, and no variable outside
    the section changes. *)
Theorem select_all_click_toggles_the_whole_section a s :
  reachable a -> In s sections -> vars a (SectionVar s) <> 0 ->
  let a' := click (SelectAllVar s) a in
  let v := if all_on s a then 0 else 1 in
  vars a' (SelectAllVar s) = v
  /\ Forall (fun sv => vars a' (snd sv) = v) (sub_vars s)
  /\ (forall y, y <> SelectAllVar s -> (forall j, y <> SubVar s j) ->
      vars a' y = vars a y).
Proof.
  intros Hr Hs Ht. cbv zeta.
  destruct (reachable_invariant a Hr) as (_ & Hc & He & _).
  destruct (He s Hs) as [Hen _]. specialize (Hc s Hs).
  apply Z.eqb_neq in Ht. rewrite Ht in Hen. cbn [negb] in Hen.
  unfold click. rewrite Hen, Hc.
  assert (Hv : (if Z.b2z (all_on s a) =? 1 then 0 else 1) = if all_on s a then 0 else 1)
    by now destruct (all_on s a).
  rewrite Hv.
  destruct (select_all_sets_children s (if all_on s a then 0 else 1) a) as [H1 H2].
  split; [exact H1|]. split; [exact H2|].
  intros y Hy Hsub. unfold IntVar_set. now apply select_all_set_other.
Qed.

Lemma select_all_click_toggles_the_whole_section_witness :
  let a := click (SectionVar "Geodata") initial in
  let a' := click (SelectAllVar "Geodata") a in
  vars a' (SelectAllVar "Geodata") = 1
  /\ Forall (fun sv => vars a' (snd sv) = 1) (sub_vars "Geodata")
  /\ (forall y, y <> SelectAllVar "Geodata" -> (forall j, y <> SubVar "Geodata" j) ->
      vars a' y = vars a y).
Proof.
  apply (select_all_click_toggles_the_whole_section
           (click (SectionVar "Geodata") initial) "Geodata").
  - apply reach_click, reach_initial.
  - vm_compute. tauto.
  - vm_compute. discriminate.
Defined.

Lemma reachable_section_enabled a t :
  reachable a -> widget_state a (SectionVar t) = true.
Proof.
  induction 1 as [|a x Hr IH| | | |w Hr IH]; try assumption.
  - reflexivity.
  - unfold click. destruct (widget_state a x); [|exact IH].
    now rewrite IntVar_set_section_widget.
  - destruct (create_folders_app w) as [->|[[e ->]|[->| ->]]]; try exact IH.
    now rewrite reset_form_section_widget.
Qed.

(** X17.  In a form the user can reach, unticking a section and ticking
    it again (or the other way round) brings every variable and every
    box back to where it was: the ticks of the subfolders under an
    unticked section are kept. *)
Theorem two_clicks_on_a_section_restore_the_form a s :
  reachable a -> In s sections ->
  let a' := click (SectionVar s) (click (SectionVar s) a) in
  (forall x, vars a' x = vars a x)
  /\ (forall x, widget_state a' x = widget_state a x)
  /\ same_texts a a' /\ _bulk_update a' = _bulk_update a.
Proof.
  intros Hr Hs. cbv zeta.
  destruct (reachable_invariant a Hr) as (_ & _ & He & Hz).
  destruct (He s Hs) as [Hsa Hsubs].
  pose proof (reachable_section_enabled a s Hr) as Hen.
  set (v1 := if vars a (SectionVar s) =? 1 then 0 else 1).
  assert (E1 : click (SectionVar s) a = section_set s v1 a).
  { unfold click. now rewrite Hen. }
  rewrite E1.
  assert (Hen1 : widget_state (section_set s v1 a) (SectionVar s) = true).
  { change (section_set s v1 a) with (IntVar_set (SectionVar s) v1 a).
    now rewrite IntVar_set_section_widget. }
  assert (Hv1 : vars (section_set s v1 a) (SectionVar s) = v1).
  { rewrite section_set_vars. apply upd_same. }
  assert (E2 : click (SectionVar s) (section_set s v1 a)
               = section_set s (vars a (SectionVar s)) (section_set s v1 a)).
  { unfold click. rewrite Hen1, Hv1. unfold IntVar_set. f_equal.
    subst v1. destruct (Hz (SectionVar s)) as [E|E]; rewrite E; reflexivity. }
  rewrite E2. split; [|split; [|split]].
  - intros x. rewrite section_set_vars. unfold upd.
    destruct (Var_eq_dec x (SectionVar s)) as [->|Hx]; [reflexivity|].
    rewrite section_set_vars. now apply upd_other.
  - intros x. rewrite !section_set_widget.
    destruct (in_dec Var_eq_dec x (map snd (sub_vars s))) as [Hin|Hn].
    + apply in_map_iff in Hin. destruct Hin as [sv [<- Hsv]].
      rewrite Forall_forall in Hsubs. symmetry. now apply Hsubs.
    + destruct (Var_eq_dec x (SelectAllVar s)) as [->|]; [now symmetry | reflexivity].
  - eapply same_texts_trans; apply section_set_texts.
  - now rewrite !section_set_bulk.
Qed.

Lemma two_clicks_on_a_section_restore_the_form_witness :
  let a := click (SubVar "Geodata" 0) (click (SectionVar "Geodata") initial) in
  let a' := click (SectionVar "Geodata") (click (SectionVar "Geodata") a) in
  (forall x, vars a' x = vars a x)
  /\ (forall x, widget_state a' x = widget_state a x)
  /\ same_texts a a' /\ _bulk_update a' = _bulk_update a.
Proof.
  apply (two_clicks_on_a_section_restore_the_form
           (click (SubVar "Geodata" 0) (click (SectionVar "Geodata") initial)) "Geodata").
  - apply reach_click, reach_click, reach_initial.
  - vm_compute. tauto.
Defined.

End ReachFacts.

(** ** The search for the box of a variable *)

Module WidgetFacts.
Import Taxonomy Form FormNotions Reach Widgets.










End WidgetFacts.
